(** * ClientManager: one language client per workspace folder

    Shallow embedding of [clientManager.ts] (class [ClientManager]) and
    verification of its lifecycle properties: single-flight start, rollback
    of a failed start, stop and bulk stop, watcher disposal and the lazy
    open notification.

    The class is asynchronous.  Every [await] of the source is a suspension
    point; the code between two suspension points runs atomically on the
    single JavaScript thread.  Each async method is therefore embedded as an
    entry function (the code up to its first [await]) and a resumption
    function (the code from one [await] to the next), over an explicit
    manager state.  Two semantics are built on these steps: a run without
    interleaving, where every awaited call settles as the collaborators
    dictate, and an interleaved system in which calls and resumptions of
    many pending invocations alternate freely. *)

From stdpp Require Import base option list gmap sets strings.

Set Default Proof Using "Type".

(** ** JavaScript [Map]

    ECMAScript keeps the records of a [Map] in a list ([[MapData]]) in
    insertion order.  [delete] and [clear] empty records in place and a
    map iterator is an index into that list, which is why deleting while
    iterating, as [stopAll] and [cleanupAllWatchers] do, is well defined. *)
Module JSMap.

Definition t (V : Type) : Type := list (option (string * V)).

Definition empty {V} : t V := [].

Fixpoint get {V} (m : t V) (k : string) : option V :=
  match m with
  | [] => None
  | Some (k', v) :: m' => if decide (k' = k) then Some v else get m' k
  | None :: m' => get m' k
  end.

Definition has {V} (m : t V) (k : string) : bool :=
  match get m k with Some _ => true | None => false end.

(** [set] overwrites the value of the record holding [k], keeping its
    position, or appends a new record. *)
Fixpoint set {V} (m : t V) (k : string) (v : V) : t V :=
  match m with
  | [] => [Some (k, v)]
  | Some (k', v') :: m' =>
      if decide (k' = k) then Some (k', v) :: m'
      else Some (k', v') :: set m' k v
  | None :: m' => None :: set m' k v
  end.

Definition wipe {V} (k : string) (r : option (string * V))
  : option (string * V) :=
  match r with
  | Some (k', v) => if decide (k' = k) then None else Some (k', v)
  | None => None
  end.

(** [delete] empties the record holding [k]; the list keeps its length,
    so iterator positions stay valid.  A map built by [set] holds at most
    one record per key ([wf_map] below), which is the record emptied. *)
Definition delete {V} (m : t V) (k : string) : t V := wipe k <$> m.

Definition clear {V} (m : t V) : t V :=
  (fun _ : option (string * V) => None) <$> m.

(** The records an observer can see, in insertion order. *)
Definition live {V} (m : t V) : list (string * V) := omap id m.

Definition size {V} (m : t V) : nat := length (live m).

Fixpoint first_live {V} (l : t V) (i : nat) : option (nat * (string * V)) :=
  match l with
  | [] => None
  | Some e :: _ => Some (S i, e)
  | None :: l' => first_live l' (S i)
  end.

(** [next m i]: the iterator at position [i] skips emptied records and
    yields the first live one together with the position after it. *)
Definition next {V} (m : t V) (i : nat) : option (nat * (string * V)) :=
  first_live (drop i m) i.

End JSMap.

(** ** Data model *)

Record WorkspaceFolder := { folder_uri : string; folder_name : string }.

Record TextDocument := { doc_uri : string; languageId : string }.

(** Opaque handles of the host objects. *)
Definition LanguageClient := nat.
Definition Disposable := nat.
Definition Diagnostic := nat.

(** A diagnostic cache is a mutable [Map<string, Diagnostic[]>] object that
    the manager hands out by reference; [CacheRef] is its address in the
    store [caches] of all cache objects created so far. *)
Definition CacheRef := nat.
Definition Cache := gmap string (list Diagnostic).

Record ClientManager := {
  clients : JSMap.t LanguageClient;
  diagnosticCaches : JSMap.t CacheRef;
  watchers : JSMap.t (list Disposable);
  pendingStarts : gset string;
  caches : list Cache
}.

Definition new_ClientManager : ClientManager :=
  {| clients := JSMap.empty; diagnosticCaches := JSMap.empty;
     watchers := JSMap.empty; pendingStarts := ∅; caches := [] |}.

Definition with_clients (s : ClientManager) (m : JSMap.t LanguageClient) :=
  {| clients := m; diagnosticCaches := diagnosticCaches s;
     watchers := watchers s; pendingStarts := pendingStarts s;
     caches := caches s |}.

Definition with_diagnosticCaches (s : ClientManager) (m : JSMap.t CacheRef) :=
  {| clients := clients s; diagnosticCaches := m;
     watchers := watchers s; pendingStarts := pendingStarts s;
     caches := caches s |}.

Definition with_watchers (s : ClientManager) (m : JSMap.t (list Disposable)) :=
  {| clients := clients s; diagnosticCaches := diagnosticCaches s;
     watchers := m; pendingStarts := pendingStarts s;
     caches := caches s |}.

Definition with_pendingStarts (s : ClientManager) (p : gset string) :=
  {| clients := clients s; diagnosticCaches := diagnosticCaches s;
     watchers := watchers s; pendingStarts := p;
     caches := caches s |}.

Definition with_caches (s : ClientManager) (h : list Cache) :=
  {| clients := clients s; diagnosticCaches := diagnosticCaches s;
     watchers := watchers s; pendingStarts := pendingStarts s;
     caches := h |}.

(** The host workspace API the class reads: [workspace.textDocuments] and
    [workspace.getWorkspaceFolder]. *)
Record Workspace := {
  textDocuments : list TextDocument;
  getWorkspaceFolder : string -> option WorkspaceFolder
}.

(** An awaited promise either resolves with a value or rejects; [error] is
    the rendering [String(error)] of the thrown value. *)
Inductive result (A : Type) : Type :=
| Resolved (a : A)
| Rejected (error : string).
Arguments Resolved {A} a.
Arguments Rejected {A} error.

(** Collaborator invocations, in the order they happen.  [log],
    [onStatusUpdate] and [dispose] are synchronous sinks: the class uses
    nothing they return, and they are taken not to throw and not to call
    back into the manager.  [onError] is awaited, and the promise it
    returns may reject. *)
Inductive Event :=
| Log (message : string)
| ShouldEnableForFolder (folder : WorkspaceFolder)
| CreateClient (folder : WorkspaceFolder)
| ClientStart (client : LanguageClient)
| ClientStop (client : LanguageClient)
| SendDidOpen (client : LanguageClient) (document : TextDocument)
| OnError (message : string) (folder : WorkspaceFolder)
| OnStatusUpdate
| Dispose (d : Disposable).

(** What the awaited calls settle to in a run without interleaving, and
    the synchronous language predicate of [ClientManagerOptions]. *)
Record ClientManagerOptions := {
  shouldEnableForFolder : WorkspaceFolder -> result bool;
  createClient : WorkspaceFolder -> result (option LanguageClient);
  onError : string -> WorkspaceFolder -> result unit;
  supportedLanguage : string -> bool;
  start : LanguageClient -> result unit;
  stop : LanguageClient -> result unit;
  sendNotification : LanguageClient -> TextDocument -> result unit
}.

(** The double quote of the template literals. *)
Definition dq : string := String (Ascii.ascii_of_nat 34) EmptyString.

Definition quoted (name : string) : string := dq +:+ name +:+ dq.

Definition msg_skipping (folder : WorkspaceFolder) : string :=
  "Skipping workspace folder " +:+ quoted (folder_name folder)
    +:+ " - extension disabled or not applicable".

Definition msg_started (folder : WorkspaceFolder) : string :=
  "Language server started for " +:+ quoted (folder_name folder).

Definition msg_failed_log (folder : WorkspaceFolder) (error : string) : string :=
  "Failed to start language server for " +:+ quoted (folder_name folder)
    +:+ ": " +:+ error.

Definition msg_failed (folder : WorkspaceFolder) : string :=
  "Failed to start Standard Ruby Language Server for "
    +:+ quoted (folder_name folder).

Definition msg_stopping (folder : WorkspaceFolder) : string :=
  "Stopping language server for " +:+ quoted (folder_name folder) +:+ "...".

Definition msg_stopping_all : string := "Stopping all language servers...".

(** ** Synchronous methods *)

Definition getFolderKey (folder : WorkspaceFolder) : string := folder_uri folder.

Definition getClient (ws : Workspace) (s : ClientManager) (document : TextDocument)
  : option LanguageClient :=
  match getWorkspaceFolder ws (doc_uri document) with
  | None => None
  | Some folder => JSMap.get (clients s) (getFolderKey folder)
  end.

Definition getFirstClient (s : ClientManager) : option LanguageClient :=
  match JSMap.next (clients s) 0 with
  | Some (_, (_, c)) => Some c
  | None => None
  end.

Definition size (s : ClientManager) : nat := JSMap.size (clients s).

Definition getDiagnostics (ws : Workspace) (s : ClientManager)
    (document : TextDocument) : option (list Diagnostic) :=
  match getWorkspaceFolder ws (doc_uri document) with
  | None => None
  | Some folder =>
      match JSMap.get (diagnosticCaches s) (getFolderKey folder) with
      | None => None
      | Some r =>
          match caches s !! r with
          | None => None
          | Some cache => cache !! doc_uri document
          end
      end
  end.

(** [new Map()]: a fresh empty cache object at the next free address. *)
Definition new_cache (s : ClientManager) : CacheRef * ClientManager :=
  (length (caches s), with_caches s (caches s ++ [∅])).

Definition getDiagnosticCacheForFolder (folder : WorkspaceFolder)
    (s : ClientManager) : CacheRef * ClientManager :=
  let key := getFolderKey folder in
  match JSMap.get (diagnosticCaches s) key with
  | Some cache => (cache, s)
  | None =>
      let '(cache, s1) := new_cache s in
      (cache, with_diagnosticCaches s1 (JSMap.set (diagnosticCaches s1) key cache))
  end.

Definition registerWatchers (folder : WorkspaceFolder)
    (watcherDisposables : list Disposable) (s : ClientManager) : ClientManager :=
  with_watchers s (JSMap.set (watchers s) (getFolderKey folder) watcherDisposables).

Definition cleanupWatchers (key : string) (s : ClientManager)
  : ClientManager * list Event :=
  match JSMap.get (watchers s) key with
  | Some watcherList =>
      (with_watchers s (JSMap.delete (watchers s) key), Dispose <$> watcherList)
  | None => (s, [])
  end.

(** The [for ... of this.watchers] loop of [cleanupAllWatchers]: [pos] is
    the iterator position; [fuel] bounds the number of iterations and
    [length m] always suffices (lemma [watchers_loop_exhausts]). *)
Fixpoint watchers_loop (fuel : nat) (m : JSMap.t (list Disposable)) (pos : nat)
  : JSMap.t (list Disposable) * list Event :=
  match fuel with
  | 0 => (m, [])
  | S fuel' =>
      match JSMap.next m pos with
      | None => (m, [])
      | Some (pos', (key, watcherList)) =>
          let '(m', evs) := watchers_loop fuel' (JSMap.delete m key) pos' in
          (m', (Dispose <$> watcherList) ++ evs)
      end
  end.

Definition cleanupAllWatchers (s : ClientManager) : ClientManager * list Event :=
  let '(m, evs) := watchers_loop (length (watchers s)) (watchers s) 0 in
  (with_watchers s m, evs).

(** ** Asynchronous methods

    A suspended invocation is a continuation [Cont]: the [await] at which it
    waits together with the local variables the rest of the body reads. *)
Inductive Cont :=
| StartEnable (folder : WorkspaceFolder)
    (* startForFolder: await this.options.shouldEnableForFolder(folder) *)
| StartCreate (folder : WorkspaceFolder)
    (* startForFolder: await this.options.createClient(folder) *)
| StartHandshake (client : LanguageClient) (folder : WorkspaceFolder)
    (* startForFolder: await client.start() *)
| StartSend (client : LanguageClient) (folder : WorkspaceFolder)
    (document : TextDocument) (rest : list TextDocument)
    (* syncOpenDocuments: await client.sendNotification(...) for [document];
       [rest] is what the for-of loop has still to visit *)
| StartSyncJoin (client : LanguageClient) (folder : WorkspaceFolder)
    (settled : result unit)
    (* afterStart: await this.syncOpenDocuments(client, folder), whose
       promise has settled with [settled] *)
| StartAfterJoin (folder : WorkspaceFolder) (settled : result unit)
    (* startForFolder: await this.afterStart(client, folder), whose promise
       has settled with [settled] *)
| StartOnError (folder : WorkspaceFolder)
    (* startForFolder, catch block: await this.options.onError(...) *)
| StopHandshake (folder : WorkspaceFolder) (client : LanguageClient)
    (* stopForFolder: await client.stop() *)
| StopAllHandshake (pos : nat) (key : string) (client : LanguageClient)
    (* stopAll: await client.stop() for the record [key, client]; [pos] is
       the position of the map iterator *)
| NotifySend (client : LanguageClient) (document : TextDocument)
    (* notifyDocumentOpenIfNeeded: await client.sendNotification(...) *).

(** [Done r]: the promise returned by the async method has settled. *)
Inductive Task :=
| Done (r : result unit)
| Await (k : Cont).

(** One atomic stretch of execution: the state it leaves, what it invoked,
    and where the invocation stands. *)
Record Step := { st : ClientManager; out : list Event; task : Task }.

(** The type of the value the awaited promise resolves with. *)
Definition answer (k : Cont) : Type :=
  match k with
  | StartEnable _ => bool
  | StartCreate _ => option LanguageClient
  | _ => unit
  end.

Definition returned (s : ClientManager) (evs : list Event) : Step :=
  {| st := s; out := evs; task := Done (Resolved tt) |}.

Definition threw (s : ClientManager) (evs : list Event) (error : string) : Step :=
  {| st := s; out := evs; task := Done (Rejected error) |}.

Definition suspended (s : ClientManager) (evs : list Event) (k : Cont) : Step :=
  {| st := s; out := evs; task := Await k |}.

(** *** startForFolder *)

(** [finally { this.pendingStarts.delete(key) }] *)
Definition startForFolder_finally (folder : WorkspaceFolder) (s : ClientManager)
  : ClientManager :=
  with_pendingStarts s (pendingStarts s ∖ {[getFolderKey folder]}).

(** The [catch (error)] block, up to its [await this.options.onError(...)]. *)
Definition startForFolder_catch (folder : WorkspaceFolder) (error : string)
    (s : ClientManager) : Step :=
  let key := getFolderKey folder in
  let s1 := with_clients s (JSMap.delete (clients s) key) in
  let '(s2, disposed) := cleanupWatchers key s1 in
  suspended s2
    (disposed ++ [Log (msg_failed_log folder error);
                  OnError (msg_failed folder) folder])
    (StartOnError folder).

(** Entry: the two guards, the synchronous [pendingStarts.add(key)] and the
    call of the enablement predicate, at whose [await] the method suspends. *)
Definition startForFolder (folder : WorkspaceFolder) (s : ClientManager) : Step :=
  let key := getFolderKey folder in
  if JSMap.has (clients s) key then returned s []
  else if bool_decide (key ∈ pendingStarts s) then returned s []
  else suspended (with_pendingStarts s ({[key]} ∪ pendingStarts s))
         [ShouldEnableForFolder folder] (StartEnable folder).

(** The [for (const doc of workspace.textDocuments)] loop of
    [syncOpenDocuments], from the documents still to visit up to the next
    [await] or to the end of the loop. *)
Fixpoint syncOpenDocuments (opts : ClientManagerOptions) (ws : Workspace)
    (client : LanguageClient) (folder : WorkspaceFolder)
    (docs : list TextDocument) : Cont * list Event :=
  match docs with
  | [] => (StartSyncJoin client folder (Resolved tt), [])
  | doc :: rest =>
      if supportedLanguage opts (languageId doc) then
        match getWorkspaceFolder ws (doc_uri doc) with
        | Some docFolder =>
            if decide (getFolderKey docFolder = getFolderKey folder) then
              (StartSend client folder doc rest, [SendDidOpen client doc])
            else syncOpenDocuments opts ws client folder rest
        | None => syncOpenDocuments opts ws client folder rest
        end
      else syncOpenDocuments opts ws client folder rest
  end.

(** [afterStart], up to the first suspension inside [syncOpenDocuments]. *)
Definition afterStart (opts : ClientManagerOptions) (ws : Workspace)
    (client : LanguageClient) (folder : WorkspaceFolder) (s : ClientManager)
  : Step :=
  let '(cache, s1) := new_cache s in
  let s2 := with_diagnosticCaches s1
              (JSMap.set (diagnosticCaches s1) (getFolderKey folder) cache) in
  let '(k, sent) := syncOpenDocuments opts ws client folder (textDocuments ws) in
  suspended s2 sent k.

(** *** stopForFolder, stopAll, notifyDocumentOpenIfNeeded *)

Definition stopForFolder (folder : WorkspaceFolder) (s : ClientManager) : Step :=
  match JSMap.get (clients s) (getFolderKey folder) with
  | None => returned s []
  | Some client =>
      suspended s [Log (msg_stopping folder); ClientStop client]
        (StopHandshake folder client)
  end.

(** The two statements after the loop of [stopAll]:
    [this.diagnosticCaches.clear()] and [this.cleanupAllWatchers()]. *)
Definition stopAll_finish (s : ClientManager) : Step :=
  let s1 := with_diagnosticCaches s (JSMap.clear (diagnosticCaches s)) in
  let '(s2, disposed) := cleanupAllWatchers s1 in
  returned s2 disposed.

(** The [for (const [key, client] of this.clients)] loop of [stopAll] from
    iterator position [pos], up to the next [await] or to the end of the
    method. *)
Definition stopAll_loop (s : ClientManager) (pos : nat) : Step :=
  match JSMap.next (clients s) pos with
  | Some (pos', (key, client)) =>
      suspended s [ClientStop client] (StopAllHandshake pos' key client)
  | None => stopAll_finish s
  end.

Definition stopAll (s : ClientManager) : Step :=
  let x := stopAll_loop s 0 in
  {| st := st x; out := Log msg_stopping_all :: out x; task := task x |}.

(** [cache.has(uri)] on the cache object at [r]. *)
Definition cache_has (s : ClientManager) (r : CacheRef) (uri : string) : bool :=
  match caches s !! r with
  | Some cache => bool_decide (is_Some (cache !! uri))
  | None => false
  end.

Definition notifyDocumentOpenIfNeeded (opts : ClientManagerOptions)
    (ws : Workspace) (document : TextDocument) (s : ClientManager) : Step :=
  if negb (supportedLanguage opts (languageId document)) then returned s []
  else
    match getWorkspaceFolder ws (doc_uri document) with
    | None => returned s []
    | Some folder =>
        match JSMap.get (clients s) (getFolderKey folder) with
        | None => returned s []
        | Some client =>
            let '(cache, s1) := getDiagnosticCacheForFolder folder s in
            if cache_has s1 cache (doc_uri document) then returned s1 []
            else suspended s1 [SendDidOpen client document]
                   (NotifySend client document)
        end
    end.

(** *** Resumption

    [resume opts ws k r s]: the invocation suspended at [k] is resumed in
    state [s] with the outcome [r] of the promise it awaited, and runs to
    its next suspension or to its end. *)
Definition resume (opts : ClientManagerOptions) (ws : Workspace) (k : Cont)
  : result (answer k) -> ClientManager -> Step :=
  match k return result (answer k) -> ClientManager -> Step with
  | StartEnable folder => fun r s =>
      match r with
      | Resolved true => suspended s [CreateClient folder] (StartCreate folder)
      | Resolved false =>
          returned (startForFolder_finally folder s) [Log (msg_skipping folder)]
      | Rejected error => startForFolder_catch folder error s
      end
  | StartCreate folder => fun r s =>
      match r with
      | Resolved (Some client) =>
          suspended
            (with_clients s (JSMap.set (clients s) (getFolderKey folder) client))
            [ClientStart client] (StartHandshake client folder)
      | Resolved None => returned (startForFolder_finally folder s) []
      | Rejected error => startForFolder_catch folder error s
      end
  | StartHandshake client folder => fun r s =>
      match r with
      | Resolved _ => afterStart opts ws client folder s
      | Rejected error => startForFolder_catch folder error s
      end
  | StartSend client folder _ rest => fun r s =>
      match r with
      | Resolved _ =>
          let '(k', sent) := syncOpenDocuments opts ws client folder rest in
          suspended s sent k'
      | Rejected error =>
          suspended s [] (StartSyncJoin client folder (Rejected error))
      end
  | StartSyncJoin client folder settled => fun _ s =>
      match settled with
      | Resolved _ =>
          suspended s [OnStatusUpdate] (StartAfterJoin folder (Resolved tt))
      | Rejected error =>
          suspended s [] (StartAfterJoin folder (Rejected error))
      end
  | StartAfterJoin folder settled => fun _ s =>
      match settled with
      | Resolved _ =>
          returned (startForFolder_finally folder s) [Log (msg_started folder)]
      | Rejected error => startForFolder_catch folder error s
      end
  | StartOnError folder => fun r s =>
      match r with
      | Resolved _ => returned (startForFolder_finally folder s) []
      | Rejected error => threw (startForFolder_finally folder s) [] error
      end
  | StopHandshake folder client => fun r s =>
      match r with
      | Resolved _ =>
          let key := getFolderKey folder in
          let s1 := with_clients s (JSMap.delete (clients s) key) in
          let s2 := with_diagnosticCaches s1
                      (JSMap.delete (diagnosticCaches s1) key) in
          let '(s3, disposed) := cleanupWatchers key s2 in
          returned s3 disposed
      | Rejected error => threw s [] error
      end
  | StopAllHandshake pos key client => fun r s =>
      match r with
      | Resolved _ =>
          stopAll_loop (with_clients s (JSMap.delete (clients s) key)) pos
      | Rejected error => threw s [] error
      end
  | NotifySend client document => fun r s =>
      match r with
      | Resolved _ => returned s []
      | Rejected error => threw s [] error
      end
  end.

(** ** Runs without interleaving

    [settle opts k]: what the promise awaited at [k] settles to.  The
    collaborators, the error callback included, answer as [opts]
    dictates; the promises of the class's own async helpers resolve. *)
Definition settle (opts : ClientManagerOptions) (k : Cont) : result (answer k) :=
  match k return result (answer k) with
  | StartEnable folder => shouldEnableForFolder opts folder
  | StartCreate folder => createClient opts folder
  | StartHandshake client _ => start opts client
  | StartSend client _ document _ => sendNotification opts client document
  | StartSyncJoin _ _ _ => Resolved tt
  | StartAfterJoin _ _ => Resolved tt
  | StartOnError folder => onError opts (msg_failed folder) folder
  | StopHandshake _ client => stop opts client
  | StopAllHandshake _ _ client => stop opts client
  | NotifySend client document => sendNotification opts client document
  end.

(** Resume the invocation at most [fuel] times, accumulating what it
    invokes. *)
Fixpoint run (opts : ClientManagerOptions) (ws : Workspace) (fuel : nat)
    (x : Step) : Step :=
  match fuel with
  | 0 => x
  | S fuel' =>
      match task x with
      | Done _ => x
      | Await k =>
          let y := resume opts ws k (settle opts k) (st x) in
          run opts ws fuel' {| st := st y; out := out x ++ out y; task := task y |}
      end
  end.

(** [await manager.startForFolder(folder)] with nothing else running: the
    body suspends at most once per open document and six times besides. *)
Definition await_startForFolder (opts : ClientManagerOptions) (ws : Workspace)
    (folder : WorkspaceFolder) (s : ClientManager) : Step :=
  run opts ws (length (textDocuments ws) + 6) (startForFolder folder s).

Definition await_stopForFolder (opts : ClientManagerOptions) (ws : Workspace)
    (folder : WorkspaceFolder) (s : ClientManager) : Step :=
  run opts ws 1 (stopForFolder folder s).

(** [stopAll] suspends at most once per record of the clients map. *)
Definition await_stopAll (opts : ClientManagerOptions) (ws : Workspace)
    (s : ClientManager) : Step :=
  run opts ws (length (clients s)) (stopAll s).

Definition await_notifyDocumentOpenIfNeeded (opts : ClientManagerOptions)
    (ws : Workspace) (document : TextDocument) (s : ClientManager) : Step :=
  run opts ws 1 (notifyDocumentOpenIfNeeded opts ws document s).

(** ** Interleaved executions

    Between two suspension points the host may start any further call or
    resume any suspended invocation, with whatever outcome its awaited
    promise has.  [startAll], [restartAll] and the workspace-folder listener
    touch the manager only through the calls below, so their effect on it is
    an interleaving of these. *)
Inductive Call :=
| CallStartForFolder (folder : WorkspaceFolder)
| CallStopForFolder (folder : WorkspaceFolder)
| CallStopAll
| CallNotifyDocumentOpenIfNeeded (document : TextDocument)
| CallGetDiagnosticCacheForFolder (folder : WorkspaceFolder)
| CallRegisterWatchers (folder : WorkspaceFolder) (ds : list Disposable)
| CallCacheSet (cache : CacheRef) (uri : string) (diagnostics : list Diagnostic).

(** [diagnosticCache.set(uri, diagnostics)] by the holder of a cache
    reference (the [handleDiagnostics] middleware of the extension). *)
Definition cache_set (cache : CacheRef) (uri : string)
    (diagnostics : list Diagnostic) (s : ClientManager) : ClientManager :=
  match caches s !! cache with
  | Some c => with_caches s (<[cache := <[uri := diagnostics]> c]> (caches s))
  | None => s
  end.

Definition invoke (opts : ClientManagerOptions) (ws : Workspace) (c : Call)
    (s : ClientManager) : Step :=
  match c with
  | CallStartForFolder folder => startForFolder folder s
  | CallStopForFolder folder => stopForFolder folder s
  | CallStopAll => stopAll s
  | CallNotifyDocumentOpenIfNeeded document =>
      notifyDocumentOpenIfNeeded opts ws document s
  | CallGetDiagnosticCacheForFolder folder =>
      returned (getDiagnosticCacheForFolder folder s).2 []
  | CallRegisterWatchers folder ds => returned (registerWatchers folder ds s) []
  | CallCacheSet cache uri diagnostics =>
      returned (cache_set cache uri diagnostics s) []
  end.

Record System := {
  manager : ClientManager;
  tasks : list Cont;
  trace : list Event
}.

Definition initial : System :=
  {| manager := new_ClientManager; tasks := []; trace := [] |}.

Definition still_suspended (t : Task) : list Cont :=
  match t with
  | Await k => [k]
  | Done _ => []
  end.

(** The system after the atomic stretch [x], run by an invocation that
    sits between the suspended invocations [before] and [after]. *)
Definition advance (sys : System) (before after : list Cont) (x : Step) : System :=
  {| manager := st x;
     tasks := before ++ still_suspended (task x) ++ after;
     trace := trace sys ++ out x |}.

Inductive sys_step (opts : ClientManagerOptions) : System -> System -> Prop :=
| sys_call (ws : Workspace) (c : Call) (sys : System) :
    sys_step opts sys (advance sys [] (tasks sys) (invoke opts ws c (manager sys)))
| sys_resume (ws : Workspace) (before : list Cont) (k : Cont) (after : list Cont)
    (r : result (answer k)) (sys : System) :
    tasks sys = before ++ k :: after ->
    sys_step opts sys (advance sys before after (resume opts ws k r (manager sys))).

Definition reachable (opts : ClientManagerOptions) (sys : System) : Prop :=
  rtc (sys_step opts) initial sys.

(** The key whose start attempt the suspended invocation is. *)
Definition attempt_key (k : Cont) : option string :=
  match k with
  | StartEnable folder
  | StartCreate folder
  | StartHandshake _ folder
  | StartSend _ folder _ _
  | StartSyncJoin _ folder _
  | StartAfterJoin folder _
  | StartOnError folder => Some (getFolderKey folder)
  | StopHandshake _ _ | StopAllHandshake _ _ _ | NotifySend _ _ => None
  end.

(** The keys of the start attempts in flight, one entry per attempt. *)
Definition in_flight (sys : System) : list string := omap attempt_key (tasks sys).

(** ** Observations used in the statements *)

Definition wf_map {V} (m : JSMap.t V) : Prop := NoDup (JSMap.live m).*1.

Definition wf (s : ClientManager) : Prop :=
  wf_map (clients s) /\ wf_map (diagnosticCaches s) /\ wf_map (watchers s)
  /\ forall key r, JSMap.get (diagnosticCaches s) key = Some r -> r < length (caches s).

Definition is_CreateClient (e : Event) : bool :=
  match e with CreateClient _ => true | _ => false end.

Definition is_OnError (e : Event) : bool :=
  match e with OnError _ _ => true | _ => false end.

Definition is_SendDidOpen (e : Event) : bool :=
  match e with SendDidOpen _ _ => true | _ => false end.

Definition is_ClientStop (e : Event) : bool :=
  match e with ClientStop _ => true | _ => false end.

Definition count (p : Event -> bool) (evs : list Event) : nat :=
  length (filter (fun e => p e = true) evs).

(** [contains msg name]: [name] occurs in [msg]. *)
Definition contains (msg name : string) : Prop :=
  exists pre post, msg = pre +:+ name +:+ post.

(** The cache object registered for [key], if any. *)
Definition cache_of (s : ClientManager) (key : string) : option Cache :=
  match JSMap.get (diagnosticCaches s) key with
  | Some r => caches s !! r
  | None => None
  end.

(** The documents [syncOpenDocuments] is to notify: the open documents in a
    supported language whose workspace folder has the key of [folder]. *)
Definition owned_by (opts : ClientManagerOptions) (ws : Workspace)
    (folder : WorkspaceFolder) (doc : TextDocument) : bool :=
  supportedLanguage opts (languageId doc) &&
  match getWorkspaceFolder ws (doc_uri doc) with
  | Some docFolder => bool_decide (getFolderKey docFolder = getFolderKey folder)
  | None => false
  end.

(** The step [x] with [acc] already invoked before it. *)
Definition with_out (acc : list Event) (x : Step) : Step :=
  {| st := st x; out := acc ++ out x; task := task x |}.

(** Sending to [docs] in order until a send is rejected: the documents a
    notification was sent for, and the error of the rejected send. *)
Fixpoint send_all (opts : ClientManagerOptions) (client : LanguageClient)
    (docs : list TextDocument) : list TextDocument * option string :=
  match docs with
  | [] => ([], None)
  | doc :: rest =>
      match sendNotification opts client doc with
      | Resolved _ =>
          let '(sent, failure) := send_all opts client rest in (doc :: sent, failure)
      | Rejected error => ([doc], Some error)
      end
  end.

(** What the [catch] block and the [finally] block leave, once the error
    callback has resolved. *)
Definition rolled_back (folder : WorkspaceFolder) (s : ClientManager)
  : ClientManager :=
  startForFolder_finally folder
    (cleanupWatchers (getFolderKey folder)
       (with_clients s (JSMap.delete (clients s) (getFolderKey folder)))).1.

Definition rollback_events (folder : WorkspaceFolder) (error : string)
    (s : ClientManager) : list Event :=
  (cleanupWatchers (getFolderKey folder)
     (with_clients s (JSMap.delete (clients s) (getFolderKey folder)))).2
  ++ [Log (msg_failed_log folder error); OnError (msg_failed folder) folder].

(** ** Direct reading of the methods

    The same methods read top to bottom, every [await] answered at once as
    [opts] dictates.  These are not further models of the code: lemmas
    [await_startForFolder_direct] and [await_stopAll_snapshot] prove that
    the runs of the suspension machine compute exactly these. *)

(** The [try] block of [startForFolder]: the state it reaches, what it
    invoked, and the error it threw, if any. *)
Definition startForFolder_try (opts : ClientManagerOptions) (ws : Workspace)
    (folder : WorkspaceFolder) (s0 : ClientManager)
  : ClientManager * list Event * option string :=
  let key := getFolderKey folder in
  match shouldEnableForFolder opts folder with
  | Rejected error => (s0, [ShouldEnableForFolder folder], Some error)
  | Resolved false =>
      (s0, [ShouldEnableForFolder folder; Log (msg_skipping folder)], None)
  | Resolved true =>
      let called := [ShouldEnableForFolder folder; CreateClient folder] in
      match createClient opts folder with
      | Rejected error => (s0, called, Some error)
      | Resolved None => (s0, called, None)
      | Resolved (Some client) =>
          let s1 := with_clients s0 (JSMap.set (clients s0) key client) in
          match start opts client with
          | Rejected error => (s1, called ++ [ClientStart client], Some error)
          | Resolved _ =>
              let '(cache, s2) := new_cache s1 in
              let s3 := with_diagnosticCaches s2
                          (JSMap.set (diagnosticCaches s2) key cache) in
              let owned := filter (fun d => owned_by opts ws folder d = true)
                             (textDocuments ws) in
              match send_all opts client owned with
              | (notified, None) =>
                  (s3, called ++ [ClientStart client]
                         ++ (SendDidOpen client <$> notified)
                         ++ [OnStatusUpdate; Log (msg_started folder)], None)
              | (notified, Some error) =>
                  (s3, called ++ [ClientStart client]
                         ++ (SendDidOpen client <$> notified), Some error)
              end
          end
      end
  end.

(** How a failed start ends: [await this.options.onError(...)] is the last
    statement of the [catch] block, so the method returns when the error
    callback resolves and rejects with the callback's error when it
    rejects. *)
Definition reported (opts : ClientManagerOptions) (folder : WorkspaceFolder)
    (s : ClientManager) (evs : list Event) : Step :=
  match onError opts (msg_failed folder) folder with
  | Resolved _ => returned s evs
  | Rejected error => threw s evs error
  end.

Definition startForFolder_direct (opts : ClientManagerOptions) (ws : Workspace)
    (folder : WorkspaceFolder) (s : ClientManager) : Step :=
  let key := getFolderKey folder in
  if JSMap.has (clients s) key then returned s []
  else if bool_decide (key ∈ pendingStarts s) then returned s []
  else
    let s0 := with_pendingStarts s ({[key]} ∪ pendingStarts s) in
    match startForFolder_try opts ws folder s0 with
    | (s1, evs, None) => returned (startForFolder_finally folder s1) evs
    | (s1, evs, Some error) =>
        reported opts folder (rolled_back folder s1)
          (evs ++ rollback_events folder error s1)
    end.

(** [stopAll] as the specification words it: the records registered at
    entry are snapshotted, and the snapshot is walked. *)
Fixpoint stop_each (opts : ClientManagerOptions)
    (snapshot : list (string * LanguageClient)) (s : ClientManager)
  : ClientManager * list Event * option string :=
  match snapshot with
  | [] => (s, [], None)
  | (key, client) :: rest =>
      match stop opts client with
      | Resolved _ =>
          let '(s', evs, failure) :=
            stop_each opts rest (with_clients s (JSMap.delete (clients s) key)) in
          (s', ClientStop client :: evs, failure)
      | Rejected error => (s, [ClientStop client], Some error)
      end
  end.

Definition stopAll_snapshot (opts : ClientManagerOptions) (s : ClientManager)
  : Step :=
  match stop_each opts (JSMap.live (clients s)) s with
  | (s', evs, None) => with_out (Log msg_stopping_all :: evs) (stopAll_finish s')
  | (s', evs, Some error) => threw s' (Log msg_stopping_all :: evs) error
  end.

(** The single-flight invariant: the start attempts in flight are for
    distinct keys, and these are exactly the keys in the guard set. *)
Definition single_flight (sys : System) : Prop :=
  NoDup (in_flight sys)
  /\ forall key, key ∈ pendingStarts (manager sys) <-> key ∈ in_flight sys.

Definition is_Dispose (e : Event) : bool :=
  match e with Dispose _ => true | _ => false end.

(** Collaborator calls a start attempt makes before it can fail. *)
Definition is_start_call (e : Event) : bool :=
  match e with
  | ShouldEnableForFolder _ | CreateClient _ | ClientStart _ => true
  | _ => false
  end.

(** ** Concrete scenarios *)
Module Scenario.

Definition railsApp : WorkspaceFolder :=
  {| folder_uri := "file:///ws/rails-app"; folder_name := "rails-app" |}.

Definition cliTool : WorkspaceFolder :=
  {| folder_uri := "file:///ws/cli-tool"; folder_name := "cli-tool" |}.

Definition user_rb : TextDocument :=
  {| doc_uri := "file:///ws/rails-app/user.rb"; languageId := "ruby" |}.

Definition post_rb : TextDocument :=
  {| doc_uri := "file:///ws/rails-app/post.rb"; languageId := "ruby" |}.

Definition main_rb : TextDocument :=
  {| doc_uri := "file:///ws/cli-tool/main.rb"; languageId := "ruby" |}.

Definition readme_md : TextDocument :=
  {| doc_uri := "file:///ws/rails-app/README.md"; languageId := "markdown" |}.

Definition scratch_rb : TextDocument :=
  {| doc_uri := "file:///tmp/scratch.rb"; languageId := "ruby" |}.

Definition host : Workspace :=
  {| textDocuments := [user_rb; main_rb; readme_md; post_rb; scratch_rb];
     getWorkspaceFolder := fun uri =>
       if String.prefix "file:///ws/rails-app/" uri then Some railsApp
       else if String.prefix "file:///ws/cli-tool/" uri then Some cliTool
       else None |}.

(** The client the factory makes for a folder. *)
Definition client_of (folder : WorkspaceFolder) : LanguageClient :=
  String.length (folder_name folder).

Definition ruby (language : string) : bool :=
  bool_decide (language = "ruby") || bool_decide (language = "gemfile").

(** Every collaborator succeeds. *)
Definition healthy : ClientManagerOptions :=
  {| shouldEnableForFolder := fun _ => Resolved true;
     createClient := fun folder => Resolved (Some (client_of folder));
     onError := fun _ _ => Resolved tt;
     supportedLanguage := ruby;
     start := fun _ => Resolved tt;
     stop := fun _ => Resolved tt;
     sendNotification := fun _ _ => Resolved tt |}.

(** The enablement predicate answers no. *)
Definition disabled : ClientManagerOptions :=
  {| shouldEnableForFolder := fun _ => Resolved false;
     createClient := createClient healthy;
     onError := onError healthy;
     supportedLanguage := ruby;
     start := start healthy; stop := stop healthy;
     sendNotification := sendNotification healthy |}.

(** The factory throws. *)
Definition factory_throws : ClientManagerOptions :=
  {| shouldEnableForFolder := fun _ => Resolved true;
     createClient := fun _ => Rejected "Error: Connection failed";
     onError := onError healthy;
     supportedLanguage := ruby;
     start := start healthy; stop := stop healthy;
     sendNotification := sendNotification healthy |}.

(** The server starts, then rejects the open notifications. *)
Definition send_rejects : ClientManagerOptions :=
  {| shouldEnableForFolder := fun _ => Resolved true;
     createClient := createClient healthy;
     onError := onError healthy;
     supportedLanguage := ruby;
     start := start healthy; stop := stop healthy;
     sendNotification := fun _ _ => Rejected "Error: connection got disposed" |}.

(** The stop handshake of the client of [cliTool] is rejected. *)
Definition stop_rejects : ClientManagerOptions :=
  {| shouldEnableForFolder := fun _ => Resolved true;
     createClient := createClient healthy;
     onError := onError healthy;
     supportedLanguage := ruby;
     start := start healthy;
     stop := fun client =>
       if bool_decide (client = client_of cliTool)
       then Rejected "Error: stop timed out" else Resolved tt;
     sendNotification := sendNotification healthy |}.

(** The factory throws, and the error callback then rejects. *)
Definition callback_rejects : ClientManagerOptions :=
  {| shouldEnableForFolder := fun _ => Resolved true;
     createClient := fun _ => Rejected "Error: Connection failed";
     onError := fun _ _ => Rejected "Error: Canceled";
     supportedLanguage := ruby;
     start := start healthy; stop := stop healthy;
     sendNotification := sendNotification healthy |}.

(** Both folders started, with watchers registered for both. *)
Definition both_running : ClientManager :=
  let s1 := st (await_startForFolder healthy host railsApp new_ClientManager) in
  let s2 := st (await_startForFolder healthy host cliTool s1) in
  registerWatchers cliTool [30; 31] (registerWatchers railsApp [20] s2).

(** A start attempt for [railsApp] suspended at the enablement check. *)
Definition starting : System :=
  advance initial [] []
    (invoke healthy host (CallStartForFolder railsApp) new_ClientManager).

(** A workspace with no open document. *)
Definition no_documents : Workspace :=
  {| textDocuments := []; getWorkspaceFolder := (fun _ => None) |}.

(** The system after watchers were registered for [cliTool] and a start
    of it ran to its end: the call, and the resumptions at the enablement
    check, the factory, the start handshake and the two joins. *)
Definition cliTool_running : System :=
  let sys1 := advance initial [] (tasks initial)
                (invoke healthy no_documents
                   (CallRegisterWatchers cliTool [30; 31]) (manager initial)) in
  let sys2 := advance sys1 [] (tasks sys1)
                (invoke healthy no_documents (CallStartForFolder cliTool)
                   (manager sys1)) in
  let sys3 := advance sys2 [] []
                (resume healthy no_documents (StartEnable cliTool)
                   (Resolved true) (manager sys2)) in
  let sys4 := advance sys3 [] []
                (resume healthy no_documents (StartCreate cliTool)
                   (Resolved (Some (client_of cliTool))) (manager sys3)) in
  let sys5 := advance sys4 [] []
                (resume healthy no_documents
                   (StartHandshake (client_of cliTool) cliTool)
                   (Resolved tt) (manager sys4)) in
  let sys6 := advance sys5 [] []
                (resume healthy no_documents
                   (StartSyncJoin (client_of cliTool) cliTool (Resolved tt))
                   (Resolved tt) (manager sys5)) in
  advance sys6 [] []
    (resume healthy no_documents (StartAfterJoin cliTool (Resolved tt))
       (Resolved tt) (manager sys6)).

End Scenario.

(** ** Proof automation *)

(** Deciding that an event does not occur in an explicit trace. *)
Ltac absent_from_trace H :=
  repeat (apply elem_of_cons in H as [H|H]; [discriminate H|]);
  by apply elem_of_nil in H.


(** * The remaining methods of the class *)

(** ** normalizePathForGlob

    [fsPath.replace(/\\/g, '/')]: every backslash becomes a forward slash.
    Strings are sequences of bytes here; the byte 92 occurs in UTF-8 only
    as the backslash itself, so the byte-wise replacement is the
    replacement on characters. *)
Definition backslash : Ascii.ascii := Ascii.ascii_of_nat 92.

Definition slash : Ascii.ascii := Ascii.ascii_of_nat 47.

Definition glob_char (c : Ascii.ascii) : Ascii.ascii :=
  if decide (c = backslash) then slash else c.

Fixpoint normalizePathForGlob (fsPath : string) : string :=
  match fsPath with
  | EmptyString => EmptyString
  | String c rest => String (glob_char c) (normalizePathForGlob rest)
  end.

(** The characters of a string, to speak about what it contains. *)
Fixpoint chars (s : string) : list Ascii.ascii :=
  match s with
  | EmptyString => []
  | String c rest => c :: chars rest
  end.

(** ** startAll, restartAll and the workspace-folder listener

    These methods only sequence the methods above.  [and_then x k] is
    [await x] followed by [k]: when the awaited invocation has resolved,
    [k] continues from the state it left; when it has rejected, the
    rejection propagates and [k] does not run. *)
Definition and_then (x : Step) (k : ClientManager -> Step) : Step :=
  match task x with
  | Done (Resolved _) => with_out (out x) (k (st x))
  | Done (Rejected _) => x
  | Await _ => x
  end.

(** [for (const folder of folders) { await this.startForFolder(folder) }] *)
Fixpoint startAll_loop (opts : ClientManagerOptions) (ws : Workspace)
    (folders : list WorkspaceFolder) (s : ClientManager) : Step :=
  match folders with
  | [] => returned s []
  | folder :: rest =>
      and_then (await_startForFolder opts ws folder s) (startAll_loop opts ws rest)
  end.

(** [startAll]; [workspaceFolders] is [workspace.workspaceFolders], which
    is undefined when no folder is open. *)
Definition await_startAll (opts : ClientManagerOptions) (ws : Workspace)
    (workspaceFolders : option (list WorkspaceFolder)) (s : ClientManager) : Step :=
  startAll_loop opts ws (default [] workspaceFolders) s.

Definition msg_restarting_all : string := "Restarting all language servers...".

Definition await_restartAll (opts : ClientManagerOptions) (ws : Workspace)
    (workspaceFolders : option (list WorkspaceFolder)) (s : ClientManager) : Step :=
  with_out [Log msg_restarting_all]
    (and_then (await_stopAll opts ws s) (await_startAll opts ws workspaceFolders)).

(** [for (const folder of event.removed) { await this.stopForFolder(folder) }] *)
Fixpoint stop_removed (opts : ClientManagerOptions) (ws : Workspace)
    (removed : list WorkspaceFolder) (s : ClientManager) : Step :=
  match removed with
  | [] => returned s []
  | folder :: rest =>
      and_then (await_stopForFolder opts ws folder s) (stop_removed opts ws rest)
  end.

(** The handler that [createWorkspaceFolderListener] registers with
    [workspace.onDidChangeWorkspaceFolders]. *)
Definition onDidChangeWorkspaceFolders (opts : ClientManagerOptions)
    (ws : Workspace) (removed added : list WorkspaceFolder) (s : ClientManager)
  : Step :=
  and_then (stop_removed opts ws removed s) (startAll_loop opts ws added).

(** ** Further observations *)

Definition is_ShouldEnableForFolder (e : Event) : bool :=
  match e with ShouldEnableForFolder _ => true | _ => false end.

(** The collaborators answer a start of [folder] without a failure and
    produce [client]. *)
Definition starts_well (opts : ClientManagerOptions) (ws : Workspace)
    (folder : WorkspaceFolder) (client : LanguageClient) : Prop :=
  shouldEnableForFolder opts folder = Resolved true
  /\ createClient opts folder = Resolved (Some client)
  /\ start opts client = Resolved tt
  /\ forall doc, doc ∈ textDocuments ws -> owned_by opts ws folder doc = true ->
       sendNotification opts client doc = Resolved tt.

(** The start of [folder] fails with [error] before any open notification:
    at the enablement check, in the factory, or at the start handshake. *)
Definition start_fails (opts : ClientManagerOptions) (folder : WorkspaceFolder)
    (error : string) : Prop :=
  shouldEnableForFolder opts folder = Rejected error
  \/ (shouldEnableForFolder opts folder = Resolved true
      /\ createClient opts folder = Rejected error)
  \/ (exists client,
        shouldEnableForFolder opts folder = Resolved true
        /\ createClient opts folder = Resolved (Some client)
        /\ start opts client = Rejected error).

(** The trace of a start that goes well. *)
Definition started_trace (opts : ClientManagerOptions) (ws : Workspace)
    (folder : WorkspaceFolder) (client : LanguageClient) : list Event :=
  [ShouldEnableForFolder folder; CreateClient folder; ClientStart client]
  ++ (SendDidOpen client <$>
        filter (fun d => owned_by opts ws folder d = true) (textDocuments ws))
  ++ [OnStatusUpdate; Log (msg_started folder)].

(** No two keys are registered with the same cache object. *)
Definition caches_apart (s : ClientManager) : Prop :=
  forall key1 key2 r,
    JSMap.get (diagnosticCaches s) key1 = Some r ->
    JSMap.get (diagnosticCaches s) key2 = Some r -> key1 = key2.

(** Resuming the invocation suspended at [k] is no business of [key]: it
    is a start attempt or a stop of another key, or a pending open
    notification.  A suspended [stopAll] spares no key. *)
Definition cont_spares (k : Cont) (key : string) : Prop :=
  match k with
  | StopHandshake folder _ => getFolderKey folder <> key
  | StopAllHandshake _ _ _ => False
  | NotifySend _ _ => True
  | _ => attempt_key k <> Some key
  end.

(** The call [c], made in state [s], is no business of [key]: it names
    another folder, a document of another folder, or a cache object other
    than the one registered for [key]. *)
Definition call_spares (ws : Workspace) (c : Call) (s : ClientManager)
    (key : string) : Prop :=
  match c with
  | CallStartForFolder folder
  | CallStopForFolder folder
  | CallGetDiagnosticCacheForFolder folder
  | CallRegisterWatchers folder _ => getFolderKey folder <> key
  | CallStopAll => False
  | CallNotifyDocumentOpenIfNeeded document =>
      match getWorkspaceFolder ws (doc_uri document) with
      | Some folder => getFolderKey folder <> key
      | None => True
      end
  | CallCacheSet cache _ _ => JSMap.get (diagnosticCaches s) key <> Some cache
  end.

(** The steps of the interleaved system that are no business of [key]. *)
Inductive step_sparing (opts : ClientManagerOptions) (key : string)
  : System -> System -> Prop :=
| spare_call (ws : Workspace) (c : Call) (sys : System) :
    call_spares ws c (manager sys) key ->
    step_sparing opts key sys
      (advance sys [] (tasks sys) (invoke opts ws c (manager sys)))
| spare_resume (ws : Workspace) (before : list Cont) (k : Cont)
    (after : list Cont) (r : result (answer k)) (sys : System) :
    tasks sys = before ++ k :: after ->
    cont_spares k key ->
    step_sparing opts key sys
      (advance sys before after (resume opts ws k r (manager sys))).

(** What the manager holds for [key]: its connection, its cache
    registration and the registered cache object, its watchers, and
    whether a start of it is guarded. *)
Definition holds_for (s : ClientManager) (key : string)
  : option LanguageClient * option CacheRef * option Cache
    * option (list Disposable) * bool :=
  (JSMap.get (clients s) key, JSMap.get (diagnosticCaches s) key,
   cache_of s key, JSMap.get (watchers s) key,
   bool_decide (key ∈ pendingStarts s)).

(** The state a start that goes well leaves: the client registered, a new
    empty cache object registered for the key, the guard released. *)
Definition started_state (folder : WorkspaceFolder) (client : LanguageClient)
    (s : ClientManager) : ClientManager :=
  {| clients := JSMap.set (clients s) (getFolderKey folder) client;
     diagnosticCaches :=
       JSMap.set (diagnosticCaches s) (getFolderKey folder) (length (caches s));
     watchers := watchers s;
     pendingStarts := pendingStarts s;
     caches := caches s ++ [∅] |}.

(** Events that only the entry of a start attempt, its rollback, or a
    stop emit. *)
Definition is_quiet (e : Event) : bool :=
  negb (is_ShouldEnableForFolder e) && negb (is_OnError e)
  && negb (is_Dispose e) && negb (is_ClientStop e).

(** * The extension module: settings, enablement and the server command

    [extension.ts] holds the functions that decide whether a folder gets a
    language server and with which command line.  Embedded here are
    [resolveCommandPath], the splitting in [buildExecutable], and the
    enablement check [shouldEnableForFolder] and [getCommand] with the
    Bundler probes they call. *)
Module Extension.

Definition dollar : Ascii.ascii := Ascii.ascii_of_nat 36.

Definition open_brace : Ascii.ascii := Ascii.ascii_of_nat 123.

Definition close_brace : Ascii.ascii := Ascii.ascii_of_nat 125.

Definition space : Ascii.ascii := Ascii.ascii_of_nat 32.

(** ** The regular expression [variablePattern]

    The pattern is a dollar sign, an opening brace, a capture group of
    any number of characters other than a closing brace, and a closing
    brace.

    [until_brace s] matches the group and the closing brace at the start
    of [s]: the greedy class takes every character before the first
    closing brace, and giving characters back cannot help, since the next
    character is then not a closing brace.  The result is the captured
    text and what follows the match. *)
Fixpoint until_brace (s : string) : option (string * string) :=
  match s with
  | EmptyString => None
  | String c rest =>
      if decide (c = close_brace) then Some (EmptyString, rest)
      else
        match until_brace rest with
        | Some (name, after) => Some (String c name, after)
        | None => None
        end
  end.

(** The pattern matched at the start of [s]. *)
Definition variable_here (s : string) : option (string * string) :=
  match s with
  | String c (String c' rest) =>
      if decide (c = dollar) then
        if decide (c' = open_brace) then until_brace rest else None
      else None
  | _ => None
  end.

(** [variablePattern.exec(s)]: the pattern has no flag, so the search
    starts at index 0 and tries each position from left to right.  The
    result is the text before the match, the capture [match[1]], and the
    text after the match. *)
Fixpoint variablePattern_exec (s : string) : option (string * string * string) :=
  match variable_here s with
  | Some (name, after) => Some (EmptyString, name, after)
  | None =>
      match s with
      | EmptyString => None
      | String c rest =>
          match variablePattern_exec rest with
          | Some (before, name, after) => Some (String c before, name, after)
          | None => None
          end
      end
  end.

(** [match[0]] of a match that captured [name]. *)
Definition match0 (name : string) : string :=
  String dollar (String open_brace (name +:+ String close_brace EmptyString)).

(** ** [String.prototype.replace] with a string pattern

    [strip_prefix p s]: [s] without its prefix [p]. *)
Fixpoint strip_prefix (p s : string) : option string :=
  match p with
  | EmptyString => Some s
  | String a p' =>
      match s with
      | EmptyString => None
      | String b s' => if decide (a = b) then strip_prefix p' s' else None
      end
  end.

(** The text before and after the first occurrence of [pattern] in [s]. *)
Fixpoint split_first (pattern s : string) : option (string * string) :=
  match strip_prefix pattern s with
  | Some after => Some (EmptyString, after)
  | None =>
      match s with
      | EmptyString => None
      | String c rest =>
          match split_first pattern rest with
          | Some (before, after) => Some (String c before, after)
          | None => None
          end
      end
  end.

(** [GetSubstitution] of ECMAScript for a string pattern (no captures):
    in the replacement text [$$] stands for a dollar sign, [$&] for the
    matched text, [$`] for the text before the match and [$'] for the text
    after it; every other character, a dollar sign included, stands for
    itself. *)
Fixpoint GetSubstitution (matched before after replacement : string) : string :=
  match replacement with
  | EmptyString => EmptyString
  | String c rest =>
      if decide (c = dollar) then
        match rest with
        | String c' rest' =>
            if decide (c' = dollar) then
              String dollar (GetSubstitution matched before after rest')
            else if decide (c' = Ascii.ascii_of_nat 38) then
              matched +:+ GetSubstitution matched before after rest'
            else if decide (c' = Ascii.ascii_of_nat 96) then
              before +:+ GetSubstitution matched before after rest'
            else if decide (c' = Ascii.ascii_of_nat 39) then
              after +:+ GetSubstitution matched before after rest'
            else String c (GetSubstitution matched before after rest)
        | EmptyString => String c EmptyString
        end
      else String c (GetSubstitution matched before after rest)
  end.

(** [s.replace(pattern, replacement)]: the first occurrence only. *)
Definition replace (s pattern replacement : string) : string :=
  match split_first pattern s with
  | Some (before, after) =>
      before +:+ GetSubstitution pattern before after replacement +:+ after
  | None => s
  end.

(** ** resolveCommandPath

    What the function reads from its environment: the setting
    [standardRuby.commandPath], [folder.uri.fsPath], [path.sep] and
    [homedir()]. *)
Record Environment := {
  commandPath : option string;
  fsPath : string;
  sep : string;
  homedir : string
}.

(** The body of the loop: the [switch] on [match[1]], which has no
    default case. *)
Definition resolve_variable (env : Environment) (customCommandPath name : string)
  : string :=
  if decide (name = "cwd") then
    replace customCommandPath (match0 name) (fsPath env)
  else if decide (name = "pathSeparator") then
    replace customCommandPath (match0 name) (sep env)
  else if decide (name = "userHome") then
    replace customCommandPath (match0 name) (homedir env)
  else customCommandPath.

(** The [for] loop, which runs while the pattern matches.  It is not
    bounded in the source; [None] says that the loop is still running
    after [fuel] iterations. *)
Fixpoint resolve_loop (env : Environment) (fuel : nat) (customCommandPath : string)
  : option string :=
  match variablePattern_exec customCommandPath with
  | None => Some customCommandPath
  | Some (_, name, _) =>
      match fuel with
      | 0 => None
      | S fuel' =>
          resolve_loop env fuel' (resolve_variable env customCommandPath name)
      end
  end.

Definition resolveCommandPath (env : Environment) (fuel : nat) : option string :=
  resolve_loop env fuel (default EmptyString (commandPath env)).

(** [hasCustomizedCommandPath] *)
Definition hasCustomizedCommandPath (env : Environment) : bool :=
  match commandPath env with
  | Some customCommandPath => bool_decide (0 < String.length customCommandPath)
  | None => false
  end.

(** ** The command line in [buildExecutable]

    [command.split(' ')]: the pieces between the spaces; the result always
    has a first piece. *)
Fixpoint split_spaces (command : string) : string * list string :=
  match command with
  | EmptyString => (EmptyString, [])
  | String c rest =>
      let '(piece, pieces) := split_spaces rest in
      if decide (c = space) then (EmptyString, piece :: pieces)
      else (String c piece, pieces)
  end.

Record Executable := {
  exe_command : string;
  exe_args : list string;
  exe_cwd : string
}.

(** [const [exe, ...args] = command.split(' ')] and the object literal
    built from them. *)
Definition executable_of (command cwd : string) : Executable :=
  let '(exe, args) := split_spaces command in
  {| exe_command := exe; exe_args := args ++ ["--lsp"]; exe_cwd := cwd |}.

(** [pieces.join(' ')] *)
Fixpoint join_spaces (first : string) (pieces : list string) : string :=
  match pieces with
  | [] => first
  | piece :: rest => first +:+ String space (join_spaces piece rest)
  end.

(** ** Templates, to state what [resolveCommandPath] computes

    A command path read as a template: texts alternating with variable
    references, and a final text. *)
Fixpoint template (parts : list (string * string)) (last : string) : string :=
  match parts with
  | [] => last
  | (text, name) :: rest => text +:+ match0 name +:+ template rest last
  end.

(** The names the [switch] knows, and what each stands for. *)
Definition value_of (env : Environment) (name : string) : option string :=
  if decide (name = "cwd") then Some (fsPath env)
  else if decide (name = "pathSeparator") then Some (sep env)
  else if decide (name = "userHome") then Some (homedir env)
  else None.

Fixpoint expansion (env : Environment) (parts : list (string * string))
    (last : string) : string :=
  match parts with
  | [] => last
  | (text, name) :: rest =>
      text +:+ default EmptyString (value_of env name) +:+ expansion env rest last
  end.

(** [c] does not occur in [s]. *)
Definition free_of (c : Ascii.ascii) (s : string) : Prop := c ∉ chars s.

(** ** Bundler probes, enablement and the command

    What the functions do to their surroundings, in order: commands run
    through [promiseExec], lines written by [log], error dialogs opened by
    [window.showErrorMessage], and what [displayError] does with the
    answer.  [restartAllLanguageServers], which [displayError] calls on
    the answer [Restart], belongs to the lifecycle code and is recorded
    here as the request. *)
Inductive Effect :=
| Exec (command cwd : string)
| LogLine (message : string)
| ErrorMessage (message : string) (actions : list string)
| OutputShown
| SettingsOpened
| RestartRequested.

(** How [promiseExec] settles: it resolves with the trimmed outputs, or
    [exec] reports an error and it rejects with an [ExecError] carrying
    the exit code (as a template literal prints it) and the trimmed
    outputs, or something else is thrown. *)
Inductive ExecOutcome :=
| ExecResolved (stdout stderr : string)
| ExecRejected (code : option string) (stdout stderr : string)
| ExecThrew.

(** The surroundings: the setting [standardRuby.mode], which is taken not
    to change during a call, what running a command in a directory gives,
    what the user answers to an error dialog, and [JSON.stringify] of the
    exec options for a working directory. *)
Record Host := {
  mode : option string;
  promiseExec : string -> string -> ExecOutcome;
  showErrorMessage : string -> list string -> option string;
  stringify_options : string -> string
}.

Inductive BundleStatus := valid | missing | bundle_errored.

Inductive StandardBundleStatus := included | excluded | standard_errored.

Definition newline : string := String (Ascii.ascii_of_nat 10) EmptyString.

(** [s.startsWith(prefix)] *)
Definition startsWith (s prefix : string) : bool :=
  bool_decide (is_Some (strip_prefix prefix s)).

(** [ExecError.log] *)
Definition ExecError_log (host : Host) (command cwd : string)
    (code : option string) (stdout stderr : string) : list Effect :=
  [LogLine ("Command `" +:+ command +:+ "` failed with exit code "
            +:+ default "?" code +:+ " (exec options: "
            +:+ stringify_options host cwd +:+ ")")]
  ++ (if bool_decide (0 < String.length stdout)
      then [LogLine ("stdout:" +:+ newline +:+ stdout)] else [])
  ++ (if bool_decide (0 < String.length stderr)
      then [LogLine ("stderr:" +:+ newline +:+ stderr)] else []).

Definition displayError (host : Host) (message : string) (actions : list string)
  : list Effect :=
  ErrorMessage message actions ::
  match showErrorMessage host message actions with
  | Some action =>
      if decide (action = "Restart") then [RestartRequested]
      else if decide (action = "Show Output") then [OutputShown]
      else if decide (action = "View Settings") then [SettingsOpened]
      else [LogLine ("Unknown action: " +:+ action)]
  | None => []
  end.

Definition displayBundlerError (host : Host) (command cwd : string)
    (code : option string) (stdout stderr : string) (folder : WorkspaceFolder)
  : list Effect :=
  ExecError_log host command cwd code stdout stderr
  ++ [LogLine ("Failed to invoke Bundler in workspace folder "
               +:+ quoted (folder_name folder)
               +:+ ". After resolving the issue, run the command "
               +:+ "`Standard Ruby: Start Language Server`")]
  ++ (if decide (mode host = Some "enableUnconditionally") then []
      else displayError host
             ("Failed to run Bundler in " +:+ quoted (folder_name folder)
              +:+ " while initializing Standard Ruby")
             ["Show Output"]).

Definition bundle_list : string := "bundle list --name-only".

Definition bundle_show : string := "bundle show standard".

Definition isValidBundlerProject (host : Host) (env : Environment)
    (folder : WorkspaceFolder) : list Effect * BundleStatus :=
  match promiseExec host bundle_list (fsPath env) with
  | ExecResolved _ _ => ([Exec bundle_list (fsPath env)], valid)
  | ExecThrew => ([Exec bundle_list (fsPath env)], bundle_errored)
  | ExecRejected code stdout stderr =>
      if startsWith stderr "Could not locate Gemfile" then
        ([Exec bundle_list (fsPath env);
          LogLine ("No Gemfile found in workspace folder "
                   +:+ quoted (folder_name folder))],
         missing)
      else
        (Exec bundle_list (fsPath env)
           :: displayBundlerError host bundle_list (fsPath env)
                code stdout stderr folder,
         bundle_errored)
  end.

Definition isInBundle (host : Host) (env : Environment)
    (folder : WorkspaceFolder) : list Effect * StandardBundleStatus :=
  match promiseExec host bundle_show (fsPath env) with
  | ExecResolved _ _ => ([Exec bundle_show (fsPath env)], included)
  | ExecThrew => ([Exec bundle_show (fsPath env)], standard_errored)
  | ExecRejected code stdout stderr =>
      if startsWith stderr "Could not locate Gemfile"
         || bool_decide (stderr = "Could not find gem 'standard'.") then
        ([Exec bundle_show (fsPath env)], excluded)
      else
        (Exec bundle_show (fsPath env)
           :: displayBundlerError host bundle_show (fsPath env)
                code stdout stderr folder,
         standard_errored)
  end.

Definition shouldEnableIfBundleIncludesStandard (host : Host)
    (env : Environment) (folder : WorkspaceFolder) : list Effect * bool :=
  let '(effects, standardStatus) := isInBundle host env folder in
  match standardStatus with
  | included => (effects, true)
  | excluded =>
      (effects ++ [LogLine ("Skipping workspace folder "
                            +:+ quoted (folder_name folder)
                            +:+ " - standard gem not in bundle")],
       false)
  | standard_errored => (effects, false)
  end.

Definition shouldEnableForFolder (host : Host) (env : Environment)
    (folder : WorkspaceFolder) : list Effect * bool :=
  if decide (mode host = Some "enableUnconditionally") then ([], true)
  else if decide (mode host = Some "enableViaGemfileOrMissingGemfile") then
    let '(effects, bundleStatus) := isValidBundlerProject host env folder in
    match bundleStatus with
    | valid =>
        let '(effects', enabled) :=
          shouldEnableIfBundleIncludesStandard host env folder in
        (effects ++ effects', enabled)
    | missing => (effects, true)
    | bundle_errored => (effects, false)
    end
  else if decide (mode host = Some "enableViaGemfile") then
    shouldEnableIfBundleIncludesStandard host env folder
  else if decide (mode host = Some "onlyRunGlobally") then ([], true)
  else if decide (mode host = Some "disable") then ([], false)
  else ([LogLine "Invalid value for standardRuby.mode"], false).

(** [getCommand]; [None] when [resolveCommandPath] is still running after
    [fuel] iterations. *)
Definition getCommand (host : Host) (env : Environment) (fuel : nat)
    (folder : WorkspaceFolder) : list Effect * option string :=
  if hasCustomizedCommandPath env then ([], resolveCommandPath env fuel)
  else if decide (mode host = Some "onlyRunGlobally") then ([], Some "standardrb")
  else
    let '(effects, standardStatus) := isInBundle host env folder in
    match standardStatus with
    | included => (effects, Some "bundle exec standardrb")
    | _ => (effects, Some "standardrb")
    end.

(** Observations on the effects. *)
Definition is_Exec (e : Effect) : bool :=
  match e with Exec _ _ => true | _ => false end.

Definition is_ErrorMessage (e : Effect) : bool :=
  match e with ErrorMessage _ _ => true | _ => false end.

(** The command succeeds in the folder. *)
Definition succeeds (host : Host) (env : Environment) (command : string) : Prop :=
  exists stdout stderr,
    promiseExec host command (fsPath env) = ExecResolved stdout stderr.

(** Bundler finds no Gemfile for the folder. *)
Definition no_Gemfile (host : Host) (env : Environment) (command : string) : Prop :=
  exists code stdout stderr,
    promiseExec host command (fsPath env) = ExecRejected code stdout stderr
    /\ startsWith stderr "Could not locate Gemfile" = true.

End Extension.

(** * Facts *)

(** ** The map operations *)
Module JSMapFacts.
Section facts.
Context {V : Type}.
Implicit Types (m : JSMap.t V) (k : string) (v : V).

Lemma get_set_eq m k v : JSMap.get (JSMap.set m k v) k = Some v.
Proof.
induction m as [|[[k' v']|] m IH]; simpl.
- by rewrite decide_True.
- destruct (decide (k' = k)) as [->|Hne]; simpl.
  + by rewrite decide_True.
  + by rewrite decide_False.
- done.
Qed.

Lemma get_set_ne m k k' v :
k ≠ k' -> JSMap.get (JSMap.set m k v) k' = JSMap.get m k'.
Proof.
intros Hne. induction m as [|[[k0 v0]|] m IH]; simpl.
- by rewrite decide_False.
- destruct (decide (k0 = k)) as [->|Hk]; simpl.
  + by rewrite !decide_False.
  + by rewrite IH.
- done.
Qed.

Lemma get_delete_eq m k : JSMap.get (JSMap.delete m k) k = None.
Proof.
induction m as [|[[k' v']|] m IH]; simpl; [done| |done].
destruct (decide (k' = k)); simpl; [done|]. by rewrite decide_False.
Qed.

Lemma get_delete_ne m k k' :
k ≠ k' -> JSMap.get (JSMap.delete m k) k' = JSMap.get m k'.
Proof.
intros Hne. induction m as [|[[k0 v0]|] m IH]; simpl; [done| |done].
destruct (decide (k0 = k)) as [->|Hk]; simpl.
- by rewrite decide_False.
- by rewrite IH.
Qed.

Lemma get_clear m k : JSMap.get (JSMap.clear m) k = None.
Proof. induction m as [|r m IH]; simpl; done. Qed.

Lemma live_clear m : JSMap.live (JSMap.clear m) = [].
Proof. induction m as [|r m IH]; simpl; done. Qed.

Lemma length_delete m k : length (JSMap.delete m k) = length m.
Proof. unfold JSMap.delete. by rewrite length_fmap. Qed.

Lemma has_true m k : JSMap.has m k = true <-> is_Some (JSMap.get m k).
Proof.
unfold JSMap.has. destruct (JSMap.get m k); split; intros H;
  try done; by destruct H.
Qed.

Lemma has_false m k : JSMap.has m k = false <-> JSMap.get m k = None.
Proof. unfold JSMap.has. by destruct (JSMap.get m k). Qed.

Lemma live_cons_Some e m : JSMap.live (Some e :: m) = e :: JSMap.live m.
Proof. done. Qed.

Lemma live_cons_None m : JSMap.live (None :: m) = JSMap.live m.
Proof. done. Qed.

(** [get] finds exactly the keys of the visible records. *)
Lemma get_None_live m k : JSMap.get m k = None <-> k ∉ (JSMap.live m).*1.
Proof.
induction m as [|[[k' v']|] m IH]; simpl.
- split; [intros _; apply not_elem_of_nil | done].
- rewrite not_elem_of_cons. destruct (decide (k' = k)) as [->|Hne].
  + split; [done | by intros [? _]].
  + rewrite IH. split; [intros ?; split; [congruence | done] | by intros [_ ?]].
- done.
Qed.

Lemma get_Some_live m k v : JSMap.get m k = Some v -> (k, v) ∈ JSMap.live m.
Proof.
induction m as [|[[k' v']|] m IH]; simpl; [done| |done].
destruct (decide (k' = k)) as [->|Hne].
- intros [= ->]. apply list_elem_of_here.
- intros H. apply list_elem_of_further. by apply IH.
Qed.

Lemma live_get_wf m k v :
wf_map m -> (k, v) ∈ JSMap.live m -> JSMap.get m k = Some v.
Proof.
unfold wf_map. induction m as [|[[k' v']|] m IH]; simpl.
- intros _ H. by apply elem_of_nil in H.
- rewrite NoDup_cons. intros [Hnot Hnd] Hin.
  apply elem_of_cons in Hin as [[= <- <-]|Hin].
  + by rewrite decide_True.
  + rewrite decide_False; [by apply IH|].
    intros ->. apply Hnot. apply list_elem_of_fmap. by exists (k, v).
- done.
Qed.

(** Deleting a key no record holds changes nothing. *)
Lemma delete_absent m k : JSMap.get m k = None -> JSMap.delete m k = m.
Proof.
induction m as [|[[k' v']|] m IH]; simpl; [done| |].
- destruct (decide (k' = k)); [done|]. intros H.
  unfold JSMap.delete in *. by rewrite IH.
- intros H. unfold JSMap.delete in *. by rewrite IH.
Qed.

Lemma live_set_absent m k v :
JSMap.get m k = None -> JSMap.live (JSMap.set m k v) = JSMap.live m ++ [(k, v)].
Proof.
induction m as [|[[k' v']|] m IH]; intros H; [done| |].
- simpl in H. change (JSMap.set (Some (k', v') :: m) k v)
    with (if decide (k' = k) then Some (k', v) :: m
          else Some (k', v') :: JSMap.set m k v).
  destruct (decide (k' = k)); [done|].
  by rewrite !live_cons_Some, IH.
- change (JSMap.set (None :: m) k v) with (None :: JSMap.set m k v).
  by rewrite !live_cons_None, IH.
Qed.

Lemma live_delete m k :
JSMap.live (JSMap.delete m k) = filter (fun e => e.1 ≠ k) (JSMap.live m).
Proof.
induction m as [|[[k' v']|] m IH]; [done| |].
- unfold JSMap.delete in *. rewrite fmap_cons, live_cons_Some.
  unfold JSMap.wipe at 1.
  destruct (decide (k' = k)) as [->|Hne].
  + rewrite live_cons_None, filter_cons_False; [done | simpl; by intros ?].
  + rewrite live_cons_Some, filter_cons_True by done. by rewrite IH.
- unfold JSMap.delete in *. by rewrite fmap_cons, !live_cons_None.
Qed.

(** Registering a key that was absent and deleting it again leaves the
  visible records as they were. *)
Lemma live_delete_set_absent m k v :
JSMap.get m k = None ->
JSMap.live (JSMap.delete (JSMap.set m k v) k) = JSMap.live m.
Proof.
intros H. rewrite live_delete, live_set_absent by done.
rewrite filter_app. rewrite filter_cons_False by (simpl; by intros ?).
rewrite filter_nil, app_nil_r.
apply get_None_live in H.
induction (JSMap.live m) as [|[k' v'] l IH]; [done|].
simpl in H. apply not_elem_of_cons in H as [Hne Hl].
rewrite filter_cons_True by (simpl; congruence). by rewrite IH.
Qed.

Lemma keys_set m k v :
(JSMap.live (JSMap.set m k v)).*1 =
if JSMap.has m k then (JSMap.live m).*1 else (JSMap.live m).*1 ++ [k].
Proof.
unfold JSMap.has. induction m as [|[[k' v']|] m IH]; simpl; [done| |done].
destruct (decide (k' = k)) as [->|Hne]; [done|].
rewrite !live_cons_Some, !fmap_cons, IH.
by destruct (JSMap.get m k).
Qed.

Lemma wf_set m k v : wf_map m -> wf_map (JSMap.set m k v).
Proof.
unfold wf_map. rewrite keys_set. destruct (JSMap.has m k) eqn:Hh; [done|].
intros Hnd. apply NoDup_app. split; [done|]. split.
- intros x Hx Hk. apply list_elem_of_singleton in Hk as ->.
  apply has_false, get_None_live in Hh. done.
- apply NoDup_singleton.
Qed.

Lemma wf_delete m k : wf_map m -> wf_map (JSMap.delete m k).
Proof.
unfold wf_map. rewrite live_delete.
induction (JSMap.live m) as [|[k' v'] l IH]; simpl; [done|].
rewrite NoDup_cons. intros [Hnot Hnd].
destruct (decide (k' = k)) as [->|Hne].
- rewrite filter_cons_False by (simpl; by intros ?). by apply IH.
- rewrite filter_cons_True by done. simpl. apply NoDup_cons. split; [|by apply IH].
  intros Hin. apply Hnot. apply list_elem_of_fmap in Hin as [e [-> He]].
  apply list_elem_of_filter in He as [_ He].
  apply list_elem_of_fmap. by exists e.
Qed.

Lemma wf_clear m : wf_map (JSMap.clear m).
Proof. unfold wf_map. rewrite live_clear. apply NoDup_nil_2. Qed.

Lemma wf_empty : wf_map (@JSMap.empty V).
Proof. apply NoDup_nil_2. Qed.

End facts.
End JSMapFacts.

(** ** Iterating a map while deleting from it *)
Section iteration.
Context {V : Type}.
Implicit Types (pre suf : JSMap.t V) (k : string) (v : V).

Lemma live_app pre suf :
  JSMap.live (pre ++ suf) = JSMap.live pre ++ JSMap.live suf.
Proof. apply omap_app. Qed.

Lemma next_at_live pre e suf :
  JSMap.next (pre ++ Some e :: suf) (length pre) = Some (S (length pre), e).
Proof. unfold JSMap.next. by rewrite drop_app_length. Qed.

Lemma length_snoc_emptied pre : length (pre ++ [None]) = S (length pre).
Proof. rewrite length_app. simpl. lia. Qed.

Lemma next_at_emptied pre suf :
  JSMap.next (pre ++ None :: suf) (length pre)
  = JSMap.next (pre ++ None :: suf) (S (length pre)).
Proof.
  unfold JSMap.next. rewrite drop_app_length.
  rewrite <- length_snoc_emptied, (cons_middle None pre suf), app_assoc.
  rewrite drop_app_length. simpl. by rewrite length_snoc_emptied.
Qed.

Lemma next_at_end pre : JSMap.next pre (length pre) = None.
Proof. unfold JSMap.next. by rewrite drop_all. Qed.

(** With distinct keys, deleting the key of the record under the
    iterator empties that record and nothing else. *)
Lemma delete_at pre k v suf :
  wf_map (pre ++ Some (k, v) :: suf) ->
  JSMap.delete (pre ++ Some (k, v) :: suf) k = (pre ++ [None]) ++ suf.
Proof.
  unfold wf_map. rewrite live_app, JSMapFacts.live_cons_Some, fmap_app, fmap_cons.
  simpl. intros Hnd. apply NoDup_app in Hnd as (_ & Hdisj & Hnd).
  apply NoDup_cons in Hnd as [Hsuf _].
  assert (Hpre : k ∉ (JSMap.live pre).*1).
  { intros Hin. apply (Hdisj _ Hin), list_elem_of_here. }
  apply JSMapFacts.get_None_live, JSMapFacts.delete_absent in Hpre, Hsuf.
  unfold JSMap.delete in *. rewrite fmap_app, fmap_cons, Hpre, Hsuf.
  unfold JSMap.wipe. rewrite decide_True by done. by rewrite <- app_assoc.
Qed.

Lemma wf_emptied pre k v suf :
  wf_map (pre ++ Some (k, v) :: suf) -> wf_map ((pre ++ [None]) ++ suf).
Proof.
  intros Hwf. rewrite <- (delete_at pre k v suf Hwf).
  by apply JSMapFacts.wf_delete.
Qed.

End iteration.

Lemma watchers_loop_pos fuel m pos pos' :
  JSMap.next m pos = JSMap.next m pos' ->
  watchers_loop fuel m pos = watchers_loop fuel m pos'.
Proof. intros H. destruct fuel; simpl; [done|]. by rewrite H. Qed.

(** [cleanupAllWatchers] visits every record from the iterator position
    on: each visible watcher list is disposed, in order, and its record
    emptied. *)
Lemma watchers_loop_exhausts suf : forall pre fuel,
  wf_map (pre ++ suf) -> length suf <= fuel ->
  watchers_loop fuel (pre ++ suf) (length pre)
  = (pre ++ JSMap.clear suf, Dispose <$> concat (JSMap.live suf).*2).
Proof.
  induction suf as [|[[k wl]|] suf IH]; intros pre fuel Hwf Hfuel.
  - change (JSMap.clear (@nil (option (string * list Disposable)))) with
      (@nil (option (string * list Disposable))).
    rewrite app_nil_r. destruct fuel; simpl; [done|].
    by rewrite next_at_end.
  - destruct fuel as [|fuel]; [simpl in Hfuel; lia|].
    simpl. rewrite next_at_live, (delete_at _ _ _ _ Hwf).
    rewrite <- length_snoc_emptied.
    rewrite (IH (pre ++ [None]) fuel); [|by eapply wf_emptied|simpl in Hfuel; lia].
    rewrite <- app_assoc. simpl. by rewrite fmap_app.
  - rewrite (watchers_loop_pos _ _ _ _ (next_at_emptied pre suf)).
    rewrite <- length_snoc_emptied, (cons_middle None pre suf), app_assoc.
    rewrite IH; [|by rewrite <- app_assoc|simpl in Hfuel; lia].
    by rewrite <- app_assoc.
Qed.

Lemma cleanupAllWatchers_spec s :
  wf_map (watchers s) ->
  cleanupAllWatchers s
  = (with_watchers s (JSMap.clear (watchers s)),
     Dispose <$> concat (JSMap.live (watchers s)).*2).
Proof.
  intros Hwf. unfold cleanupAllWatchers.
  pose proof (watchers_loop_exhausts (watchers s) [] _ Hwf (le_n _)) as H.
  simpl in H. by rewrite H.
Qed.

(** ** Runs without interleaving *)

Lemma run_done opts ws fuel x r : task x = Done r -> run opts ws fuel x = x.
Proof. intros H. destruct fuel; simpl; [done|]. by rewrite H. Qed.

Lemma run_returned opts ws fuel acc s evs :
  run opts ws fuel (with_out acc (returned s evs)) = returned s (acc ++ evs).
Proof. by rewrite (run_done _ _ _ _ (Resolved tt)). Qed.

Lemma run_threw opts ws fuel acc s evs error :
  run opts ws fuel (with_out acc (threw s evs error)) = threw s (acc ++ evs) error.
Proof. by rewrite (run_done _ _ _ _ (Rejected error)). Qed.

Lemma run_suspended opts ws fuel acc s evs k :
  run opts ws (S fuel) (with_out acc (suspended s evs k))
  = run opts ws fuel (with_out (acc ++ evs) (resume opts ws k (settle opts k) s)).
Proof. done. Qed.

Lemma reported_st opts folder s evs : st (reported opts folder s evs) = s.
Proof. unfold reported. by destruct (onError _ _ _). Qed.

Lemma reported_out opts folder s evs : out (reported opts folder s evs) = evs.
Proof. unfold reported. by destruct (onError _ _ _). Qed.

Lemma reported_task opts folder s evs :
  task (reported opts folder s evs) = Done (onError opts (msg_failed folder) folder).
Proof. unfold reported. by destruct (onError _ _ _) as [[]|]. Qed.

Lemma reported_resolved opts folder s evs :
  onError opts (msg_failed folder) folder = Resolved tt ->
  reported opts folder s evs = returned s evs.
Proof. unfold reported. by intros ->. Qed.

(** The [catch] block followed by the [finally] block. *)
Lemma run_catch opts ws fuel acc folder error s :
  1 <= fuel ->
  run opts ws fuel (with_out acc (startForFolder_catch folder error s))
  = reported opts folder (rolled_back folder s)
      (acc ++ rollback_events folder error s).
Proof.
  intros Hfuel. destruct fuel as [|fuel]; [lia|].
  unfold startForFolder_catch, rolled_back, rollback_events, reported.
  destruct (cleanupWatchers _ _) as [s2 disposed].
  rewrite run_suspended. cbn [settle].
  destruct (onError opts (msg_failed folder) folder) as [[]|error'];
    cbn [resume].
  - by rewrite run_returned, app_nil_r.
  - by rewrite run_threw, app_nil_r.
Qed.

Lemma owned_by_true opts ws folder doc :
  owned_by opts ws folder doc = true <->
  supportedLanguage opts (languageId doc) = true /\
  exists docFolder, getWorkspaceFolder ws (doc_uri doc) = Some docFolder
                    /\ getFolderKey docFolder = getFolderKey folder.
Proof.
  unfold owned_by. destruct (supportedLanguage _ _); simpl.
  - destruct (getWorkspaceFolder _ _) as [docFolder|].
    + rewrite bool_decide_eq_true. split.
      * intros Hkey. split; [done|]. by exists docFolder.
      * by intros [_ (docFolder' & [= <-] & Hkey)].
    + split; [done|]. by intros [_ (docFolder' & ? & _)].
  - split; [done|]. by intros [? _].
Qed.

(** One iteration of the loop of [syncOpenDocuments]. *)
Lemma syncOpenDocuments_cons opts ws client folder doc rest :
  syncOpenDocuments opts ws client folder (doc :: rest)
  = if owned_by opts ws folder doc
    then (StartSend client folder doc rest, [SendDidOpen client doc])
    else syncOpenDocuments opts ws client folder rest.
Proof.
  unfold owned_by. simpl. destruct (supportedLanguage _ _); simpl; [|done].
  destruct (getWorkspaceFolder _ _) as [docFolder|]; [|done].
  destruct (decide _) as [Heq|Hne].
  - by rewrite bool_decide_eq_true_2.
  - by rewrite bool_decide_eq_false_2.
Qed.

(** From the loop of [syncOpenDocuments] to the end of [startForFolder]:
    the owned documents are notified in order; if every send resolves the
    status is refreshed and the start is logged, and the first rejected
    send ends the loop and is handled as a failed start. *)
Lemma run_syncOpenDocuments opts ws client folder docs : forall s acc fuel,
  length docs + 3 <= fuel ->
  run opts ws fuel
    (with_out acc
       (suspended s (syncOpenDocuments opts ws client folder docs).2
          (syncOpenDocuments opts ws client folder docs).1))
  = match send_all opts client
            (filter (fun d => owned_by opts ws folder d = true) docs) with
    | (notified, None) =>
        returned (startForFolder_finally folder s)
          (acc ++ (SendDidOpen client <$> notified)
               ++ [OnStatusUpdate; Log (msg_started folder)])
    | (notified, Some error) =>
        reported opts folder (rolled_back folder s)
          (acc ++ (SendDidOpen client <$> notified)
               ++ rollback_events folder error s)
    end.
Proof.
  induction docs as [|doc rest IH]; intros s acc fuel Hfuel.
  - destruct fuel as [|[|fuel]]; [simpl in Hfuel; lia..|].
    simpl syncOpenDocuments. simpl fst. simpl snd.
    rewrite run_suspended. simpl resume. rewrite run_suspended. simpl resume.
    rewrite run_returned. rewrite filter_nil. simpl.
    by rewrite app_nil_r, <- app_assoc.
  - rewrite syncOpenDocuments_cons.
    destruct (owned_by opts ws folder doc) eqn:Howned.
    + rewrite filter_cons_True by done. simpl send_all.
      destruct fuel as [|fuel]; [simpl in Hfuel; lia|].
      simpl fst. simpl snd. rewrite run_suspended. simpl resume. simpl settle.
      destruct (sendNotification opts client doc) as [[]|error].
      * destruct (syncOpenDocuments opts ws client folder rest) as [k' sent].
        pose proof (IH s (acc ++ [SendDidOpen client doc]) fuel) as IH'.
        simpl in IH'. rewrite IH' by (simpl in Hfuel; lia).
        destruct (send_all _ _ _) as [notified [error|]];
          by rewrite fmap_cons, <- !app_assoc.
      * destruct fuel as [|[|fuel]]; [simpl in Hfuel; lia..|].
        rewrite run_suspended. simpl resume. rewrite run_suspended. simpl resume.
        rewrite run_catch by (simpl in Hfuel; lia).
        by rewrite !app_nil_r, <- !app_assoc.
    + rewrite filter_cons_False by (by rewrite Howned).
      apply IH. simpl in Hfuel. lia.
Qed.

Lemma with_clients_same s : with_clients s (clients s) = s.
Proof. by destruct s. Qed.

Lemma stopAll_loop_pos s pos pos' :
  JSMap.next (clients s) pos = JSMap.next (clients s) pos' ->
  stopAll_loop s pos = stopAll_loop s pos'.
Proof. unfold stopAll_loop. by intros ->. Qed.

Lemma stopAll_finish_returns s : exists s' disposed,
  stopAll_finish s = returned s' disposed.
Proof.
  unfold stopAll_finish. destruct (cleanupAllWatchers _) as [s2 disposed].
  by exists s2, disposed.
Qed.

(** The loop of [stopAll] when every stop handshake resolves: each record
    visible from the iterator position on is stopped once, in order, and
    emptied; then the method finishes. *)
Lemma run_stopAll_loop opts ws suf : forall pre s acc fuel,
  clients s = pre ++ suf ->
  wf_map (clients s) ->
  (forall key c, (key, c) ∈ JSMap.live suf -> stop opts c = Resolved tt) ->
  length suf <= fuel ->
  run opts ws fuel (with_out acc (stopAll_loop s (length pre)))
  = with_out (acc ++ (ClientStop <$> (JSMap.live suf).*2))
      (stopAll_finish (with_clients s (pre ++ JSMap.clear suf))).
Proof.
  induction suf as [|[[k c]|] suf IH]; intros pre s acc fuel Hs Hwf Hstop Hfuel.
  - change (JSMap.clear (@nil (option (string * LanguageClient)))) with
      (@nil (option (string * LanguageClient))).
    rewrite <- Hs, with_clients_same.
    rewrite app_nil_r in Hs. unfold stopAll_loop. rewrite Hs, next_at_end.
    destruct (stopAll_finish_returns s) as (s' & disposed & ->).
    rewrite run_returned. simpl. by rewrite app_nil_r.
  - destruct fuel as [|fuel]; [simpl in Hfuel; lia|].
    unfold stopAll_loop at 1. rewrite Hs, next_at_live.
    rewrite run_suspended. simpl resume. simpl settle.
    rewrite (Hstop k c) by apply list_elem_of_here.
    rewrite Hs in Hwf. rewrite Hs, (delete_at _ _ _ _ Hwf).
    rewrite <- length_snoc_emptied.
    rewrite (IH (pre ++ [None]));
      [| done | simpl; by eapply wf_emptied | | simpl in Hfuel; lia].
    + rewrite JSMapFacts.live_cons_Some, !fmap_cons. simpl.
      by rewrite <- !app_assoc.
    + intros key c' Hin. apply (Hstop key c').
      rewrite JSMapFacts.live_cons_Some. by apply list_elem_of_further.
  - rewrite (stopAll_loop_pos s (length pre) (S (length pre)))
      by (rewrite Hs; apply next_at_emptied).
    rewrite <- length_snoc_emptied.
    rewrite (IH (pre ++ [None]));
      [| by rewrite Hs, <- app_assoc | done | done | simpl in Hfuel; lia].
    by rewrite <- app_assoc.
Qed.

(** The loop of [stopAll] when a stop handshake is rejected: the records
    before the failing one are stopped and emptied, the failing record and
    those after it stay, and the method rejects without reaching the
    statements after the loop. *)
Lemma run_stopAll_loop_rejected opts ws suf :
  forall pre s acc fuel before key c after error,
  clients s = pre ++ suf ->
  wf_map (clients s) ->
  JSMap.live suf = before ++ (key, c) :: after ->
  (forall k' c', (k', c') ∈ before -> stop opts c' = Resolved tt) ->
  stop opts c = Rejected error ->
  length suf <= fuel ->
  exists m',
    run opts ws fuel (with_out acc (stopAll_loop s (length pre)))
    = threw (with_clients s m')
        (acc ++ (ClientStop <$> before.*2) ++ [ClientStop c]) error
    /\ JSMap.live m' = JSMap.live pre ++ (key, c) :: after.
Proof.
  induction suf as [|[[k0 c0]|] suf IH];
    intros pre s acc fuel before key c after error Hs Hwf Hlive Hok Hrej Hfuel.
  - by destruct before.
  - destruct fuel as [|fuel]; [simpl in Hfuel; lia|].
    unfold stopAll_loop at 1. rewrite Hs, next_at_live.
    rewrite run_suspended. simpl resume. simpl settle.
    rewrite JSMapFacts.live_cons_Some in Hlive.
    destruct before as [|[k1 c1] before]; simpl in Hlive.
    + injection Hlive as Hk Hc Hafter. subst k0 c0. rewrite Hrej.
      exists (clients s). split.
      * rewrite with_clients_same, run_threw. simpl. by rewrite app_nil_r.
      * rewrite Hs, live_app, JSMapFacts.live_cons_Some. by rewrite Hafter.
    + injection Hlive as Hk Hc Hrest. subst k0 c0.
      rewrite (Hok k1 c1) by apply list_elem_of_here.
      rewrite Hs in Hwf. rewrite Hs, (delete_at _ _ _ _ Hwf).
      rewrite <- length_snoc_emptied.
      destruct (IH (pre ++ [None])
                  (with_clients s ((pre ++ [None]) ++ suf))
                  (acc ++ [ClientStop c1]) fuel before key c after error)
        as (m' & Hrun & Hm'); simpl; try done.
      * by eapply wf_emptied.
      * intros k' c' Hin. apply (Hok k' c'). by apply list_elem_of_further.
      * simpl in Hfuel. lia.
      * exists m'. split.
        -- rewrite Hrun. simpl. by rewrite <- !app_assoc.
        -- rewrite Hm', live_app. simpl. by rewrite app_nil_r.
  - rewrite (stopAll_loop_pos s (length pre) (S (length pre)))
      by (rewrite Hs; apply next_at_emptied).
    rewrite <- length_snoc_emptied.
    destruct (IH (pre ++ [None]) s acc fuel before key c after error)
      as (m' & Hrun & Hm'); try done.
    + by rewrite Hs, <- app_assoc.
    + simpl in Hfuel. lia.
    + exists m'. split; [done|].
      rewrite Hm', live_app. simpl. by rewrite app_nil_r.
Qed.

(** ** The suspension machine computes the direct reading *)

Lemma await_startForFolder_direct opts ws folder s :
  await_startForFolder opts ws folder s = startForFolder_direct opts ws folder s.
Proof.
  unfold await_startForFolder, startForFolder_direct, startForFolder.
  destruct (JSMap.has _ _); [by apply (run_done _ _ _ _ (Resolved tt))|].
  destruct (bool_decide _); [by apply (run_done _ _ _ _ (Resolved tt))|].
  set (s0 := with_pendingStarts s _).
  set (n := length (textDocuments ws)).
  unfold startForFolder_try.
  replace (n + 6) with (S (S (S (n + 3)))) by lia.
  change (suspended s0 [ShouldEnableForFolder folder] (StartEnable folder))
    with (with_out [] (suspended s0 [ShouldEnableForFolder folder] (StartEnable folder))).
  rewrite run_suspended. simpl resume. simpl settle.
  destruct (shouldEnableForFolder opts folder) as [[|]|error].
  - rewrite run_suspended. simpl resume. simpl settle.
    destruct (createClient opts folder) as [[client|]|error].
    + rewrite run_suspended. simpl resume. simpl settle.
      destruct (start opts client) as [[]|error].
      * unfold afterStart. unfold new_cache.
        set (s3 := with_diagnosticCaches _ _).
        pose proof (run_syncOpenDocuments opts ws client folder (textDocuments ws)
                      s3 (([] ++ [ShouldEnableForFolder folder] ++ [CreateClient folder])
                            ++ [ClientStart client]) (n + 3)) as Hrun.
        destruct (syncOpenDocuments opts ws client folder (textDocuments ws))
          as [k sent].
        simpl in Hrun. simpl. rewrite Hrun by (subst n; lia).
        by destruct (send_all _ _ _) as [notified [error|]].
      * by rewrite run_catch by lia.
    + by rewrite run_returned, app_nil_r.
    + by rewrite run_catch by lia.
  - by rewrite run_returned.
  - by rewrite run_catch by lia.
Qed.


(** The iterator walk with deletions visits what a walk of the snapshot
    visits. *)
Lemma run_stopAll_loop_snapshot opts ws suf : forall pre s acc fuel,
  clients s = pre ++ suf ->
  wf_map (clients s) ->
  length suf <= fuel ->
  run opts ws fuel (with_out acc (stopAll_loop s (length pre)))
  = match stop_each opts (JSMap.live suf) s with
    | (s', evs, None) => with_out (acc ++ evs) (stopAll_finish s')
    | (s', evs, Some error) => threw s' (acc ++ evs) error
    end.
Proof.
  induction suf as [|[[k c]|] suf IH]; intros pre s acc fuel Hs Hwf Hfuel.
  - simpl. rewrite app_nil_r in *. unfold stopAll_loop. rewrite Hs, next_at_end.
    destruct (stopAll_finish_returns s) as (s' & disposed & ->).
    by rewrite run_returned.
  - destruct fuel as [|fuel]; [simpl in Hfuel; lia|].
    unfold stopAll_loop at 1. rewrite Hs, next_at_live.
    rewrite run_suspended. simpl resume. simpl settle.
    rewrite JSMapFacts.live_cons_Some. simpl stop_each.
    destruct (stop opts c) as [[]|error].
    + rewrite Hs in Hwf. rewrite Hs, (delete_at _ _ _ _ Hwf).
      rewrite <- length_snoc_emptied.
      rewrite (IH (pre ++ [None]));
        [| done | simpl; by eapply wf_emptied | simpl in Hfuel; lia].
      destruct (stop_each opts _ _) as [[s' evs] [error|]]; simpl;
        by rewrite <- !app_assoc.
    + by rewrite run_threw, app_nil_r.
  - rewrite (stopAll_loop_pos s (length pre) (S (length pre)))
      by (rewrite Hs; apply next_at_emptied).
    rewrite <- length_snoc_emptied.
    apply IH; [by rewrite Hs, <- app_assoc | done | simpl in Hfuel; lia].
Qed.

Lemma await_stopAll_snapshot opts ws s :
  wf_map (clients s) -> await_stopAll opts ws s = stopAll_snapshot opts s.
Proof.
  intros Hwf. unfold await_stopAll, stopAll, stopAll_snapshot.
  pose proof (run_stopAll_loop_snapshot opts ws (clients s) [] s
                [Log msg_stopping_all] (length (clients s)) eq_refl Hwf (le_n _))
    as Hrun.
  simpl in Hrun. unfold with_out in Hrun at 1. simpl in Hrun.
  rewrite Hrun. by destruct (stop_each _ _ _) as [[s' evs] [error|]].
Qed.

(** [startForFolder] and [stopAll] always settle; [startForFolder]
    returns when the error callback resolves. *)
Lemma await_startForFolder_settles opts ws folder s :
  exists r, task (await_startForFolder opts ws folder s) = Done r.
Proof.
  rewrite await_startForFolder_direct. unfold startForFolder_direct, reported.
  destruct (JSMap.has _ _); [by eexists|].
  destruct (bool_decide _); [by eexists|].
  destruct (startForFolder_try _ _ _ _) as [[s1 evs] [error|]]; [|by eexists].
  destruct (onError _ _ _); by eexists.
Qed.

Lemma await_startForFolder_returns opts ws folder s :
  onError opts (msg_failed folder) folder = Resolved tt ->
  exists s' evs, await_startForFolder opts ws folder s = returned s' evs.
Proof.
  intros Hcallback.
  rewrite await_startForFolder_direct. unfold startForFolder_direct, reported.
  destruct (JSMap.has _ _); [by eexists _, _|].
  destruct (bool_decide _); [by eexists _, _|].
  destruct (startForFolder_try _ _ _ _) as [[s1 evs] [error|]];
    [|by eexists _, _].
  rewrite Hcallback. by eexists _, _.
Qed.

Lemma await_stopAll_settles opts ws s :
  wf_map (clients s) -> exists r, task (await_stopAll opts ws s) = Done r.
Proof.
  intros Hwf. rewrite await_stopAll_snapshot by done. unfold stopAll_snapshot.
  destruct (stop_each _ _ _) as [[s' evs] [error|]]; [by eexists|].
  destruct (stopAll_finish_returns s') as (s2 & disposed & ->). by eexists.
Qed.

(** ** The guard set under interleaving *)

Lemma cleanupWatchers_frame key s :
  clients (cleanupWatchers key s).1 = clients s
  /\ diagnosticCaches (cleanupWatchers key s).1 = diagnosticCaches s
  /\ pendingStarts (cleanupWatchers key s).1 = pendingStarts s
  /\ caches (cleanupWatchers key s).1 = caches s.
Proof. unfold cleanupWatchers. by destruct (JSMap.get _ _). Qed.

Lemma cleanupAllWatchers_frame s :
  clients (cleanupAllWatchers s).1 = clients s
  /\ diagnosticCaches (cleanupAllWatchers s).1 = diagnosticCaches s
  /\ pendingStarts (cleanupAllWatchers s).1 = pendingStarts s
  /\ caches (cleanupAllWatchers s).1 = caches s.
Proof. unfold cleanupAllWatchers. by destruct (watchers_loop _ _ _). Qed.

Lemma getDiagnosticCacheForFolder_frame folder s :
  clients (getDiagnosticCacheForFolder folder s).2 = clients s
  /\ watchers (getDiagnosticCacheForFolder folder s).2 = watchers s
  /\ pendingStarts (getDiagnosticCacheForFolder folder s).2 = pendingStarts s.
Proof. unfold getDiagnosticCacheForFolder. by destruct (JSMap.get _ _). Qed.

Lemma syncOpenDocuments_key opts ws client folder docs :
  attempt_key (syncOpenDocuments opts ws client folder docs).1
  = Some (getFolderKey folder).
Proof.
  induction docs as [|doc rest IH]; [done|].
  rewrite syncOpenDocuments_cons. by destruct (owned_by _ _ _ _).
Qed.

Lemma startForFolder_catch_guard folder error s :
  task (startForFolder_catch folder error s) = Await (StartOnError folder)
  /\ pendingStarts (st (startForFolder_catch folder error s)) = pendingStarts s.
Proof.
  unfold startForFolder_catch.
  pose proof (cleanupWatchers_frame (getFolderKey folder)
                (with_clients s (JSMap.delete (clients s) (getFolderKey folder))))
    as (_ & _ & Hp & _).
  by destruct (cleanupWatchers _ _).
Qed.

Lemma stopAll_loop_guard s pos :
  omap attempt_key (still_suspended (task (stopAll_loop s pos))) = []
  /\ pendingStarts (st (stopAll_loop s pos)) = pendingStarts s.
Proof.
  unfold stopAll_loop. destruct (JSMap.next _ _) as [[pos' [key client]]|]; [done|].
  unfold stopAll_finish.
  pose proof (cleanupAllWatchers_frame
                (with_diagnosticCaches s (JSMap.clear (diagnosticCaches s))))
    as (_ & _ & Hp & _).
  by destruct (cleanupAllWatchers _).
Qed.

(** A resumed invocation keeps the key of its attempt and the guard set
    until it ends, and an attempt that ends removes its key. *)
Lemma resume_guard opts ws k (r : result (answer k)) s :
  match task (resume opts ws k r s) with
  | Await k' =>
      attempt_key k' = attempt_key k
      /\ pendingStarts (st (resume opts ws k r s)) = pendingStarts s
  | Done _ =>
      pendingStarts (st (resume opts ws k r s))
      = match attempt_key k with
        | Some key => pendingStarts s ∖ {[key]}
        | None => pendingStarts s
        end
  end.
Proof.
  destruct k; simpl in r |- *.
  - destruct r as [[|]|error]; simpl; [done..|].
    by destruct (startForFolder_catch_guard folder error s) as [-> ->].
  - destruct r as [[client|]|error]; simpl; [done..|].
    by destruct (startForFolder_catch_guard folder error s) as [-> ->].
  - destruct r as [[]|error].
    + unfold afterStart, new_cache.
      pose proof (syncOpenDocuments_key opts ws client folder (textDocuments ws)).
      by destruct (syncOpenDocuments _ _ _ _ _) as [k' sent].
    + by destruct (startForFolder_catch_guard folder error s) as [-> ->].
  - destruct r as [[]|error]; [|done].
    pose proof (syncOpenDocuments_key opts ws client folder rest).
    by destruct (syncOpenDocuments _ _ _ _ _) as [k' sent].
  - by destruct settled.
  - destruct settled as [[]|error]; [done|].
    by destruct (startForFolder_catch_guard folder error s) as [-> ->].
  - by destruct r.
  - destruct r as [[]|error]; [|done].
    set (s2 := with_diagnosticCaches _ _).
    pose proof (cleanupWatchers_frame (getFolderKey folder) s2) as (_ & _ & Hp & _).
    by destruct (cleanupWatchers _ _).
  - destruct r as [[]|error]; [|done].
    destruct (stopAll_loop_guard
                (with_clients s (JSMap.delete (clients s) key)) pos) as [Hk Hp].
    destruct (task (stopAll_loop _ _)) as [r'|k']; [done|].
    simpl in Hk. by destruct (attempt_key k').
  - by destruct r.
Qed.

(** A new call either leaves the guard set alone and is no start attempt,
    or is a start attempt that passed both guards and took the key. *)
Lemma invoke_guard opts ws c s :
  (omap attempt_key (still_suspended (task (invoke opts ws c s))) = []
   /\ pendingStarts (st (invoke opts ws c s)) = pendingStarts s)
  \/ (exists folder,
        c = CallStartForFolder folder
        /\ (getFolderKey folder ∉ pendingStarts s)
        /\ task (invoke opts ws c s) = Await (StartEnable folder)
        /\ pendingStarts (st (invoke opts ws c s))
           = {[getFolderKey folder]} ∪ pendingStarts s).
Proof.
  destruct c; simpl.
  - unfold startForFolder. destruct (JSMap.has _ _); [by left|].
    destruct (bool_decide _) eqn:Hp; [by left|].
    right. exists folder. by apply bool_decide_eq_false in Hp.
  - left. unfold stopForFolder. by destruct (JSMap.get _ _).
  - left. apply (stopAll_loop_guard s 0).
  - left. unfold notifyDocumentOpenIfNeeded.
    destruct (supportedLanguage _ _); [|done]. simpl.
    destruct (getWorkspaceFolder _ _) as [folder|]; [|done].
    destruct (JSMap.get (clients s) _); [|done].
    pose proof (getDiagnosticCacheForFolder_frame folder s) as (_ & _ & Hp).
    destruct (getDiagnosticCacheForFolder folder s) as [cache s1].
    by destruct (cache_has _ _ _).
  - left. by pose proof (getDiagnosticCacheForFolder_frame folder s) as (_ & _ & Hp).
  - by left.
  - left. unfold cache_set. by destruct (caches s !! cache).
Qed.

Lemma single_flight_step opts sys sys' :
  sys_step opts sys sys' -> single_flight sys -> single_flight sys'.
Proof.
  intros Hstep [Hnd Hiff]. destruct Hstep as [ws c sys|ws before k after r sys Htasks].
  - unfold single_flight, in_flight, advance. simpl.
    destruct (invoke_guard opts ws c (manager sys))
      as [[Hk Hp]|(folder & -> & Hfree & Ht & Hp)].
    + rewrite omap_app, Hk, Hp. done.
    + rewrite Ht, Hp. simpl. split.
      * apply NoDup_cons. split; [|done]. by rewrite <- Hiff.
      * intros key. rewrite elem_of_union, elem_of_singleton, elem_of_cons, Hiff.
        done.
  - unfold single_flight, in_flight, advance in *. simpl.
    rewrite Htasks in Hnd, Hiff. rewrite !omap_app in *. simpl in Hnd, Hiff.
    pose proof (resume_guard opts ws k r (manager sys)) as Hg.
    destruct (task (resume opts ws k r (manager sys))) as [r'|k'].
    + simpl. destruct (attempt_key k) as [key|].
      * rewrite Hg. apply NoDup_app in Hnd as (Hb & Hdisj & Hka).
        apply NoDup_cons in Hka as [Hkey Ha]. split.
        -- apply NoDup_app. split; [done|]. split; [|done].
           intros x Hx Hxa. apply (Hdisj x Hx). by apply list_elem_of_further.
        -- intros key'. rewrite elem_of_difference, elem_of_singleton, Hiff.
           rewrite !elem_of_app, elem_of_cons. split.
           ++ intros [[?|[?|?]] ?]; [by left|done|by right].
           ++ intros [Hin|Hin].
              ** split; [by left|]. intros ->. apply (Hdisj key Hin), list_elem_of_here.
              ** split; [by right; right|]. by intros ->.
      * by rewrite Hg.
    + destruct Hg as [Hk Hp]. simpl. rewrite Hk, Hp.
      by destruct (attempt_key k).
Qed.

Lemma single_flight_initial : single_flight initial.
Proof.
  split; [apply NoDup_nil_2|]. intros key. unfold initial, in_flight. simpl.
  split; [by intros ?%not_elem_of_empty | by intros ?%not_elem_of_nil].
Qed.

Lemma reachable_single_flight opts sys : reachable opts sys -> single_flight sys.
Proof.
  unfold reachable. apply rtc_ind_r.
  - apply single_flight_initial.
  - intros sys1 sys2 _ Hstep IH. by eapply single_flight_step.
Qed.

(** ** Well-formedness of the reachable states *)

Lemma get_delete_Some {V} (m : JSMap.t V) k k' v :
  JSMap.get (JSMap.delete m k) k' = Some v -> JSMap.get m k' = Some v.
Proof.
  destruct (decide (k = k')) as [->|Hne].
  - by rewrite JSMapFacts.get_delete_eq.
  - by rewrite JSMapFacts.get_delete_ne.
Qed.

Lemma wf_new : wf new_ClientManager.
Proof.
  repeat split; try apply JSMapFacts.wf_empty. intros key r. by simpl.
Qed.

Lemma wf_with_clients s m : wf s -> wf_map m -> wf (with_clients s m).
Proof. intros (_ & ? & ? & ?) ?. by repeat split. Qed.

Lemma wf_with_watchers s m : wf s -> wf_map m -> wf (with_watchers s m).
Proof. intros (? & ? & _ & ?) ?. by repeat split. Qed.

Lemma wf_with_pendingStarts s p : wf s -> wf (with_pendingStarts s p).
Proof. intros (? & ? & ? & ?). by repeat split. Qed.

Lemma wf_delete_diagnosticCaches s key :
  wf s -> wf (with_diagnosticCaches s (JSMap.delete (diagnosticCaches s) key)).
Proof.
  intros (? & ? & ? & Href). repeat split; simpl; try done.
  - by apply JSMapFacts.wf_delete.
  - intros key' r Hget. apply (Href key'). by eapply get_delete_Some.
Qed.

Lemma wf_clear_diagnosticCaches s :
  wf s -> wf (with_diagnosticCaches s (JSMap.clear (diagnosticCaches s))).
Proof.
  intros (? & ? & ? & Href). repeat split; simpl; try done.
  - apply JSMapFacts.wf_clear.
  - intros key r. by rewrite JSMapFacts.get_clear.
Qed.

(** Registering a fresh cache object for [key]. *)
Lemma wf_fresh_cache s key :
  wf s ->
  wf (with_diagnosticCaches (new_cache s).2
        (JSMap.set (diagnosticCaches (new_cache s).2) key (new_cache s).1)).
Proof.
  intros (? & ? & ? & Href). repeat split; simpl; try done.
  - by apply JSMapFacts.wf_set.
  - intros key' r. rewrite length_app. simpl.
    destruct (decide (key = key')) as [->|Hne].
    + rewrite JSMapFacts.get_set_eq. intros [= <-]. lia.
    + rewrite JSMapFacts.get_set_ne by done. intros Hget.
      specialize (Href key' r Hget). lia.
Qed.

Lemma wf_getDiagnosticCacheForFolder folder s :
  wf s -> wf (getDiagnosticCacheForFolder folder s).2.
Proof.
  intros Hwf. unfold getDiagnosticCacheForFolder.
  destruct (JSMap.get _ _); [done|]. by apply wf_fresh_cache.
Qed.

Lemma wf_cache_set cache uri diagnostics s :
  wf s -> wf (cache_set cache uri diagnostics s).
Proof.
  intros Hwf. unfold cache_set. destruct (caches s !! cache); [|done].
  destruct Hwf as (? & ? & ? & Href). repeat split; simpl; try done.
  intros key r Hget. rewrite length_insert. by apply (Href key).
Qed.

Lemma wf_cleanupWatchers key s : wf s -> wf (cleanupWatchers key s).1.
Proof.
  intros Hwf. unfold cleanupWatchers. destruct (JSMap.get _ _); [|done].
  apply wf_with_watchers; [done|]. apply JSMapFacts.wf_delete. apply Hwf.
Qed.

Lemma wf_watchers_loop fuel : forall m pos,
  wf_map m -> wf_map (watchers_loop fuel m pos).1.
Proof.
  induction fuel as [|fuel IH]; intros m pos Hwf; simpl; [done|].
  destruct (JSMap.next m pos) as [[pos' [key watcherList]]|]; [|done].
  specialize (IH (JSMap.delete m key) pos' (JSMapFacts.wf_delete _ _ Hwf)).
  by destruct (watchers_loop fuel _ _).
Qed.

Lemma wf_cleanupAllWatchers s : wf s -> wf (cleanupAllWatchers s).1.
Proof.
  intros Hwf. unfold cleanupAllWatchers.
  pose proof (wf_watchers_loop (length (watchers s)) (watchers s) 0) as Hloop.
  destruct (watchers_loop _ _ _) as [m evs]. simpl in *.
  apply wf_with_watchers; [done|]. apply Hloop, Hwf.
Qed.

Lemma wf_startForFolder_catch folder error s :
  wf s -> wf (st (startForFolder_catch folder error s)).
Proof.
  intros Hwf. unfold startForFolder_catch.
  pose proof (wf_cleanupWatchers (getFolderKey folder)
                (with_clients s (JSMap.delete (clients s) (getFolderKey folder))))
    as Hc.
  destruct (cleanupWatchers _ _). simpl in *. apply Hc.
  apply wf_with_clients; [done|]. apply JSMapFacts.wf_delete, Hwf.
Qed.

Lemma wf_stopAll_loop s pos : wf s -> wf (st (stopAll_loop s pos)).
Proof.
  intros Hwf. unfold stopAll_loop.
  destruct (JSMap.next _ _) as [[pos' [key client]]|]; [done|].
  unfold stopAll_finish.
  pose proof (wf_cleanupAllWatchers _ (wf_clear_diagnosticCaches s Hwf)) as Hc.
  by destruct (cleanupAllWatchers _).
Qed.

Lemma wf_resume opts ws k (r : result (answer k)) s :
  wf s -> wf (st (resume opts ws k r s)).
Proof.
  intros Hwf. destruct k; simpl in r |- *.
  - destruct r as [[|]|error]; simpl; [done| |].
    + by apply wf_with_pendingStarts.
    + by apply wf_startForFolder_catch.
  - destruct r as [[client|]|error]; simpl.
    + apply wf_with_clients; [done|]. apply JSMapFacts.wf_set, Hwf.
    + by apply wf_with_pendingStarts.
    + by apply wf_startForFolder_catch.
  - destruct r as [[]|error]; [|by apply wf_startForFolder_catch].
    unfold afterStart.
    pose proof (wf_fresh_cache s (getFolderKey folder) Hwf) as Hc.
    destruct (new_cache s) as [cache s1].
    by destruct (syncOpenDocuments _ _ _ _ _).
  - destruct r as [[]|error]; [|done].
    by destruct (syncOpenDocuments _ _ _ _ _).
  - by destruct settled.
  - destruct settled as [[]|error]; simpl.
    + by apply wf_with_pendingStarts.
    + by apply wf_startForFolder_catch.
  - destruct r; simpl; by apply wf_with_pendingStarts.
  - destruct r as [[]|error]; [|done].
    set (s2 := with_diagnosticCaches _ _).
    assert (wf s2) as Hs2.
    { apply (wf_delete_diagnosticCaches
               (with_clients s (JSMap.delete (clients s) (getFolderKey folder)))).
      apply wf_with_clients; [done|]. apply JSMapFacts.wf_delete, Hwf. }
    pose proof (wf_cleanupWatchers (getFolderKey folder) s2 Hs2).
    by destruct (cleanupWatchers _ _).
  - destruct r as [[]|error]; [|done].
    apply wf_stopAll_loop. apply wf_with_clients; [done|].
    apply JSMapFacts.wf_delete, Hwf.
  - by destruct r.
Qed.

Lemma wf_invoke opts ws c s : wf s -> wf (st (invoke opts ws c s)).
Proof.
  intros Hwf. destruct c; simpl.
  - unfold startForFolder. destruct (JSMap.has _ _); [done|].
    destruct (bool_decide _); [done|]. by apply wf_with_pendingStarts.
  - unfold stopForFolder. by destruct (JSMap.get _ _).
  - by apply wf_stopAll_loop.
  - unfold notifyDocumentOpenIfNeeded.
    destruct (supportedLanguage _ _); [|done]. simpl.
    destruct (getWorkspaceFolder _ _) as [folder|]; [|done].
    destruct (JSMap.get (clients s) _); [|done].
    pose proof (wf_getDiagnosticCacheForFolder folder s Hwf).
    destruct (getDiagnosticCacheForFolder folder s) as [cache s1].
    by destruct (cache_has _ _ _).
  - by apply wf_getDiagnosticCacheForFolder.
  - apply wf_with_watchers; [done|]. apply JSMapFacts.wf_set, Hwf.
  - by apply wf_cache_set.
Qed.

Lemma reachable_wf opts sys : reachable opts sys -> wf (manager sys).
Proof.
  unfold reachable. apply (rtc_ind_r (fun sys => wf (manager sys))).
  - apply wf_new.
  - intros sys1 sys2 _ Hstep IH. destruct Hstep; simpl.
    + by apply wf_invoke.
    + by apply wf_resume.
Qed.

(** ** What the rollback leaves *)

Lemma with_watchers_same s : with_watchers s (watchers s) = s.
Proof. by destruct s. Qed.

Lemma cleanupWatchers_spec key s :
  cleanupWatchers key s
  = (with_watchers s (JSMap.delete (watchers s) key),
     Dispose <$> default [] (JSMap.get (watchers s) key)).
Proof.
  unfold cleanupWatchers. destruct (JSMap.get _ _) eqn:Hget; simpl; [done|].
  by rewrite JSMapFacts.delete_absent, with_watchers_same.
Qed.

Lemma rolled_back_fields folder s :
  clients (rolled_back folder s) = JSMap.delete (clients s) (getFolderKey folder)
  /\ watchers (rolled_back folder s) = JSMap.delete (watchers s) (getFolderKey folder)
  /\ diagnosticCaches (rolled_back folder s) = diagnosticCaches s
  /\ caches (rolled_back folder s) = caches s
  /\ pendingStarts (rolled_back folder s) = pendingStarts s ∖ {[getFolderKey folder]}.
Proof. unfold rolled_back. by rewrite cleanupWatchers_spec. Qed.

Lemma rollback_events_spec folder error s :
  rollback_events folder error s
  = (Dispose <$> default [] (JSMap.get (watchers s) (getFolderKey folder)))
    ++ [Log (msg_failed_log folder error); OnError (msg_failed folder) folder].
Proof. unfold rollback_events. by rewrite cleanupWatchers_spec. Qed.

Lemma msg_failed_contains_name folder :
  contains (msg_failed folder) (folder_name folder).
Proof.
  exists ("Failed to start Standard Ruby Language Server for " +:+ dq), dq.
  reflexivity.
Qed.

Lemma guard_released s key :
  key ∉ pendingStarts s -> ({[key]} ∪ pendingStarts s) ∖ {[key]} = pendingStarts s.
Proof. set_solver. Qed.

Lemma count_app p evs evs' : count p (evs ++ evs') = count p evs + count p evs'.
Proof. unfold count. by rewrite filter_app, length_app. Qed.

Lemma count_none p evs : Forall (fun e => p e = false) evs -> count p evs = 0.
Proof.
  unfold count. induction 1 as [|e evs He _ IH]; [done|].
  rewrite filter_cons_False; [done | by rewrite He].
Qed.

Lemma filter_none (p : Event -> bool) evs :
  Forall (fun e => p e = false) evs -> filter (fun e => p e = true) evs = [].
Proof.
  induction 1 as [|e evs He _ IH]; [done|].
  rewrite filter_cons_False; [done | by rewrite He].
Qed.

Lemma filter_all (p : Event -> bool) evs :
  Forall (fun e => p e = true) evs -> filter (fun e => p e = true) evs = evs.
Proof.
  induction 1 as [|e evs He _ IH]; [done|].
  rewrite filter_cons_True by done. by rewrite IH.
Qed.

Lemma Forall_fmap_event {A} (f : A -> Event) (P : Event -> Prop) (l : list A) :
  (forall a, P (f a)) -> Forall P (f <$> l).
Proof. intros H. apply Forall_fmap, Forall_forall. intros a _. apply H. Qed.

Lemma has_delete {V} (m : JSMap.t V) key : JSMap.has (JSMap.delete m key) key = false.
Proof. apply JSMapFacts.has_false, JSMapFacts.get_delete_eq. Qed.

Lemma records_of_absent {V} (m : JSMap.t V) key :
  JSMap.get m key = None -> filter (fun e => e.1 = key) (JSMap.live m) = [].
Proof.
  intros Hget. apply JSMapFacts.get_None_live in Hget.
  induction (JSMap.live m) as [|[k v] l IH]; [done|].
  rewrite fmap_cons, not_elem_of_cons in Hget. destruct Hget as [Hne Hl].
  rewrite filter_cons_False by (simpl; intros Heq; by apply Hne). by apply IH.
Qed.

Lemma startForFolder_finally_guard folder s :
  getFolderKey folder ∉ pendingStarts s ->
  startForFolder_finally folder
    (with_pendingStarts s ({[getFolderKey folder]} ∪ pendingStarts s)) = s.
Proof.
  intros Hguard. unfold startForFolder_finally, with_pendingStarts. simpl.
  rewrite guard_released by done. by destruct s.
Qed.

(** ** Sending until a send is rejected *)

Lemma send_all_prefix opts client docs :
  exists rest, docs = (send_all opts client docs).1 ++ rest.
Proof.
  induction docs as [|doc docs [rest IH]]; [by exists []|]. simpl.
  destruct (sendNotification opts client doc) as [[]|error].
  - destruct (send_all opts client docs) as [sent failure]. simpl in *.
    exists rest. by rewrite IH at 1.
  - by exists docs.
Qed.

Lemma send_all_complete opts client docs :
  (send_all opts client docs).2 = None -> (send_all opts client docs).1 = docs.
Proof.
  induction docs as [|doc docs IH]; [done|]. simpl.
  destruct (sendNotification opts client doc) as [[]|error]; [|done].
  destruct (send_all opts client docs) as [sent failure]. simpl in *.
  intros ->. by rewrite IH.
Qed.

Lemma send_all_resolved opts client docs :
  (forall doc, doc ∈ docs -> sendNotification opts client doc = Resolved tt) ->
  send_all opts client docs = (docs, None).
Proof.
  induction docs as [|doc docs IH]; intros Hok; [done|]. simpl.
  rewrite (Hok doc) by apply list_elem_of_here.
  rewrite IH; [done|]. intros doc' Hin. apply Hok. by apply list_elem_of_further.
Qed.


(** ** Only stored watchers are disposed *)

Lemma first_live_live {V} (l : JSMap.t V) : forall i j e,
  JSMap.first_live l i = Some (j, e) -> e ∈ JSMap.live l.
Proof.
  induction l as [|[e'|] l IH]; intros i j e; simpl; [done| |].
  - intros [= _ ->]. apply list_elem_of_here.
  - apply IH.
Qed.

Lemma next_live {V} (m : JSMap.t V) pos pos' e :
  JSMap.next m pos = Some (pos', e) -> e ∈ JSMap.live m.
Proof.
  unfold JSMap.next. intros H%first_live_live.
  rewrite <- (take_drop pos m), live_app. apply elem_of_app. by right.
Qed.

Lemma watchers_loop_disposes_stored fuel : forall m pos d,
  Dispose d ∈ (watchers_loop fuel m pos).2 ->
  exists key ds, (key, ds) ∈ JSMap.live m /\ d ∈ ds.
Proof.
  induction fuel as [|fuel IH]; intros m pos d; simpl.
  - by intros ?%elem_of_nil.
  - destruct (JSMap.next m pos) as [[pos' [key ds]]|] eqn:Hnext;
      [|by intros ?%elem_of_nil].
    specialize (IH (JSMap.delete m key) pos' d).
    destruct (watchers_loop fuel _ _) as [m' evs]. simpl in *.
    intros [Hin|Hin]%elem_of_app.
    + apply list_elem_of_fmap in Hin as (d' & [= <-] & Hd).
      exists key, ds. split; [by eapply next_live|done].
    + destruct (IH Hin) as (key' & ds' & Hlive & Hd).
      exists key', ds'. split; [|done].
      rewrite JSMapFacts.live_delete in Hlive.
      by apply list_elem_of_filter in Hlive as [_ ?].
Qed.

Lemma cleanupWatchers_disposes_stored key s d :
  Dispose d ∈ (cleanupWatchers key s).2 ->
  exists key' ds, (key', ds) ∈ JSMap.live (watchers s) /\ d ∈ ds.
Proof.
  unfold cleanupWatchers. destruct (JSMap.get _ _) as [ds|] eqn:Hget; simpl;
    [|by intros ?%elem_of_nil].
  intros (d' & [= <-] & Hd)%list_elem_of_fmap.
  exists key, ds. split; [by apply JSMapFacts.get_Some_live|done].
Qed.

Lemma startForFolder_catch_disposes_stored folder error s d :
  Dispose d ∈ out (startForFolder_catch folder error s) ->
  exists key ds, (key, ds) ∈ JSMap.live (watchers s) /\ d ∈ ds.
Proof.
  unfold startForFolder_catch.
  pose proof (cleanupWatchers_disposes_stored (getFolderKey folder)
                (with_clients s (JSMap.delete (clients s) (getFolderKey folder))) d)
    as Hc.
  destruct (cleanupWatchers _ _) as [s2 disposed]. simpl in *.
  intros [Hin|Hin]%elem_of_app; [by apply Hc|].
  absent_from_trace Hin.
Qed.

Lemma stopAll_loop_disposes_stored s pos d :
  Dispose d ∈ out (stopAll_loop s pos) ->
  exists key ds, (key, ds) ∈ JSMap.live (watchers s) /\ d ∈ ds.
Proof.
  unfold stopAll_loop.
  destruct (JSMap.next _ _) as [[pos' [key client]]|]; simpl.
  - intros Hin. absent_from_trace Hin.
  - unfold stopAll_finish, cleanupAllWatchers. simpl.
    pose proof (watchers_loop_disposes_stored (length (watchers s)) (watchers s) 0 d)
      as Hloop.
    by destruct (watchers_loop _ _ _) as [m evs].
Qed.

Lemma syncOpenDocuments_disposes_nothing opts ws client folder docs d :
  Dispose d ∉ (syncOpenDocuments opts ws client folder docs).2.
Proof.
  induction docs as [|doc rest IH]; [by intros ?%elem_of_nil|].
  rewrite syncOpenDocuments_cons. destruct (owned_by _ _ _ _); [|done].
  intros Hin. absent_from_trace Hin.
Qed.

Lemma resume_disposes_stored opts ws k (r : result (answer k)) s d :
  Dispose d ∈ out (resume opts ws k r s) ->
  exists key ds, (key, ds) ∈ JSMap.live (watchers s) /\ d ∈ ds.
Proof.
  destruct k; simpl in r |- *.
  - destruct r as [[|]|error];
      [intros Hin; absent_from_trace Hin..|apply startForFolder_catch_disposes_stored].
  - destruct r as [[client|]|error];
      [intros Hin; absent_from_trace Hin..|apply startForFolder_catch_disposes_stored].
  - destruct r as [[]|error]; [|apply startForFolder_catch_disposes_stored].
    unfold afterStart, new_cache.
    pose proof (syncOpenDocuments_disposes_nothing opts ws client folder
                  (textDocuments ws) d).
    by destruct (syncOpenDocuments _ _ _ _ _).
  - destruct r as [[]|error]; [|intros Hin; absent_from_trace Hin].
    pose proof (syncOpenDocuments_disposes_nothing opts ws client folder rest d).
    by destruct (syncOpenDocuments _ _ _ _ _).
  - destruct settled; intros Hin; absent_from_trace Hin.
  - destruct settled as [[]|error];
      [intros Hin; absent_from_trace Hin|apply startForFolder_catch_disposes_stored].
  - destruct r; intros Hin; absent_from_trace Hin.
  - destruct r as [[]|error]; [|intros Hin; absent_from_trace Hin].
    set (s2 := with_diagnosticCaches _ _).
    pose proof (cleanupWatchers_disposes_stored (getFolderKey folder) s2 d) as Hc.
    by destruct (cleanupWatchers _ _).
  - destruct r as [[]|error]; [|intros Hin; absent_from_trace Hin].
    apply (stopAll_loop_disposes_stored
             (with_clients s (JSMap.delete (clients s) key))).
  - destruct r; intros Hin; absent_from_trace Hin.
Qed.

Lemma invoke_disposes_stored opts ws c s d :
  Dispose d ∈ out (invoke opts ws c s) ->
  exists key ds, (key, ds) ∈ JSMap.live (watchers s) /\ d ∈ ds.
Proof.
  destruct c; simpl.
  - unfold startForFolder. destruct (JSMap.has _ _); [by intros ?%elem_of_nil|].
    destruct (bool_decide _); intros Hin; absent_from_trace Hin.
  - unfold stopForFolder.
    destruct (JSMap.get _ _); intros Hin; absent_from_trace Hin.
  - intros [Hin|Hin]%elem_of_cons; [done|].
    by apply (stopAll_loop_disposes_stored s 0).
  - unfold notifyDocumentOpenIfNeeded.
    destruct (supportedLanguage _ _); [|by intros ?%elem_of_nil]. simpl.
    destruct (getWorkspaceFolder _ _) as [folder|]; [|by intros ?%elem_of_nil].
    destruct (JSMap.get (clients s) _); [|by intros ?%elem_of_nil].
    destruct (getDiagnosticCacheForFolder folder s) as [cache s1].
    destruct (cache_has _ _ _); intros Hin; absent_from_trace Hin.
  - by intros ?%elem_of_nil.
  - by intros ?%elem_of_nil.
  - by intros ?%elem_of_nil.
Qed.

Arguments rolled_back : simpl never.
Arguments rollback_events : simpl never.

(** ** Whole runs of stopAll *)

Lemma await_stopAll_resolved opts ws s :
  wf_map (clients s) ->
  wf_map (watchers s) ->
  (forall key client, (key, client) ∈ JSMap.live (clients s) ->
     stop opts client = Resolved tt) ->
  await_stopAll opts ws s
  = returned
      (with_watchers
         (with_diagnosticCaches (with_clients s (JSMap.clear (clients s)))
            (JSMap.clear (diagnosticCaches s)))
         (JSMap.clear (watchers s)))
      (Log msg_stopping_all
         :: (ClientStop <$> (JSMap.live (clients s)).*2)
         ++ (Dispose <$> concat (JSMap.live (watchers s)).*2)).
Proof.
  intros Hwfc Hwfw Hstop. unfold await_stopAll, stopAll.
  pose proof (run_stopAll_loop opts ws (clients s) [] s [Log msg_stopping_all]
                (length (clients s)) eq_refl Hwfc Hstop (le_n _)) as Hrun.
  unfold with_out in Hrun at 1. simpl in Hrun. rewrite Hrun.
  unfold stopAll_finish. by rewrite cleanupAllWatchers_spec.
Qed.

Lemma await_stopAll_rejected opts ws s before key client after error :
  wf_map (clients s) ->
  JSMap.live (clients s) = before ++ (key, client) :: after ->
  (forall k' c', (k', c') ∈ before -> stop opts c' = Resolved tt) ->
  stop opts client = Rejected error ->
  exists m',
    await_stopAll opts ws s
    = threw (with_clients s m')
        (Log msg_stopping_all :: (ClientStop <$> before.*2) ++ [ClientStop client])
        error
    /\ JSMap.live m' = (key, client) :: after.
Proof.
  intros Hwf Hlive Hok Hrej. unfold await_stopAll, stopAll.
  destruct (run_stopAll_loop_rejected opts ws (clients s) [] s
              [Log msg_stopping_all] (length (clients s))
              before key client after error eq_refl Hwf Hlive Hok Hrej (le_n _))
    as (m' & Hrun & Hm').
  unfold with_out in Hrun at 1. simpl in Hrun. rewrite Hrun. by exists m'.
Qed.

(** ** Which steps touch the watchers

    A step of the manager that disposes something or changes the watcher
    table is a resumption that enters the [catch] block of a start, a
    resolved stop handshake of [stopForFolder], or the end of [stopAll];
    among the calls it is [stopAll] on a table without connections, or
    [registerWatchers]. *)
Lemma resume_touches_watchers opts ws k (r : result (answer k)) s :
  let y := resume opts ws k r s in
  watchers (st y) <> watchers s \/ (exists d, Dispose d ∈ out y) ->
  (exists folder, task y = Await (StartOnError folder))
  \/ (exists folder client,
        k = StopHandshake folder client /\ task y = Done (Resolved tt))
  \/ (exists pos key client,
        k = StopAllHandshake pos key client /\ task y = Done (Resolved tt)).
Proof.
  assert (forall folder error,
            exists folder', task (startForFolder_catch folder error s)
                            = Await (StartOnError folder')) as Hcatch.
  { intros folder error. exists folder.
    by destruct (startForFolder_catch_guard folder error s) as [-> _]. }
  destruct k; simpl in r |- *.
  - destruct r as [[|]|error]; [| |intros _; by left]; simpl;
      (intros [Hw|[d Hd]]; [done|absent_from_trace Hd]).
  - destruct r as [[client|]|error]; [| |intros _; by left]; simpl;
      (intros [Hw|[d Hd]]; [done|absent_from_trace Hd]).
  - destruct r as [[]|error]; [|intros _; by left].
    unfold afterStart, new_cache.
    pose proof (syncOpenDocuments_disposes_nothing opts ws client folder
                  (textDocuments ws)) as Hsent.
    destruct (syncOpenDocuments _ _ _ _ _) as [k' sent]. simpl in *.
    intros [Hw|[d Hd]]; [done|by apply Hsent in Hd].
  - destruct r as [[]|error].
    + pose proof (syncOpenDocuments_disposes_nothing opts ws client folder rest)
        as Hsent.
      destruct (syncOpenDocuments _ _ _ _ _) as [k' sent]. simpl in *.
      intros [Hw|[d Hd]]; [done|by apply Hsent in Hd].
    + simpl. intros [Hw|[d Hd]]; [done|absent_from_trace Hd].
  - destruct settled; simpl; (intros [Hw|[d Hd]]; [done|absent_from_trace Hd]).
  - destruct settled as [[]|error]; [|intros _; by left].
    simpl. intros [Hw|[d Hd]]; [done|absent_from_trace Hd].
  - destruct r; simpl; (intros [Hw|[d Hd]]; [done|absent_from_trace Hd]).
  - destruct r as [[]|error].
    + intros _. right. left. exists folder, client. split; [done|].
      by destruct (cleanupWatchers _ _).
    + simpl. intros [Hw|[d Hd]]; [done|absent_from_trace Hd].
  - destruct r as [[]|error].
    + unfold stopAll_loop.
      destruct (JSMap.next _ _) as [[pos' [key' client']]|]; simpl.
      * intros [Hw|[d Hd]]; [done|absent_from_trace Hd].
      * intros _. right. right. exists pos, key, client. split; [done|].
        destruct (stopAll_finish_returns
                    (with_clients s (JSMap.delete (clients s) key)))
          as (s' & disposed & ->). done.
    + simpl. intros [Hw|[d Hd]]; [done|absent_from_trace Hd].
  - destruct r; simpl; (intros [Hw|[d Hd]]; [done|absent_from_trace Hd]).
Qed.

Lemma invoke_touches_watchers opts ws c s :
  let y := invoke opts ws c s in
  watchers (st y) <> watchers s \/ (exists d, Dispose d ∈ out y) ->
  (c = CallStopAll /\ task y = Done (Resolved tt))
  \/ (exists folder ds, c = CallRegisterWatchers folder ds /\ out y = []).
Proof.
  destruct c; simpl.
  - unfold startForFolder. destruct (JSMap.has _ _); simpl;
      [intros [Hw|[d Hd]]; [done|absent_from_trace Hd]|].
    destruct (bool_decide _); simpl;
      (intros [Hw|[d Hd]]; [done|absent_from_trace Hd]).
  - unfold stopForFolder. destruct (JSMap.get _ _); simpl;
      (intros [Hw|[d Hd]]; [done|absent_from_trace Hd]).
  - unfold stopAll_loop.
    destruct (JSMap.next _ _) as [[pos' [key' client']]|]; simpl.
    + intros [Hw|[d Hd]]; [done|absent_from_trace Hd].
    + intros _. left. split; [done|].
      by destruct (stopAll_finish_returns s) as (s' & disposed & ->).
  - unfold notifyDocumentOpenIfNeeded.
    destruct (supportedLanguage _ _); simpl;
      [|intros [Hw|[d Hd]]; [done|absent_from_trace Hd]].
    destruct (getWorkspaceFolder _ _) as [folder|]; simpl;
      [|intros [Hw|[d Hd]]; [done|absent_from_trace Hd]].
    destruct (JSMap.get (clients s) _); simpl;
      [|intros [Hw|[d Hd]]; [done|absent_from_trace Hd]].
    pose proof (getDiagnosticCacheForFolder_frame folder s) as (_ & Hsame & _).
    destruct (getDiagnosticCacheForFolder folder s) as [cache s1].
    simpl in Hsame.
    destruct (cache_has _ _ _); simpl;
      (intros [Hw|[d Hd]]; [done|absent_from_trace Hd]).
  - pose proof (getDiagnosticCacheForFolder_frame folder s) as (_ & Hsame & _).
    intros [Hw|[d Hd]]; [done|absent_from_trace Hd].
  - intros _. right. by exists folder, ds.
  - unfold cache_set. destruct (caches s !! cache); simpl;
      (intros [Hw|[d Hd]]; [done|absent_from_trace Hd]).
Qed.

(** ** Building reachable states *)

Lemma reachable_call opts ws c sys :
  reachable opts sys ->
  reachable opts (advance sys [] (tasks sys) (invoke opts ws c (manager sys))).
Proof. intros Hreach. eapply rtc_r; [exact Hreach|apply sys_call]. Qed.

Lemma reachable_resume opts ws before k after (r : result (answer k)) sys :
  reachable opts sys ->
  tasks sys = before ++ k :: after ->
  reachable opts (advance sys before after (resume opts ws k r (manager sys))).
Proof. intros Hreach Htasks. eapply rtc_r; [exact Hreach|by apply sys_resume]. Qed.

Lemma cliTool_running_reachable : reachable Scenario.healthy Scenario.cliTool_running.
Proof.
  unfold Scenario.cliTool_running. cbv zeta.
  do 5 (apply reachable_resume; [|reflexivity]).
  do 2 apply reachable_call. apply rtc_refl.
Qed.

(** * The claims *)

(** C1. [startForFolder] is idempotent and single-flight.  A call for a
    key that has a registered connection, or for which a start attempt is
    in flight in any reachable state of the interleaved system, returns at
    once, invokes nothing and changes nothing; so when a first call has
    registered a connection, the two calls together invoke the factory
    once and the table holds one record for the key.  The key enters the
    guard set in the synchronous stretch that ends at the first suspension,
    stays there while the attempt is suspended and leaves it exactly when
    the attempt ends, however it ends; attempts in flight are never
    nested. *)
Theorem C1_startForFolder_single_flight opts folder :
  let key := getFolderKey folder in
  (forall s, JSMap.has (clients s) key = true ->
     startForFolder folder s = returned s [])
  /\ (forall sys, reachable opts sys -> key ∈ in_flight sys ->
        startForFolder folder (manager sys) = returned (manager sys) [])
  /\ (forall ws s,
        JSMap.has (clients s) key = false ->
        let x := await_startForFolder opts ws folder s in
        JSMap.has (clients (st x)) key = true ->
        let y := await_startForFolder opts ws folder (st x) in
        y = returned (st x) []
        /\ count is_CreateClient (out x ++ out y) = 1
        /\ length (filter (fun e => e.1 = key) (JSMap.live (clients (st y)))) = 1)
  /\ (forall s,
        JSMap.has (clients s) key = false -> key ∉ pendingStarts s ->
        startForFolder folder s
        = suspended (with_pendingStarts s ({[key]} ∪ pendingStarts s))
            [ShouldEnableForFolder folder] (StartEnable folder)
        /\ key ∈ pendingStarts (st (startForFolder folder s)))
  /\ (forall ws k (r : result (answer k)) s,
        attempt_key k = Some key -> key ∈ pendingStarts s ->
        match task (resume opts ws k r s) with
        | Await k' =>
            attempt_key k' = Some key /\ key ∈ pendingStarts (st (resume opts ws k r s))
        | Done _ => key ∉ pendingStarts (st (resume opts ws k r s))
        end)
  /\ (forall sys, reachable opts sys -> single_flight sys).
Proof.
  intros key. split; [|split; [|split; [|split; [|split]]]].
  - intros s Hhas. unfold startForFolder. fold key. by rewrite Hhas.
  - intros sys Hreach Hin. unfold startForFolder. fold key.
    destruct (JSMap.has _ _); [done|].
    apply reachable_single_flight in Hreach as [_ Hiff].
    by rewrite bool_decide_eq_true_2 by (by apply Hiff).
  - intros ws s Hfree x Hreg y.
    assert (y = returned (st x) []) as ->.
    { subst y. rewrite await_startForFolder_direct.
      unfold startForFolder_direct. fold key. by rewrite Hreg. }
    split; [done|]. unfold returned at 1 2. cbn [out st].
    rewrite app_nil_r. revert Hreg. subst x.
    rewrite await_startForFolder_direct. unfold startForFolder_direct.
    fold key. rewrite Hfree.
    destruct (bool_decide _); [simpl; congruence|].
    set (s0 := with_pendingStarts s _).
    unfold startForFolder_try. fold key.
    assert (forall (s1 : ClientManager) evs,
              JSMap.has
                (clients (st (reported opts folder (rolled_back folder s1) evs)))
                key = true -> False)
      as Hrolled.
    { intros s1 evs. rewrite reported_st.
      destruct (rolled_back_fields folder s1) as (-> & _).
      fold key. by rewrite has_delete. }
    destruct (shouldEnableForFolder opts folder) as [[|]|error]; cbn [st returned];
      [|simpl; congruence|by intros ?%Hrolled].
    destruct (createClient opts folder) as [[client|]|error]; cbn [st returned];
      [|simpl; congruence|by intros ?%Hrolled].
    destruct (start opts client) as [[]|error]; cbn [st returned];
      [|by intros ?%Hrolled].
    unfold new_cache.
    destruct (send_all _ _ _) as [notified [error|]]; cbn [st out returned];
      [by intros ?%Hrolled|].
    intros _. split.
    + rewrite !count_app.
      rewrite (count_none _ (SendDidOpen client <$> notified))
        by (by apply Forall_fmap_event).
      done.
    + apply JSMapFacts.has_false in Hfree.
      cbn [clients startForFolder_finally with_pendingStarts
             with_diagnosticCaches with_caches with_clients]. subst s0.
      cbn [clients with_pendingStarts].
      rewrite JSMapFacts.live_set_absent by done.
      rewrite filter_app, records_of_absent by done.
      by rewrite filter_cons_True.
  - intros s Hfree Hguard. unfold startForFolder. fold key.
    rewrite Hfree, bool_decide_eq_false_2 by done. split; [done|].
    simpl. apply elem_of_union_l, elem_of_singleton. done.
  - intros ws k r s Hk Hin.
    pose proof (resume_guard opts ws k r s) as Hg. rewrite Hk in Hg.
    destruct (task (resume opts ws k r s)) as [r'|k'].
    + rewrite Hg. set_solver.
    + destruct Hg as [-> ->]. done.
  - apply reachable_single_flight.
Qed.

Lemma C1_startForFolder_single_flight_witness :
  (* after a completed start *)
  (let x := await_startForFolder Scenario.healthy Scenario.host Scenario.railsApp
              new_ClientManager in
   let y := await_startForFolder Scenario.healthy Scenario.host Scenario.railsApp
              (st x) in
   y = returned (st x) []
   /\ count is_CreateClient (out x ++ out y) = 1
   /\ length (filter (fun e => e.1 = getFolderKey Scenario.railsApp)
                (JSMap.live (clients (st y)))) = 1)
  (* while an attempt is in flight *)
  /\ startForFolder Scenario.railsApp (manager Scenario.starting)
     = returned (manager Scenario.starting) []
  /\ single_flight Scenario.starting.
Proof.
  pose proof (C1_startForFolder_single_flight Scenario.healthy Scenario.railsApp)
    as (_ & Hflight & Htwice & _ & _ & Hinv).
  assert (reachable Scenario.healthy Scenario.starting) as Hreach.
  { apply rtc_once. apply sys_call. }
  split; [|split].
  - apply Htwice; reflexivity.
  - apply Hflight; [exact Hreach|]. apply list_elem_of_here.
  - apply Hinv. exact Hreach.
Defined.

(** C2, as stated, fails: with the handshake resolved, a rejected open
    notification ends the replay, so a later owned document gets no
    notification and the status-refresh callback is not invoked. *)
Lemma C2_counterexample :
  ~ (forall opts ws folder s client,
       JSMap.has (clients s) (getFolderKey folder) = false ->
       getFolderKey folder ∉ pendingStarts s ->
       shouldEnableForFolder opts folder = Resolved true ->
       createClient opts folder = Resolved (Some client) ->
       start opts client = Resolved tt ->
       let x := await_startForFolder opts ws folder s in
       (forall doc, doc ∈ textDocuments ws -> owned_by opts ws folder doc = true ->
          SendDidOpen client doc ∈ out x)
       /\ OnStatusUpdate ∈ out x).
Proof.
  intros H.
  destruct (H Scenario.send_rejects Scenario.host Scenario.railsApp
              new_ClientManager (Scenario.client_of Scenario.railsApp))
    as [_ Hstatus]; try reflexivity.
  - apply not_elem_of_empty.
  - vm_compute in Hstatus. absent_from_trace Hstatus.
Qed.

(** C2, amended.  For a call that passes both guards: a disabled folder is
    logged and nothing else happens; a factory that resolves to null leaves
    no trace but the two calls; a connection the factory produces is in the
    table when its start handshake is issued; and once the handshake has
    resolved, the key's cache is a fresh empty object, open notifications
    go, in document order, to the open documents of a supported language
    that the folder owns, up to the first rejected send, and when no send is
    rejected every such document is notified and the status-refresh
    callback is then invoked. *)
Theorem C2_startForFolder_paths opts ws folder s :
  JSMap.has (clients s) (getFolderKey folder) = false ->
  getFolderKey folder ∉ pendingStarts s ->
  let key := getFolderKey folder in
  let x := await_startForFolder opts ws folder s in
  let owned := filter (fun d => owned_by opts ws folder d = true) (textDocuments ws) in
  (shouldEnableForFolder opts folder = Resolved false ->
     x = returned s [ShouldEnableForFolder folder; Log (msg_skipping folder)])
  /\ (shouldEnableForFolder opts folder = Resolved true ->
      createClient opts folder = Resolved None ->
      x = returned s [ShouldEnableForFolder folder; CreateClient folder])
  /\ (forall client s',
        let y := resume opts ws (StartCreate folder) (Resolved (Some client)) s' in
        task y = Await (StartHandshake client folder)
        /\ out y = [ClientStart client]
        /\ JSMap.get (clients (st y)) key = Some client)
  /\ (forall client,
        shouldEnableForFolder opts folder = Resolved true ->
        createClient opts folder = Resolved (Some client) ->
        start opts client = Resolved tt ->
        JSMap.get (diagnosticCaches (st x)) key = Some (length (caches s))
        /\ caches s !! length (caches s) = None
        /\ caches (st x) = caches s ++ [∅]
        /\ filter (fun e => is_SendDidOpen e = true) (out x)
           = SendDidOpen client <$> (send_all opts client owned).1
        /\ (exists rest, owned = (send_all opts client owned).1 ++ rest)
        /\ ((send_all opts client owned).2 = None ->
            out x = [ShouldEnableForFolder folder; CreateClient folder;
                     ClientStart client]
                    ++ (SendDidOpen client <$> owned)
                    ++ [OnStatusUpdate; Log (msg_started folder)]
            /\ JSMap.get (clients (st x)) key = Some client)
        /\ ((forall doc, doc ∈ owned -> sendNotification opts client doc = Resolved tt) ->
            (send_all opts client owned).2 = None)).
Proof.
  intros Hfree Hguard key x owned. subst x.
  rewrite await_startForFolder_direct. unfold startForFolder_direct.
  rewrite Hfree, bool_decide_eq_false_2 by done.
  set (s0 := with_pendingStarts s _). unfold startForFolder_try. fold key owned.
  split; [|split; [|split]].
  - intros ->. subst s0 key. by rewrite startForFolder_finally_guard.
  - intros -> ->. subst s0 key. by rewrite startForFolder_finally_guard.
  - intros client s'. simpl. repeat split. apply JSMapFacts.get_set_eq.
  - intros client -> -> ->. unfold new_cache.
    pose proof (send_all_prefix opts client owned) as Hprefix.
    pose proof (send_all_complete opts client owned) as Hcomplete.
    pose proof (send_all_resolved opts client owned) as Hresolved.
    destruct (send_all opts client owned) as [notified [error|]];
      cbn [st out returned fst snd] in *.
    + rewrite ?reported_st, ?reported_out.
      destruct (rolled_back_fields folder
                  (with_diagnosticCaches
                     (with_caches (with_clients s0 (JSMap.set (clients s0) key client))
                        (caches (with_clients s0 (JSMap.set (clients s0) key client))
                           ++ [∅]))
                     (JSMap.set (diagnosticCaches
                        (with_caches (with_clients s0 (JSMap.set (clients s0) key client))
                           (caches (with_clients s0 (JSMap.set (clients s0) key client))
                              ++ [∅])))
                        key
                        (length (caches (with_clients s0
                                           (JSMap.set (clients s0) key client)))))))
        as (_ & _ & -> & -> & _).
      rewrite rollback_events_spec.
      split; [apply JSMapFacts.get_set_eq|].
      split; [by apply lookup_ge_None_2|]. split; [done|].
      split; [|split; [done|split; [done|]]].
      * rewrite !filter_app. simpl.
        rewrite (filter_all is_SendDidOpen (SendDidOpen client <$> notified))
          by (by apply Forall_fmap_event).
        rewrite (filter_none is_SendDidOpen (Dispose <$> _))
          by (by apply Forall_fmap_event).
        by rewrite app_nil_r.
      * intros Hok. by specialize (Hresolved Hok).
    + split; [apply JSMapFacts.get_set_eq|].
      split; [by apply lookup_ge_None_2|]. split; [done|].
      split; [|split; [done|split; [|done]]].
      * rewrite !filter_app. simpl.
        rewrite (filter_all is_SendDidOpen (SendDidOpen client <$> notified))
          by (by apply Forall_fmap_event).
        by rewrite app_nil_r.
      * intros _. rewrite Hcomplete by done. split; [done|].
        simpl. apply JSMapFacts.get_set_eq.
Qed.

Lemma C2_startForFolder_paths_witness :
  let x := await_startForFolder Scenario.healthy Scenario.host Scenario.railsApp
             new_ClientManager in
  out x = [ShouldEnableForFolder Scenario.railsApp; CreateClient Scenario.railsApp;
           ClientStart 9]
          ++ (SendDidOpen 9 <$> [Scenario.user_rb; Scenario.post_rb])
          ++ [OnStatusUpdate; Log (msg_started Scenario.railsApp)]
  /\ JSMap.get (clients (st x)) (getFolderKey Scenario.railsApp) = Some 9.
Proof.
  pose proof (C2_startForFolder_paths Scenario.healthy Scenario.host
                Scenario.railsApp new_ClientManager) as H.
  destruct H as (_ & _ & _ & H); [reflexivity | apply not_elem_of_empty |].
  destruct (H 9) as (_ & _ & _ & _ & _ & Hok & _); try reflexivity.
  apply Hok. reflexivity.
Defined.
(** C3, as stated, fails: the error callback is awaited inside the
    [catch] block, so when the factory throws and the callback's promise
    then rejects, [startForFolder] rejects instead of returning
    normally. *)
Lemma C3_counterexample :
  ~ (forall opts ws folder s error,
       JSMap.has (clients s) (getFolderKey folder) = false ->
       getFolderKey folder ∉ pendingStarts s ->
       shouldEnableForFolder opts folder = Resolved true ->
       createClient opts folder = Rejected error ->
       task (await_startForFolder opts ws folder s) = Done (Resolved tt)).
Proof.
  intros H.
  specialize (H Scenario.callback_rejects Scenario.host Scenario.railsApp
                new_ClientManager "Error: Connection failed").
  discriminate H; [reflexivity|apply not_elem_of_empty|reflexivity..].
Qed.

(** C3, amended.  A start attempt whose enablement check, factory or start
    handshake throws is rolled back: the connection table shows what it
    showed before the attempt and has no entry for the key, the watchers
    stored for the key are disposed and their entry removed, the error
    callback is invoked exactly once with a message containing the folder's
    name, the entries of every other key and the diagnostic caches are
    untouched, and the guard is released.  The call then settles as the
    error callback does: it returns normally when the callback resolves,
    and rejects with the callback's error when the callback rejects. *)
Theorem C3_failed_start_is_rolled_back opts ws folder s error :
  JSMap.has (clients s) (getFolderKey folder) = false ->
  getFolderKey folder ∉ pendingStarts s ->
  shouldEnableForFolder opts folder = Rejected error
  \/ (shouldEnableForFolder opts folder = Resolved true
      /\ createClient opts folder = Rejected error)
  \/ (exists client,
        shouldEnableForFolder opts folder = Resolved true
        /\ createClient opts folder = Resolved (Some client)
        /\ start opts client = Rejected error) ->
  let x := await_startForFolder opts ws folder s in
  (onError opts (msg_failed folder) folder = Resolved tt ->
   task x = Done (Resolved tt))
  /\ (forall error', onError opts (msg_failed folder) folder = Rejected error' ->
      task x = Done (Rejected error'))
  /\ JSMap.live (clients (st x)) = JSMap.live (clients s)
  /\ size (st x) = size s
  /\ JSMap.get (clients (st x)) (getFolderKey folder) = None
  /\ JSMap.get (watchers (st x)) (getFolderKey folder) = None
  /\ filter (fun e => is_Dispose e = true) (out x)
     = Dispose <$> default [] (JSMap.get (watchers s) (getFolderKey folder))
  /\ filter (fun e => is_OnError e = true) (out x)
     = [OnError (msg_failed folder) folder]
  /\ contains (msg_failed folder) (folder_name folder)
  /\ (forall key, key ≠ getFolderKey folder ->
        JSMap.get (clients (st x)) key = JSMap.get (clients s) key
        /\ JSMap.get (watchers (st x)) key = JSMap.get (watchers s) key)
  /\ diagnosticCaches (st x) = diagnosticCaches s
  /\ caches (st x) = caches s
  /\ pendingStarts (st x) = pendingStarts s.
Proof.
  intros Hfree Hguard Hfail x. subst x.
  rewrite await_startForFolder_direct. unfold startForFolder_direct.
  rewrite Hfree, bool_decide_eq_false_2 by done.
  set (key := getFolderKey folder) in *.
  set (s0 := with_pendingStarts s _).
  assert (exists s1 called,
            startForFolder_try opts ws folder s0 = (s1, called, Some error)
            /\ Forall (fun e => is_start_call e = true) called
            /\ JSMap.live (JSMap.delete (clients s1) key) = JSMap.live (clients s)
            /\ (forall key', key' ≠ key ->
                  JSMap.get (clients s1) key' = JSMap.get (clients s) key')
            /\ watchers s1 = watchers s /\ diagnosticCaches s1 = diagnosticCaches s
            /\ caches s1 = caches s /\ pendingStarts s1 = {[key]} ∪ pendingStarts s)
    as (s1 & called & -> & Hcalled & Hlive & Hother & Hw & Hd & Hc & Hp).
  { apply JSMapFacts.has_false in Hfree. unfold startForFolder_try.
    destruct Hfail as [->|[[-> ->]|(client & -> & -> & ->)]].
    - exists s0, [ShouldEnableForFolder folder]. repeat split; simpl.
      + by repeat constructor.
      + by rewrite JSMapFacts.delete_absent.
    - exists s0, [ShouldEnableForFolder folder; CreateClient folder].
      repeat split; simpl.
      + by repeat constructor.
      + by rewrite JSMapFacts.delete_absent.
    - exists (with_clients s0 (JSMap.set (clients s0) key client)),
        ([ShouldEnableForFolder folder; CreateClient folder] ++ [ClientStart client]).
      repeat split; simpl.
      + by repeat constructor.
      + by apply JSMapFacts.live_delete_set_absent.
      + intros key' Hne. by rewrite JSMapFacts.get_set_ne. }
  destruct (rolled_back_fields folder s1) as (Hrc & Hrw & Hrd & Hrh & Hrp).
  fold key in Hrc, Hrw, Hrp.
  rewrite reported_st, reported_out, reported_task.
  rewrite rollback_events_spec. fold key.
  split; [by intros ->|]. split; [by intros error' ->|].
  repeat split.
  - by rewrite Hrc.
  - unfold size, JSMap.size. by rewrite Hrc, Hlive.
  - rewrite Hrc. apply JSMapFacts.get_delete_eq.
  - rewrite Hrw. apply JSMapFacts.get_delete_eq.
  - rewrite !filter_app, Hw.
    rewrite (filter_none is_Dispose called).
    + rewrite filter_all by (by apply Forall_fmap_event). simpl.
      by rewrite app_nil_r.
    + eapply Forall_impl; [exact Hcalled|]. by intros [].
  - rewrite !filter_app.
    rewrite (filter_none is_OnError called)
      by (eapply Forall_impl; [exact Hcalled|]; by intros []).
    by rewrite (filter_none is_OnError (Dispose <$> _))
      by (by apply Forall_fmap_event).
  - apply msg_failed_contains_name.
  - rewrite Hrc, JSMapFacts.get_delete_ne by done. by apply Hother.
  - rewrite Hrw, JSMapFacts.get_delete_ne by done. by rewrite Hw.
  - by rewrite Hrd.
  - by rewrite Hrh.
  - rewrite Hrp, Hp. by apply guard_released.
Qed.

Lemma C3_failed_start_is_rolled_back_witness :
  let s := registerWatchers Scenario.railsApp [7] new_ClientManager in
  let x := await_startForFolder Scenario.factory_throws Scenario.host
             Scenario.railsApp s in
  let y := await_startForFolder Scenario.callback_rejects Scenario.host
             Scenario.railsApp s in
  task x = Done (Resolved tt)
  /\ size (st x) = size s
  /\ filter (fun e => is_Dispose e = true) (out x) = [Dispose 7]
  /\ filter (fun e => is_OnError e = true) (out x)
     = [OnError (msg_failed Scenario.railsApp) Scenario.railsApp]
  /\ task y = Done (Rejected "Error: Canceled")
  /\ JSMap.get (watchers (st y)) (getFolderKey Scenario.railsApp) = None
  /\ pendingStarts (st y) = pendingStarts s.
Proof.
  pose proof (C3_failed_start_is_rolled_back Scenario.factory_throws Scenario.host
                Scenario.railsApp
                (registerWatchers Scenario.railsApp [7] new_ClientManager)
                "Error: Connection failed") as H.
  pose proof (C3_failed_start_is_rolled_back Scenario.callback_rejects
                Scenario.host Scenario.railsApp
                (registerWatchers Scenario.railsApp [7] new_ClientManager)
                "Error: Connection failed") as H'.
  destruct H as (H1 & _ & _ & H3 & _ & _ & H6 & H7 & _).
  - reflexivity.
  - apply not_elem_of_empty.
  - right. left. split; reflexivity.
  - destruct H' as (_ & H2' & _ & _ & _ & H5' & _ & _ & _ & _ & _ & _ & H12').
    + reflexivity.
    + apply not_elem_of_empty.
    + right. left. split; reflexivity.
    + split; [apply H1; reflexivity|]. split; [exact H3|]. split; [exact H6|].
      split; [exact H7|]. split; [apply H2'; reflexivity|].
      split; [exact H5'|exact H12'].
Defined.

(** C4 is violated by the code.  When the handshake of client 9 has
    resolved and its first open notification is rejected, the [catch] block
    removes the client from the table; the run issues no stop handshake,
    so the started client is left running with no entry in the table. *)
Theorem C4_started_client_dropped_unstopped :
  let x := await_startForFolder Scenario.send_rejects Scenario.host
             Scenario.railsApp new_ClientManager in
  createClient Scenario.send_rejects Scenario.railsApp = Resolved (Some 9)
  /\ start Scenario.send_rejects 9 = Resolved tt
  /\ out x = [ShouldEnableForFolder Scenario.railsApp;
              CreateClient Scenario.railsApp;
              ClientStart 9;
              SendDidOpen 9 Scenario.user_rb;
              Log (msg_failed_log Scenario.railsApp "Error: connection got disposed");
              OnError (msg_failed Scenario.railsApp) Scenario.railsApp]
  /\ count is_ClientStop (out x) = 0
  /\ task x = Done (Resolved tt)
  /\ JSMap.live (clients (st x)) = []
  /\ pendingStarts (st x) = ∅.
Proof. repeat split; reflexivity. Qed.

(** C5. [stopForFolder] is idempotent.  With no connection registered
    for the key it does nothing.  With one registered and the stop
    handshake resolved, the key leaves the connection table, its cache
    entry is deleted and its watchers are disposed and removed; a second
    stop then does nothing, and the next [getDiagnosticCacheForFolder] for
    the key registers and returns a new, empty cache object, which is none
    of the objects that existed before the stop. *)
Theorem C5_stopForFolder_clears_the_key opts ws folder s :
  let key := getFolderKey folder in
  (JSMap.get (clients s) key = None ->
     await_stopForFolder opts ws folder s = returned s [])
  /\ (forall client,
        JSMap.get (clients s) key = Some client ->
        stop opts client = Resolved tt ->
        let x := await_stopForFolder opts ws folder s in
        let fresh := getDiagnosticCacheForFolder folder (st x) in
        task x = Done (Resolved tt)
        /\ out x = [Log (msg_stopping folder); ClientStop client]
                   ++ (Dispose <$> default [] (JSMap.get (watchers s) key))
        /\ JSMap.get (clients (st x)) key = None
        /\ JSMap.get (diagnosticCaches (st x)) key = None
        /\ JSMap.get (watchers (st x)) key = None
        /\ await_stopForFolder opts ws folder (st x) = returned (st x) []
        /\ caches s !! fresh.1 = None
        /\ (forall old content,
              JSMap.get (diagnosticCaches s) key = Some old ->
              caches s !! old = Some content -> fresh.1 ≠ old)
        /\ caches fresh.2 !! fresh.1 = Some ∅
        /\ JSMap.get (diagnosticCaches fresh.2) key = Some fresh.1).
Proof.
  intros key. unfold await_stopForFolder, stopForFolder. fold key. split.
  - intros ->. by apply (run_done _ _ _ _ (Resolved tt)).
  - intros client Hclient Hstop. rewrite Hclient.
    change (suspended s [Log (msg_stopping folder); ClientStop client]
              (StopHandshake folder client))
      with (with_out [] (suspended s [Log (msg_stopping folder); ClientStop client]
                           (StopHandshake folder client))).
    rewrite run_suspended. cbn [resume settle]. rewrite Hstop.
    fold key. rewrite cleanupWatchers_spec. rewrite run_returned.
    cbn [st out task returned fst snd watchers with_diagnosticCaches with_clients].
    set (s' := with_watchers _ _).
    assert (JSMap.get (clients s') key = None) as Hc
      by apply JSMapFacts.get_delete_eq.
    assert (JSMap.get (diagnosticCaches s') key = None) as Hd
      by apply JSMapFacts.get_delete_eq.
    assert (getDiagnosticCacheForFolder folder s'
            = (length (caches s),
               with_diagnosticCaches (with_caches s' (caches s ++ [∅]))
                 (JSMap.set (diagnosticCaches s') key (length (caches s))))) as ->.
    { unfold getDiagnosticCacheForFolder. fold key. by rewrite Hd. }
    cbn [fst snd].
    split; [done|]. split; [done|]. split; [done|]. split; [done|].
    split; [apply JSMapFacts.get_delete_eq|].
    split; [by rewrite Hc|].
    split; [by apply lookup_ge_None_2|].
    split; [|split].
    + intros old content _ Hold <-. apply lookup_lt_Some in Hold. lia.
    + cbn [caches with_diagnosticCaches with_caches].
      by apply list_lookup_middle.
    + simpl. apply JSMapFacts.get_set_eq.
Qed.

Lemma C5_stopForFolder_clears_the_key_witness :
  let s := Scenario.both_running in
  let x := await_stopForFolder Scenario.healthy Scenario.host Scenario.railsApp s in
  let fresh := getDiagnosticCacheForFolder Scenario.railsApp (st x) in
  out x = [Log (msg_stopping Scenario.railsApp); ClientStop 9; Dispose 20]
  /\ JSMap.get (clients (st x)) (getFolderKey Scenario.railsApp) = None
  /\ fresh.1 ≠ 0
  /\ caches fresh.2 !! fresh.1 = Some ∅.
Proof.
  pose proof (C5_stopForFolder_clears_the_key Scenario.healthy Scenario.host
                Scenario.railsApp Scenario.both_running) as [_ H].
  destruct (H 9) as (_ & Hout & Hc & _ & _ & _ & _ & Hold & Hnew & _);
    try reflexivity.
  split; [exact Hout|]. split; [exact Hc|]. split; [|exact Hnew].
  apply (Hold 0 ∅); reflexivity.
Defined.

(** C6. A rejected stop handshake runs no cleanup.  [stopForFolder]
    rejects with the state exactly as it was, so the connection entry, the
    cache entry and the watchers of the key stay.  Inside [stopAll] the
    pass ends at the failing record: the records before it are stopped and
    removed, the failing record and those after it stay registered and are
    not stopped, the cache registry is not cleared and no watcher is
    disposed, and [stopAll] rejects. *)
Theorem C6_rejected_stop_skips_cleanup opts ws s error :
  (forall folder client s',
     resume opts ws (StopHandshake folder client) (Rejected error) s'
     = threw s' [] error)
  /\ (forall folder client,
        JSMap.get (clients s) (getFolderKey folder) = Some client ->
        stop opts client = Rejected error ->
        await_stopForFolder opts ws folder s
        = threw s [Log (msg_stopping folder); ClientStop client] error)
  /\ (forall before key client after,
        wf_map (clients s) ->
        JSMap.live (clients s) = before ++ (key, client) :: after ->
        (forall k' c', (k', c') ∈ before -> stop opts c' = Resolved tt) ->
        stop opts client = Rejected error ->
        let x := await_stopAll opts ws s in
        task x = Done (Rejected error)
        /\ out x = Log msg_stopping_all :: (ClientStop <$> before.*2)
                   ++ [ClientStop client]
        /\ JSMap.live (clients (st x)) = (key, client) :: after
        /\ diagnosticCaches (st x) = diagnosticCaches s
        /\ watchers (st x) = watchers s
        /\ caches (st x) = caches s
        /\ count is_Dispose (out x) = 0).
Proof.
  split; [done|]. split.
  - intros folder client Hclient Hstop.
    unfold await_stopForFolder, stopForFolder. rewrite Hclient.
    change (suspended s [Log (msg_stopping folder); ClientStop client]
              (StopHandshake folder client))
      with (with_out [] (suspended s [Log (msg_stopping folder); ClientStop client]
                           (StopHandshake folder client))).
    rewrite run_suspended. cbn [resume settle]. rewrite Hstop.
    by rewrite run_threw, app_nil_r.
  - intros before key client after Hwf Hlive Hok Hrej x. subst x.
    unfold await_stopAll, stopAll.
    destruct (run_stopAll_loop_rejected opts ws (clients s) [] s
                [Log msg_stopping_all] (length (clients s))
                before key client after error eq_refl Hwf Hlive Hok Hrej (le_n _))
      as (m' & Hrun & Hm').
    unfold with_out in Hrun at 1. simpl in Hrun. rewrite Hrun.
    unfold threw. cbn [st out task clients diagnosticCaches watchers caches with_clients].
    split; [done|]. split; [done|]. split; [done|].
    split; [done|]. split; [done|]. split; [done|].
    change (Log msg_stopping_all :: ((ClientStop <$> before.*2) ++ [ClientStop client]))
      with ([Log msg_stopping_all] ++ (ClientStop <$> before.*2) ++ [ClientStop client]).
    rewrite !count_app. rewrite !count_none; [done|by repeat constructor| |by repeat constructor].
    by apply Forall_fmap_event.
Qed.

Lemma C6_rejected_stop_skips_cleanup_witness :
  let s := Scenario.both_running in
  await_stopForFolder Scenario.stop_rejects Scenario.host Scenario.cliTool s
  = threw s [Log (msg_stopping Scenario.cliTool); ClientStop 8] "Error: stop timed out"
  /\ (let x := await_stopAll Scenario.stop_rejects Scenario.host s in
      task x = Done (Rejected "Error: stop timed out")
      /\ out x = [Log msg_stopping_all; ClientStop 9; ClientStop 8]
      /\ JSMap.live (clients (st x)) = [(getFolderKey Scenario.cliTool, 8)]
      /\ diagnosticCaches (st x) = diagnosticCaches s
      /\ watchers (st x) = watchers s).
Proof.
  pose proof (C6_rejected_stop_skips_cleanup Scenario.stop_rejects Scenario.host
                Scenario.both_running "Error: stop timed out") as (_ & Hone & Hall).
  split.
  - apply Hone; reflexivity.
  - destruct (Hall [(getFolderKey Scenario.railsApp, 9)]
                (getFolderKey Scenario.cliTool) 8 [])
      as (Ht & Hout & Hlive & Hd & Hw & _); try reflexivity.
    + vm_compute. repeat constructor; intros Hin; absent_from_trace Hin.
    + intros k' c' Hin. apply list_elem_of_singleton in Hin as [= -> ->].
      reflexivity.
    + repeat split; assumption.
Defined.

(** C7. When every stop handshake resolves, [stopAll] is the walk of a
    snapshot of the connection table: each record registered at entry is
    stopped exactly once, in insertion order, and removed, although the
    map is iterated while records are deleted from it.  Afterwards the
    connection table and the cache registry show no record, and every
    registered watcher list, also of keys without a connection, has been
    disposed and removed. *)
Theorem C7_stopAll_stops_every_registered_key opts ws s :
  wf_map (clients s) ->
  wf_map (watchers s) ->
  (forall key client, (key, client) ∈ JSMap.live (clients s) ->
     stop opts client = Resolved tt) ->
  let x := await_stopAll opts ws s in
  x = stopAll_snapshot opts s
  /\ task x = Done (Resolved tt)
  /\ out x = Log msg_stopping_all
             :: (ClientStop <$> (JSMap.live (clients s)).*2)
             ++ (Dispose <$> concat (JSMap.live (watchers s)).*2)
  /\ JSMap.live (clients (st x)) = []
  /\ JSMap.live (diagnosticCaches (st x)) = []
  /\ JSMap.live (watchers (st x)) = []
  /\ (forall key,
        JSMap.get (clients (st x)) key = None
        /\ JSMap.get (diagnosticCaches (st x)) key = None
        /\ JSMap.get (watchers (st x)) key = None)
  /\ pendingStarts (st x) = pendingStarts s
  /\ caches (st x) = caches s.
Proof.
  intros Hwfc Hwfw Hstop x. split; [by apply await_stopAll_snapshot|].
  subst x. unfold await_stopAll, stopAll.
  pose proof (run_stopAll_loop opts ws (clients s) [] s [Log msg_stopping_all]
                (length (clients s)) eq_refl Hwfc Hstop (le_n _)) as Hrun.
  unfold with_out in Hrun at 1. simpl in Hrun. rewrite Hrun. clear Hrun.
  unfold stopAll_finish. rewrite cleanupAllWatchers_spec by done.
  cbn [with_out st out task returned watchers with_diagnosticCaches with_clients].
  split; [done|]. split; [done|].
  split; [apply JSMapFacts.live_clear|].
  split; [apply JSMapFacts.live_clear|].
  split; [apply JSMapFacts.live_clear|].
  split; [|done].
  intros key. simpl. by rewrite !JSMapFacts.get_clear.
Qed.

Lemma C7_stopAll_stops_every_registered_key_witness :
  let x := await_stopAll Scenario.healthy Scenario.host Scenario.both_running in
  task x = Done (Resolved tt)
  /\ out x = [Log msg_stopping_all; ClientStop 9; ClientStop 8;
              Dispose 20; Dispose 30; Dispose 31]
  /\ JSMap.live (clients (st x)) = []
  /\ JSMap.live (watchers (st x)) = [].
Proof.
  pose proof (C7_stopAll_stops_every_registered_key Scenario.healthy Scenario.host
                Scenario.both_running) as H.
  destruct H as (_ & Ht & Hout & Hc & _ & Hw & _).
  - vm_compute. repeat constructor; intros Hin; absent_from_trace Hin.
  - vm_compute. repeat constructor; intros Hin; absent_from_trace Hin.
  - reflexivity.
  - repeat split; assumption.
Defined.
(** C8, as stated, fails, in both of its halves.  Disposable 1 is
    registered for the folder and then replaced by a second registration;
    the folder's connection is started and stopped, and everything is
    stopped once more, yet 1 is never disposed and the manager no longer
    holds it.  And a [stopAll] whose second stop handshake is rejected has
    removed the connection of the first folder, whose stop resolved,
    while the watchers of that folder are still stored and nothing was
    disposed. *)
Lemma C8_counterexample :
  let key := getFolderKey Scenario.railsApp in
  let s1 := registerWatchers Scenario.railsApp [1] new_ClientManager in
  let s2 := registerWatchers Scenario.railsApp [2] s1 in
  let x := await_startForFolder Scenario.healthy Scenario.host Scenario.railsApp s2 in
  let y := await_stopForFolder Scenario.healthy Scenario.host Scenario.railsApp (st x) in
  let z := await_stopAll Scenario.healthy Scenario.host (st y) in
  let w := await_stopAll Scenario.stop_rejects Scenario.host Scenario.both_running in
  (JSMap.get (watchers s1) key = Some [1]
   /\ JSMap.get (watchers s2) key = Some [2]
   /\ JSMap.get (clients (st x)) key = Some 9
   /\ JSMap.get (clients (st y)) key = None
   /\ filter (fun e => is_Dispose e = true) (out x ++ out y ++ out z) = [Dispose 2]
   /\ (Dispose 1 ∉ out x ++ out y ++ out z)
   /\ JSMap.live (watchers (st y)) = [])
  /\ (JSMap.get (clients Scenario.both_running) key = Some 9
      /\ ClientStop 9 ∈ out w
      /\ JSMap.get (clients (st w)) key = None
      /\ JSMap.get (watchers (st w)) key = Some [20]
      /\ filter (fun e => is_Dispose e = true) (out w) = []).
Proof.
  split.
  - repeat split; try reflexivity.
    vm_compute. intros Hin. absent_from_trace Hin.
  - repeat split; try reflexivity.
    vm_compute. apply list_elem_of_further, list_elem_of_here.
Qed.

(** C8, amended.  The watcher list stored for a key is disposed, and its
    entry removed, in three situations: when the stop handshake of
    [stopForFolder] for the key resolves, together with the key's
    connection; in the cleanup of a failed start for the key, together with
    the key's connection if one was registered; and at the end of a
    [stopAll] all of whose stop handshakes resolved, which disposes and
    removes every stored list, in a run of its own as well as in the
    resumption that finds no further record.  A [stopAll] in which a stop handshake is
    rejected removes the connections it stopped before and leaves every
    watcher list stored and undisposed.  [registerWatchers] replaces the
    list stored for the key and disposes nothing: a disposable of the
    replaced list that is in no list the manager still holds is in none
    afterwards.  No other step of the manager disposes anything or changes
    the watcher table, and the manager only ever disposes disposables of
    lists it holds. *)
Theorem C8_stored_watchers_are_disposed opts ws folder s :
  let key := getFolderKey folder in
  let stored := default [] (JSMap.get (watchers s) key) in
  (forall client,
     let x := resume opts ws (StopHandshake folder client) (Resolved tt) s in
     filter (fun e => is_Dispose e = true) (out x) = Dispose <$> stored
     /\ JSMap.get (watchers (st x)) key = None
     /\ JSMap.get (clients (st x)) key = None)
  /\ (forall error,
        let x := startForFolder_catch folder error s in
        filter (fun e => is_Dispose e = true) (out x) = Dispose <$> stored
        /\ JSMap.get (watchers (st x)) key = None
        /\ JSMap.get (clients (st x)) key = None)
  /\ (wf_map (clients s) ->
      wf_map (watchers s) ->
      (forall key' client, (key', client) ∈ JSMap.live (clients s) ->
         stop opts client = Resolved tt) ->
      let x := await_stopAll opts ws s in
      filter (fun e => is_Dispose e = true) (out x)
      = Dispose <$> concat (JSMap.live (watchers s)).*2
      /\ JSMap.live (watchers (st x)) = []
      /\ JSMap.live (clients (st x)) = [])
  /\ (forall pos key' client,
        wf_map (watchers s) ->
        JSMap.next (JSMap.delete (clients s) key') pos = None ->
        let y := resume opts ws (StopAllHandshake pos key' client)
                   (Resolved tt) s in
        task y = Done (Resolved tt)
        /\ filter (fun e => is_Dispose e = true) (out y)
           = Dispose <$> concat (JSMap.live (watchers s)).*2
        /\ JSMap.live (watchers (st y)) = [])
  /\ (forall before key' client after error,
        wf_map (clients s) ->
        JSMap.live (clients s) = before ++ (key', client) :: after ->
        (forall k c, (k, c) ∈ before -> stop opts c = Resolved tt) ->
        stop opts client = Rejected error ->
        let x := await_stopAll opts ws s in
        filter (fun e => is_Dispose e = true) (out x) = []
        /\ watchers (st x) = watchers s
        /\ (forall k c, (k, c) ∈ before ->
              JSMap.get (clients (st x)) k = None))
  /\ (forall ds,
        let s' := registerWatchers folder ds s in
        out (invoke opts ws (CallRegisterWatchers folder ds) s) = []
        /\ JSMap.get (watchers s') key = Some ds
        /\ (forall key', key' ≠ key ->
              JSMap.get (watchers s') key' = JSMap.get (watchers s) key')
        /\ (forall d,
              d ∈ stored -> d ∉ ds ->
              (forall key' ds', key' ≠ key ->
                 JSMap.get (watchers s) key' = Some ds' -> d ∉ ds') ->
              forall key' ds', JSMap.get (watchers s') key' = Some ds' -> d ∉ ds'))
  /\ (forall ws' k (r : result (answer k)),
        let y := resume opts ws' k r s in
        watchers (st y) <> watchers s \/ (exists d, Dispose d ∈ out y) ->
        (exists folder', task y = Await (StartOnError folder'))
        \/ (exists folder' client,
              k = StopHandshake folder' client /\ task y = Done (Resolved tt))
        \/ (exists pos key' client,
              k = StopAllHandshake pos key' client
              /\ task y = Done (Resolved tt)))
  /\ (forall ws' c,
        let y := invoke opts ws' c s in
        watchers (st y) <> watchers s \/ (exists d, Dispose d ∈ out y) ->
        (c = CallStopAll /\ task y = Done (Resolved tt))
        \/ (exists folder' ds, c = CallRegisterWatchers folder' ds /\ out y = []))
  /\ (forall ws' k (r : result (answer k)) c d,
        (Dispose d ∈ out (resume opts ws' k r s)
         \/ Dispose d ∈ out (invoke opts ws' c s)) ->
        exists key' ds, (key', ds) ∈ JSMap.live (watchers s) /\ d ∈ ds).
Proof.
  intros key stored.
  split; [|split; [|split; [|split; [|split; [|split; [|split; [|split]]]]]]].
  - intros client x. subst x. cbn [resume]. fold key.
    rewrite cleanupWatchers_spec. cbn [st out returned watchers clients
      with_watchers with_diagnosticCaches with_clients].
    fold stored. split; [|split].
    + apply filter_all. by apply Forall_fmap_event.
    + apply JSMapFacts.get_delete_eq.
    + apply JSMapFacts.get_delete_eq.
  - intros error x. subst x. unfold startForFolder_catch. fold key.
    rewrite cleanupWatchers_spec. cbn [st out suspended watchers clients
      with_watchers with_clients].
    fold stored. split; [|split].
    + rewrite filter_app. rewrite filter_all by (by apply Forall_fmap_event).
      simpl. by rewrite app_nil_r.
    + apply JSMapFacts.get_delete_eq.
    + apply JSMapFacts.get_delete_eq.
  - intros Hwfc Hwfw Hstop x. subst x.
    rewrite (await_stopAll_resolved opts ws s Hwfc Hwfw Hstop).
    cbn [returned st out watchers clients with_watchers with_diagnosticCaches
           with_clients].
    split; [|split; apply JSMapFacts.live_clear].
    rewrite filter_cons_False by done. rewrite filter_app.
    rewrite (filter_none is_Dispose (ClientStop <$> _))
      by (by apply Forall_fmap_event).
    rewrite filter_all by (by apply Forall_fmap_event). done.
  - intros pos key' client Hwfw Hnext y. subst y. cbn [resume].
    unfold stopAll_loop. cbn [clients with_clients]. rewrite Hnext.
    unfold stopAll_finish. rewrite cleanupAllWatchers_spec by done.
    cbn [returned st out task watchers with_watchers with_diagnosticCaches
           with_clients].
    split; [done|]. split; [|apply JSMapFacts.live_clear].
    apply filter_all. by apply Forall_fmap_event.
  - intros before key' client after error Hwf Hlive Hok Hrej x. subst x.
    destruct (await_stopAll_rejected opts ws s before key' client after error
                Hwf Hlive Hok Hrej) as (m' & -> & Hm').
    cbn [threw st out watchers clients with_clients].
    split; [|split; [done|]].
    + rewrite filter_cons_False by done. rewrite filter_app.
      rewrite (filter_none is_Dispose (ClientStop <$> _))
        by (by apply Forall_fmap_event).
      by rewrite filter_cons_False by done.
    + intros k c Hin. apply JSMapFacts.get_None_live. rewrite Hm'.
      unfold wf_map in Hwf. rewrite Hlive, fmap_app in Hwf.
      apply NoDup_app in Hwf as (_ & Hapart & _).
      apply Hapart. by apply (list_elem_of_fmap_2 fst _ (k, c)).
  - intros ds s'. subst s'. unfold registerWatchers. fold key. simpl.
    split; [done|]. split; [apply JSMapFacts.get_set_eq|]. split.
    + intros key' Hne. by apply JSMapFacts.get_set_ne.
    + intros d _ Hds Hother key' ds'.
      destruct (decide (key = key')) as [<-|Hne].
      * rewrite JSMapFacts.get_set_eq. by intros [= <-].
      * rewrite JSMapFacts.get_set_ne by done. by apply Hother.
  - intros ws' k r. apply resume_touches_watchers.
  - intros ws' c. apply invoke_touches_watchers.
  - intros ws' k r c d [Hin|Hin].
    + by eapply resume_disposes_stored.
    + by eapply invoke_disposes_stored.
Qed.

Lemma C8_stored_watchers_are_disposed_witness :
  let key := getFolderKey Scenario.railsApp in
  let s := registerWatchers Scenario.railsApp [1] new_ClientManager in
  let s' := registerWatchers Scenario.railsApp [2] s in
  let x := await_stopAll Scenario.healthy Scenario.host Scenario.both_running in
  let w := await_stopAll Scenario.stop_rejects Scenario.host Scenario.both_running in
  (JSMap.get (watchers s') key = Some [2]
   /\ (forall key' ds', JSMap.get (watchers s') key' = Some ds' -> 1 ∉ ds'))
  /\ (filter (fun e => is_Dispose e = true) (out x)
      = Dispose <$> concat (JSMap.live (watchers Scenario.both_running)).*2
      /\ JSMap.live (watchers (st x)) = [])
  /\ (filter (fun e => is_Dispose e = true) (out w) = []
      /\ watchers (st w) = watchers Scenario.both_running
      /\ JSMap.get (clients (st w)) key = None).
Proof.
  split; [|split].
  - pose proof (C8_stored_watchers_are_disposed Scenario.healthy Scenario.host
                  Scenario.railsApp
                  (registerWatchers Scenario.railsApp [1] new_ClientManager))
      as (_ & _ & _ & _ & _ & H & _).
    destruct (H [2]) as (_ & Hget & _ & Hgone).
    split; [exact Hget|]. apply Hgone.
    + apply list_elem_of_here.
    + intros Hin. apply list_elem_of_singleton in Hin. discriminate Hin.
    + intros key' ds' Hne. simpl. rewrite decide_False by done. discriminate.
  - pose proof (C8_stored_watchers_are_disposed Scenario.healthy Scenario.host
                  Scenario.railsApp Scenario.both_running)
      as (_ & _ & H & _).
    destruct H as (Hdisposed & Hgone & _).
    + vm_compute. repeat constructor; intros Hin; absent_from_trace Hin.
    + vm_compute. repeat constructor; intros Hin; absent_from_trace Hin.
    + reflexivity.
    + split; [exact Hdisposed|exact Hgone].
  - pose proof (C8_stored_watchers_are_disposed Scenario.stop_rejects
                  Scenario.host Scenario.railsApp Scenario.both_running)
      as (_ & _ & _ & _ & H & _).
    destruct (H [(getFolderKey Scenario.railsApp, 9)]
                (getFolderKey Scenario.cliTool) 8 [] "Error: stop timed out")
      as (Hquiet & Hkept & Hremoved).
    + vm_compute. repeat constructor; intros Hin; absent_from_trace Hin.
    + reflexivity.
    + intros k c Hin. apply list_elem_of_singleton in Hin.
      injection Hin as -> ->. reflexivity.
    + reflexivity.
    + split; [exact Hquiet|]. split; [exact Hkept|].
      apply (Hremoved _ 9). apply list_elem_of_here.
Defined.

(** C9. [notifyDocumentOpenIfNeeded] sends one open notification, to the
    client of the document's folder, when the language is supported, the
    document lies in a workspace folder, that folder has a registered
    connection and the document's URI is not a key of the folder's cache;
    in every other case it sends nothing. *)
Theorem C9_notifyDocumentOpenIfNeeded opts ws document s :
  let x := await_notifyDocumentOpenIfNeeded opts ws document s in
  let uri := doc_uri document in
  (forall folder client,
     supportedLanguage opts (languageId document) = true ->
     getWorkspaceFolder ws uri = Some folder ->
     JSMap.get (clients s) (getFolderKey folder) = Some client ->
     (forall cache, cache_of s (getFolderKey folder) = Some cache ->
        cache !! uri = None) ->
     out x = [SendDidOpen client document])
  /\ (supportedLanguage opts (languageId document) = false -> out x = [])
  /\ (getWorkspaceFolder ws uri = None -> out x = [])
  /\ (forall folder,
        getWorkspaceFolder ws uri = Some folder ->
        JSMap.get (clients s) (getFolderKey folder) = None -> out x = [])
  /\ (forall folder cache diagnostics,
        getWorkspaceFolder ws uri = Some folder ->
        cache_of s (getFolderKey folder) = Some cache ->
        cache !! uri = Some diagnostics -> out x = []).
Proof.
  intros x uri. subst x uri.
  unfold await_notifyDocumentOpenIfNeeded, notifyDocumentOpenIfNeeded.
  split; [|split; [|split; [|split]]].
  - intros folder client -> -> -> Hcache. simpl negb. cbv iota.
    assert (cache_has (getDiagnosticCacheForFolder folder s).2
              (getDiagnosticCacheForFolder folder s).1 (doc_uri document) = false)
      as Hhas.
    { unfold getDiagnosticCacheForFolder, cache_has, cache_of in *.
      destruct (JSMap.get (diagnosticCaches s) _) as [r|]; simpl.
      - destruct (caches s !! r) as [cache|]; [|done].
        by rewrite (Hcache cache).
      - by rewrite list_lookup_middle. }
    destruct (getDiagnosticCacheForFolder folder s) as [cache s1].
    simpl in Hhas. rewrite Hhas. simpl.
    by destruct (sendNotification opts client document).
  - intros ->. done.
  - intros ->. by destruct (supportedLanguage _ _).
  - intros folder -> ->. by destruct (supportedLanguage _ _).
  - intros folder cache diagnostics -> Hcache Huri.
    destruct (supportedLanguage _ _); [|done]. simpl negb. cbv iota.
    destruct (JSMap.get (clients s) _) as [client|]; [|done].
    unfold getDiagnosticCacheForFolder, cache_has, cache_of in *.
    destruct (JSMap.get (diagnosticCaches s) _) as [r|]; [|done].
    rewrite Hcache, Huri. done.
Qed.

Lemma C9_notifyDocumentOpenIfNeeded_witness :
  let s := Scenario.both_running in
  out (await_notifyDocumentOpenIfNeeded Scenario.healthy Scenario.host
         Scenario.post_rb s) = [SendDidOpen 9 Scenario.post_rb]
  /\ out (await_notifyDocumentOpenIfNeeded Scenario.healthy Scenario.host
            Scenario.post_rb
            (cache_set 0 (doc_uri Scenario.post_rb) [] s)) = []
  /\ out (await_notifyDocumentOpenIfNeeded Scenario.healthy Scenario.host
            Scenario.readme_md s) = []
  /\ out (await_notifyDocumentOpenIfNeeded Scenario.healthy Scenario.host
            Scenario.scratch_rb s) = [].
Proof.
  split; [|split; [|split]].
  - pose proof (C9_notifyDocumentOpenIfNeeded Scenario.healthy Scenario.host
                  Scenario.post_rb Scenario.both_running) as (H & _).
    apply (H Scenario.railsApp 9); try reflexivity.
    intros cache [= <-]. reflexivity.
  - pose proof (C9_notifyDocumentOpenIfNeeded Scenario.healthy Scenario.host
                  Scenario.post_rb
                  (cache_set 0 (doc_uri Scenario.post_rb) [] Scenario.both_running))
      as (_ & _ & _ & _ & H).
    apply (H Scenario.railsApp
             (<[doc_uri Scenario.post_rb := []]> ∅) []); reflexivity.
  - pose proof (C9_notifyDocumentOpenIfNeeded Scenario.healthy Scenario.host
                  Scenario.readme_md Scenario.both_running) as (_ & H & _).
    apply H. reflexivity.
  - pose proof (C9_notifyDocumentOpenIfNeeded Scenario.healthy Scenario.host
                  Scenario.scratch_rb Scenario.both_running) as (_ & _ & H & _).
    apply H. reflexivity.
Defined.

(** C10. The cleanup of a failed start leaves the diagnostic-cache
    registry and every cache object as they were at the moment of the
    failure: whatever cache is registered for the key then, for instance
    one created by [getDiagnosticCacheForFolder] before or during the
    attempt, is registered afterwards with the same contents.  Only the
    failing key's connection entry and watcher entry change (and the guard
    is released), whereas a successful stop deletes the cache entry. *)
Theorem C10_failed_start_keeps_cache opts ws folder error s
    (r : result unit) (client : LanguageClient) :
  let failed := startForFolder_catch folder error s in
  let x := resume opts ws (StartOnError folder) r (st failed) in
  (* every rejection inside the try block is handled by this cleanup *)
  resume opts ws (StartEnable folder) (Rejected error) s = failed
  /\ resume opts ws (StartCreate folder) (Rejected error) s = failed
  /\ resume opts ws (StartHandshake client folder) (Rejected error) s = failed
  /\ resume opts ws (StartAfterJoin folder (Rejected error)) (Resolved tt) s = failed
  (* the cache registry and the cache objects are not touched *)
  /\ diagnosticCaches (st x) = diagnosticCaches s
  /\ caches (st x) = caches s
  /\ (forall key, cache_of (st x) key = cache_of s key)
  /\ (forall cache s0,
        getDiagnosticCacheForFolder folder s0 = (cache, s) ->
        JSMap.get (diagnosticCaches (st x)) (getFolderKey folder) = Some cache
        /\ caches (st x) !! cache = caches s !! cache)
  (* other keys keep their connection and their watchers *)
  /\ (forall key, key ≠ getFolderKey folder ->
        JSMap.get (clients (st x)) key = JSMap.get (clients s) key
        /\ JSMap.get (watchers (st x)) key = JSMap.get (watchers s) key)
  (* unlike on stop *)
  /\ JSMap.get
       (diagnosticCaches
          (st (resume opts ws (StopHandshake folder client) (Resolved tt) s)))
       (getFolderKey folder) = None.
Proof.
  intros failed x.
  assert (st failed
          = with_watchers
              (with_clients s (JSMap.delete (clients s) (getFolderKey folder)))
              (JSMap.delete (watchers s) (getFolderKey folder))) as Hst.
  { subst failed. unfold startForFolder_catch. by rewrite cleanupWatchers_spec. }
  split; [done|]. split; [done|]. split; [done|]. split; [done|].
  assert (st x = startForFolder_finally folder (st failed)) as ->.
  { subst x. simpl. by destruct r. }
  rewrite Hst. clear Hst x failed.
  split; [done|]. split; [done|]. split; [done|]. split; [|split].
  - intros cache s0 Hcache. simpl. unfold getDiagnosticCacheForFolder in Hcache.
    destruct (JSMap.get (diagnosticCaches s0) (getFolderKey folder)) eqn:Hget.
    + by injection Hcache as <- <-.
    + injection Hcache as <- <-. simpl. split; [|done].
      apply JSMapFacts.get_set_eq.
  - intros key Hne. simpl. by rewrite !JSMapFacts.get_delete_ne.
  - simpl. rewrite cleanupWatchers_spec. simpl. apply JSMapFacts.get_delete_eq.
Qed.

Lemma C10_failed_start_keeps_cache_witness :
  let s0 := new_ClientManager in
  let s := (getDiagnosticCacheForFolder Scenario.railsApp s0).2 in
  let x := resume Scenario.factory_throws Scenario.host
             (StartOnError Scenario.railsApp) (Resolved tt)
             (st (startForFolder_catch Scenario.railsApp "Error: Connection failed" s)) in
  JSMap.get (diagnosticCaches (st x)) (getFolderKey Scenario.railsApp) = Some 0
  /\ caches (st x) !! 0 = caches s !! 0.
Proof.
  pose proof (C10_failed_start_keeps_cache Scenario.factory_throws Scenario.host
                Scenario.railsApp "Error: Connection failed"
                (getDiagnosticCacheForFolder Scenario.railsApp new_ClientManager).2
                (Resolved tt) 9) as H.
  destruct H as (_ & _ & _ & _ & _ & _ & _ & H & _).
  apply (H 0 new_ClientManager). reflexivity.
Defined.

(** * Further properties *)

(** ** normalizePathForGlob *)

Lemma chars_normalizePathForGlob p :
  chars (normalizePathForGlob p) = glob_char <$> chars p.
Proof. induction p as [|c p IH]; [done|]. simpl. by rewrite IH. Qed.

Lemma chars_inj p q : chars p = chars q -> p = q.
Proof.
  revert q. induction p as [|c p IH]; intros [|d q]; simpl; try done.
  intros [= -> H]. by rewrite (IH q H).
Qed.

Lemma chars_app p q : chars (p +:+ q) = chars p ++ chars q.
Proof. induction p as [|c p IH]; [done|]. simpl. by rewrite IH. Qed.

Lemma glob_char_not_backslash c : glob_char c ≠ backslash.
Proof. unfold glob_char. destruct (decide (c = backslash)); [discriminate|done]. Qed.

(** X1. The normalized path has the length of the path, contains no
    backslash, has a forward slash wherever the path has a backslash and
    the path's own character everywhere else. *)
Theorem X1_normalizePathForGlob_replaces_backslashes p :
  String.length (normalizePathForGlob p) = String.length p
  /\ (backslash ∉ chars (normalizePathForGlob p))
  /\ (forall i, chars p !! i = Some backslash ->
        chars (normalizePathForGlob p) !! i = Some slash)
  /\ (forall i c, chars p !! i = Some c -> c ≠ backslash ->
        chars (normalizePathForGlob p) !! i = Some c).
Proof.
  split; [|split; [|split]].
  - induction p as [|c p IH]; [done|]. simpl. by rewrite IH.
  - rewrite chars_normalizePathForGlob. intros Hin.
    apply list_elem_of_fmap in Hin as (c & Hc & _).
    by apply (glob_char_not_backslash c).
  - intros i Hi. rewrite chars_normalizePathForGlob, list_lookup_fmap, Hi.
    simpl. unfold glob_char. by rewrite decide_True.
  - intros i c Hi Hc. rewrite chars_normalizePathForGlob, list_lookup_fmap, Hi.
    simpl. unfold glob_char. by rewrite decide_False.
Qed.

Lemma X1_normalizePathForGlob_replaces_backslashes_witness :
  normalizePathForGlob "C:\Users\dev\project" = "C:/Users/dev/project"
  /\ chars (normalizePathForGlob "C:\Users/dev\project") !! 2 = Some slash
  /\ chars (normalizePathForGlob "C:\Users/dev\project") !! 3 = Some (Ascii.ascii_of_nat 85).
Proof.
  pose proof (X1_normalizePathForGlob_replaces_backslashes "C:\Users/dev\project")
    as (_ & _ & Hslash & Hkeep).
  split; [reflexivity|]. split.
  - apply Hslash. reflexivity.
  - apply Hkeep; [reflexivity|discriminate].
Defined.

(** X2. A path is left unchanged exactly when it contains no backslash;
    normalizing is idempotent; and the normalized concatenation of two
    strings is the concatenation of their normalizations, so a glob pattern
    can be normalized piecewise. *)
Theorem X2_normalizePathForGlob_fixed_points p q :
  (normalizePathForGlob p = p <-> backslash ∉ chars p)
  /\ normalizePathForGlob (normalizePathForGlob p) = normalizePathForGlob p
  /\ normalizePathForGlob (p +:+ q)
     = normalizePathForGlob p +:+ normalizePathForGlob q.
Proof.
  split; [|split].
  - induction p as [|c p IH]; simpl.
    + split; [intros _; apply not_elem_of_nil|done].
    + rewrite not_elem_of_cons. unfold glob_char at 1.
      destruct (decide (c = backslash)) as [->|Hne].
      * split; [discriminate|by intros [? _]].
      * split.
        -- intros [= H]. split; [congruence|by apply IH].
        -- intros [_ H]. f_equal. by apply IH.
  - apply chars_inj. rewrite !chars_normalizePathForGlob, <- list_fmap_compose.
    apply list_fmap_ext. intros i c _. simpl. unfold glob_char at 1.
    by rewrite decide_False by apply glob_char_not_backslash.
  - apply chars_inj.
    by rewrite chars_app, !chars_normalizePathForGlob, chars_app, fmap_app.
Qed.

Lemma X2_normalizePathForGlob_fixed_points_witness :
  normalizePathForGlob "/Users/dev/project" = "/Users/dev/project".
Proof.
  destruct (X2_normalizePathForGlob_fixed_points "/Users/dev/project" EmptyString)
    as [[_ Hfixed] _].
  apply Hfixed. intros Hin. vm_compute in Hin.
  repeat (apply elem_of_cons in Hin as [Hin|Hin]; [discriminate Hin|]).
  by apply elem_of_nil in Hin.
Defined.

(** ** Runs of startForFolder *)

Lemma startForFolder_try_frame opts ws folder s0 :
  let t := startForFolder_try opts ws folder s0 in
  pendingStarts t.1.1 = pendingStarts s0
  /\ watchers t.1.1 = watchers s0
  /\ (forall key, key ≠ getFolderKey folder ->
        JSMap.get (clients t.1.1) key = JSMap.get (clients s0) key
        /\ JSMap.get (diagnosticCaches t.1.1) key = JSMap.get (diagnosticCaches s0) key)
  /\ (exists new, caches t.1.1 = caches s0 ++ new)
  /\ (exists rest, t.1.2 = ShouldEnableForFolder folder :: rest
                   /\ Forall (fun e => is_quiet e = true) rest).
Proof.
  unfold startForFolder_try.
  assert (exists new, caches s0 = caches s0 ++ new) as Hsame
    by (exists []; by rewrite app_nil_r).
  destruct (shouldEnableForFolder opts folder) as [[|]|error]; simpl;
    [destruct (createClient opts folder) as [[client|]|error]; simpl;
       [destruct (start opts client) as [[]|error]; simpl;
          [destruct (send_all _ _ _) as [notified [error|]]; simpl|]|..]|..].
  all: split; [done|]; split; [done|]; split; [|split].
  all: try (intros key Hne; by rewrite ?JSMapFacts.get_set_ne).
  all: try done.
  all: try by eexists.
  all: eexists; split; [done|].
  all: repeat first [ apply Forall_nil_2 | apply Forall_cons_2; [done|]
                    | apply Forall_app_2 | by apply Forall_fmap_event ].
Qed.

(** A run of [startForFolder] settles, as the error callback does when it
    came to be invoked and normally otherwise; it leaves the guard set as
    it found it and touches no other key; if it passes the guards it asks
    the enablement predicate once, and otherwise it invokes nothing. *)
Lemma await_startForFolder_frame opts ws folder s :
  let x := await_startForFolder opts ws folder s in
  let key := getFolderKey folder in
  (task x = Done (Resolved tt)
   \/ task x = Done (onError opts (msg_failed folder) folder))
  /\ pendingStarts (st x) = pendingStarts s
  /\ (forall key', key' ≠ key ->
        JSMap.get (clients (st x)) key' = JSMap.get (clients s) key'
        /\ JSMap.get (diagnosticCaches (st x)) key' = JSMap.get (diagnosticCaches s) key'
        /\ JSMap.get (watchers (st x)) key' = JSMap.get (watchers s) key')
  /\ (exists new, caches (st x) = caches s ++ new)
  /\ filter (fun e => is_ShouldEnableForFolder e = true) (out x)
     = if JSMap.has (clients s) key || bool_decide (key ∈ pendingStarts s)
       then [] else [ShouldEnableForFolder folder].
Proof.
  intros x key. subst x. rewrite await_startForFolder_direct.
  unfold startForFolder_direct. fold key.
  assert (exists new, caches s = caches s ++ new) as Hsame
    by (exists []; by rewrite app_nil_r).
  destruct (JSMap.has _ _); [by repeat split; try left|].
  destruct (bool_decide _) eqn:Hguard; [by repeat split; try left|].
  apply bool_decide_eq_false in Hguard. simpl orb. cbv iota.
  set (s0 := with_pendingStarts s _).
  pose proof (startForFolder_try_frame opts ws folder s0)
    as (Hp & Hw & Hother & Hcaches & rest & Hevs & Hquiet).
  destruct (startForFolder_try opts ws folder s0) as [[s1 evs] [error|]];
    simpl in Hp, Hw, Hother, Hcaches, Hevs; subst evs.
  - destruct (rolled_back_fields folder s1) as (Hrc & Hrw & Hrd & Hrh & Hrp).
    fold key in Hrc, Hrw, Hrp.
    rewrite reported_st, reported_out, reported_task.
    split; [by right|]. split; [|split; [|split]].
    + rewrite Hrp, Hp. subst s0. simpl. by apply guard_released.
    + intros key' Hne. destruct (Hother key' Hne) as [Hc Hd].
      rewrite Hrc, Hrw, Hrd, !JSMapFacts.get_delete_ne, Hw by done. done.
    + by rewrite Hrh.
    + rewrite rollback_events_spec. rewrite filter_app, filter_cons_True by done.
      rewrite (filter_none is_ShouldEnableForFolder rest).
      * rewrite filter_app, !filter_none; [done|by repeat constructor|].
        by apply Forall_fmap_event.
      * eapply Forall_impl; [exact Hquiet|]. by intros [].
  - cbn [st out task returned]. split; [by left|]. split; [|split; [|split]].
    + simpl. rewrite Hp. subst s0. simpl. by apply guard_released.
    + intros key' Hne. destruct (Hother key' Hne) as [Hc Hd]. simpl.
      by rewrite Hc, Hd, Hw.
    + done.
    + rewrite filter_cons_True by done.
      rewrite (filter_none is_ShouldEnableForFolder rest); [done|].
      eapply Forall_impl; [exact Hquiet|]. by intros [].
Qed.

(** A start for which every collaborator answers well. *)
Lemma await_startForFolder_well opts ws folder client s :
  JSMap.has (clients s) (getFolderKey folder) = false ->
  getFolderKey folder ∉ pendingStarts s ->
  starts_well opts ws folder client ->
  await_startForFolder opts ws folder s
  = returned (started_state folder client s) (started_trace opts ws folder client).
Proof.
  intros Hfree Hguard (Henable & Hcreate & Hstart & Hsend).
  rewrite await_startForFolder_direct. unfold startForFolder_direct.
  rewrite Hfree, bool_decide_eq_false_2 by done.
  unfold startForFolder_try. rewrite Henable, Hcreate, Hstart.
  unfold new_cache. rewrite send_all_resolved.
  - unfold returned, started_state, started_trace. f_equal.
    unfold startForFolder_finally, with_diagnosticCaches, with_caches,
      with_clients, with_pendingStarts. simpl.
    by rewrite guard_released.
  - intros doc [Howned Hin]%list_elem_of_filter. by apply Hsend.
Qed.

(** Conversely, a run that registers a connection is one in which every
    collaborator answered well. *)
Lemma await_startForFolder_registered opts ws folder s :
  JSMap.has (clients s) (getFolderKey folder) = false ->
  JSMap.has (clients (st (await_startForFolder opts ws folder s)))
    (getFolderKey folder) = true ->
  exists client,
    createClient opts folder = Resolved (Some client)
    /\ await_startForFolder opts ws folder s
       = returned (started_state folder client s)
           (started_trace opts ws folder client).
Proof.
  intros Hfree. rewrite await_startForFolder_direct.
  unfold startForFolder_direct. rewrite Hfree.
  destruct (bool_decide _) eqn:Hguard; [simpl; congruence|].
  apply bool_decide_eq_false in Hguard.
  set (s0 := with_pendingStarts s _). unfold startForFolder_try.
  assert (forall (s1 : ClientManager) evs,
            JSMap.has
              (clients (st (reported opts folder (rolled_back folder s1) evs)))
              (getFolderKey folder) = true
            -> False) as Hrolled.
  { intros s1 evs. rewrite reported_st.
    destruct (rolled_back_fields folder s1) as (-> & _).
    by rewrite has_delete. }
  destruct (shouldEnableForFolder opts folder) as [[|]|error]; cbn [st returned];
    [|simpl; congruence|by intros ?%Hrolled].
  destruct (createClient opts folder) as [[client|]|error]; cbn [st returned];
    [|simpl; congruence|by intros ?%Hrolled].
  destruct (start opts client) as [[]|error]; cbn [st returned];
    [|by intros ?%Hrolled].
  unfold new_cache.
  pose proof (send_all_complete opts client
                (filter (fun d => owned_by opts ws folder d = true) (textDocuments ws)))
    as Hcomplete.
  destruct (send_all _ _ _) as [notified [error|]]; cbn [st out returned];
    [by intros ?%Hrolled|].
  intros _. exists client. split; [done|].
  simpl in Hcomplete. rewrite Hcomplete by done.
  unfold returned, started_state, started_trace. subst s0. f_equal.
  unfold startForFolder_finally, with_diagnosticCaches, with_caches,
    with_clients, with_pendingStarts. simpl.
  by rewrite guard_released.
Qed.

Lemma started_state_fields folder client s :
  JSMap.get (clients (started_state folder client s)) (getFolderKey folder)
  = Some client
  /\ JSMap.get (diagnosticCaches (started_state folder client s)) (getFolderKey folder)
     = Some (length (caches s))
  /\ caches (started_state folder client s) !! length (caches s) = Some ∅.
Proof.
  unfold started_state. simpl. rewrite !JSMapFacts.get_set_eq.
  split; [done|]. split; [done|]. by apply list_lookup_middle.
Qed.

(** ** Cache objects *)

Lemma caches_apart_same s s' :
  diagnosticCaches s' = diagnosticCaches s -> caches_apart s -> caches_apart s'.
Proof. unfold caches_apart. by intros ->. Qed.

Lemma caches_apart_fresh s key :
  wf s -> caches_apart s ->
  caches_apart
    (with_diagnosticCaches (new_cache s).2
       (JSMap.set (diagnosticCaches (new_cache s).2) key (new_cache s).1)).
Proof.
  intros (_ & _ & _ & Href) Hapart key1 key2 r. simpl.
  destruct (decide (key = key1)) as [<-|Hne1];
    destruct (decide (key = key2)) as [<-|Hne2]; [done|..].
  - rewrite JSMapFacts.get_set_eq, JSMapFacts.get_set_ne by done.
    intros [= <-] Hget. apply Href in Hget. lia.
  - rewrite JSMapFacts.get_set_eq, JSMapFacts.get_set_ne by done.
    intros Hget [= <-]. apply Href in Hget. lia.
  - rewrite !JSMapFacts.get_set_ne by done. apply Hapart.
Qed.

Lemma caches_apart_delete s key :
  caches_apart s ->
  caches_apart (with_diagnosticCaches s (JSMap.delete (diagnosticCaches s) key)).
Proof.
  intros Hapart key1 key2 r H1 H2. simpl in *.
  apply get_delete_Some in H1, H2. by eapply Hapart.
Qed.

Lemma caches_apart_clear s :
  caches_apart (with_diagnosticCaches s (JSMap.clear (diagnosticCaches s))).
Proof. intros key1 key2 r. simpl. by rewrite JSMapFacts.get_clear. Qed.

Lemma startForFolder_catch_diagnosticCaches folder error s :
  diagnosticCaches (st (startForFolder_catch folder error s)) = diagnosticCaches s.
Proof. unfold startForFolder_catch. by rewrite cleanupWatchers_spec. Qed.

Lemma caches_apart_stopAll_loop s pos :
  caches_apart s -> caches_apart (st (stopAll_loop s pos)).
Proof.
  intros Hapart. unfold stopAll_loop.
  destruct (JSMap.next _ _) as [[pos' [key client]]|]; [done|].
  unfold stopAll_finish.
  pose proof (cleanupAllWatchers_frame
                (with_diagnosticCaches s (JSMap.clear (diagnosticCaches s))))
    as (_ & Hd & _).
  destruct (cleanupAllWatchers _) as [s2 disposed]. simpl in *.
  apply (caches_apart_same
           (with_diagnosticCaches s (JSMap.clear (diagnosticCaches s))));
    [exact Hd|]. apply caches_apart_clear.
Qed.

Lemma caches_apart_resume opts ws k (r : result (answer k)) s :
  wf s -> caches_apart s -> caches_apart (st (resume opts ws k r s)).
Proof.
  intros Hwf Hapart.
  assert (forall folder error,
            caches_apart (st (startForFolder_catch folder error s))) as Hcatch.
  { intros folder error. eapply caches_apart_same; [|exact Hapart].
    apply startForFolder_catch_diagnosticCaches. }
  destruct k; simpl in r |- *.
  - by destruct r as [[|]|error].
  - by destruct r as [[client|]|error].
  - destruct r as [[]|error]; [|done]. unfold afterStart.
    pose proof (caches_apart_fresh s (getFolderKey folder) Hwf Hapart).
    destruct (new_cache s) as [cache s1].
    by destruct (syncOpenDocuments _ _ _ _ _).
  - destruct r as [[]|error]; [|done].
    by destruct (syncOpenDocuments _ _ _ _ _).
  - by destruct settled.
  - by destruct settled as [[]|error].
  - by destruct r.
  - destruct r as [[]|error]; [|done].
    rewrite cleanupWatchers_spec. simpl.
    apply (caches_apart_delete
             (with_clients s (JSMap.delete (clients s) (getFolderKey folder)))).
    by eapply caches_apart_same.
  - destruct r as [[]|error]; [|done].
    apply caches_apart_stopAll_loop. by eapply caches_apart_same.
  - by destruct r.
Qed.

Lemma caches_apart_invoke opts ws c s :
  wf s -> caches_apart s -> caches_apart (st (invoke opts ws c s)).
Proof.
  intros Hwf Hapart.
  assert (forall folder,
            caches_apart (getDiagnosticCacheForFolder folder s).2) as Hget.
  { intros folder. unfold getDiagnosticCacheForFolder.
    destruct (JSMap.get _ _); [done|]. by apply caches_apart_fresh. }
  destruct c; simpl.
  - unfold startForFolder. destruct (JSMap.has _ _); [done|].
    by destruct (bool_decide _).
  - unfold stopForFolder. by destruct (JSMap.get _ _).
  - by apply caches_apart_stopAll_loop.
  - unfold notifyDocumentOpenIfNeeded.
    destruct (supportedLanguage _ _); [|done]. simpl.
    destruct (getWorkspaceFolder _ _) as [folder|]; [|done].
    destruct (JSMap.get (clients s) _); [|done].
    specialize (Hget folder).
    destruct (getDiagnosticCacheForFolder folder s) as [cache s1].
    by destruct (cache_has _ _ _).
  - apply Hget.
  - done.
  - unfold cache_set. by destruct (caches s !! cache).
Qed.

Lemma reachable_caches_apart opts sys :
  reachable opts sys -> caches_apart (manager sys).
Proof.
  intros Hreach.
  cut (wf (manager sys) /\ caches_apart (manager sys)); [by intros [_ ?]|].
  revert sys Hreach. unfold reachable.
  apply (rtc_ind_r (fun sys => wf (manager sys) /\ caches_apart (manager sys))).
  - split; [apply wf_new|]. by intros key1 key2 r.
  - intros sys1 sys2 _ Hstep [Hwf Hapart]. destruct Hstep; simpl.
    + split; [by apply wf_invoke|by apply caches_apart_invoke].
    + split; [by apply wf_resume|by apply caches_apart_resume].
Qed.

(** X3. [getDiagnosticCacheForFolder] hands out one cache object per
    folder: a second call returns the same object and changes nothing, the
    object is registered under the folder's key, an existing registration is
    returned without any change of state, and a missing one is created as a
    new empty object that no earlier reference denotes. *)
Theorem X3_getDiagnosticCacheForFolder_is_stable folder s :
  let first := getDiagnosticCacheForFolder folder s in
  getDiagnosticCacheForFolder folder first.2 = first
  /\ JSMap.get (diagnosticCaches first.2) (getFolderKey folder) = Some first.1
  /\ (forall r, JSMap.get (diagnosticCaches s) (getFolderKey folder) = Some r ->
        first = (r, s))
  /\ (JSMap.get (diagnosticCaches s) (getFolderKey folder) = None ->
        caches s !! first.1 = None
        /\ caches first.2 !! first.1 = Some ∅
        /\ (forall r, r ≠ first.1 -> caches first.2 !! r = caches s !! r)).
Proof.
  unfold getDiagnosticCacheForFolder.
  destruct (JSMap.get (diagnosticCaches s) (getFolderKey folder)) as [r|] eqn:Hget;
    simpl.
  - rewrite Hget. split; [done|]. split; [done|]. split; [|done].
    by intros r' [= <-].
  - rewrite JSMapFacts.get_set_eq. split; [done|]. split; [done|].
    split; [done|]. intros _. split; [by apply lookup_ge_None_2|].
    split; [by apply list_lookup_middle|].
    intros r Hne. destruct (decide (r < length (caches s))) as [Hlt|Hge].
    + by rewrite lookup_app_l.
    + rewrite !lookup_ge_None_2; [done|lia|]. rewrite length_app. simpl. lia.
Qed.

Lemma X3_getDiagnosticCacheForFolder_is_stable_witness :
  let first := getDiagnosticCacheForFolder Scenario.railsApp new_ClientManager in
  caches first.2 !! first.1 = Some ∅
  /\ getDiagnosticCacheForFolder Scenario.railsApp first.2 = first
  /\ getDiagnosticCacheForFolder Scenario.cliTool Scenario.both_running
     = (1, Scenario.both_running).
Proof.
  pose proof (X3_getDiagnosticCacheForFolder_is_stable Scenario.railsApp
                new_ClientManager) as (Hsame & _ & _ & Hnew).
  destruct Hnew as (_ & Hempty & _); [reflexivity|].
  split; [exact Hempty|]. split; [exact Hsame|].
  pose proof (X3_getDiagnosticCacheForFolder_is_stable Scenario.cliTool
                Scenario.both_running) as (_ & _ & Hold & _).
  apply Hold. reflexivity.
Defined.

(** ** Invariants of the reachable states *)

(** X4. In every state the interleaved system can reach: a key has at
    most one connection and at most one watcher list, so the visible
    records are what lookup by key finds; every registered cache reference
    denotes an existing cache object; no two keys share a cache object; and
    when no invocation is suspended the guard set is empty, so no folder
    stays blocked from starting. *)
Theorem X4_reachable_states_are_consistent opts sys :
  reachable opts sys ->
  let s := manager sys in
  (forall key client,
     (key, client) ∈ JSMap.live (clients s) <-> JSMap.get (clients s) key = Some client)
  /\ (forall key ds,
        (key, ds) ∈ JSMap.live (watchers s) <-> JSMap.get (watchers s) key = Some ds)
  /\ (forall key r, JSMap.get (diagnosticCaches s) key = Some r ->
        is_Some (caches s !! r))
  /\ (forall key1 key2 r,
        JSMap.get (diagnosticCaches s) key1 = Some r ->
        JSMap.get (diagnosticCaches s) key2 = Some r -> key1 = key2)
  /\ (tasks sys = [] -> pendingStarts s = ∅).
Proof.
  intros Hreach s.
  pose proof (reachable_wf opts sys Hreach) as (Hc & _ & Hw & Href).
  pose proof (reachable_caches_apart opts sys Hreach) as Hapart.
  pose proof (reachable_single_flight opts sys Hreach) as [_ Hiff].
  split; [|split; [|split; [|split]]].
  - intros key client. split.
    + by apply JSMapFacts.live_get_wf.
    + apply JSMapFacts.get_Some_live.
  - intros key ds. split.
    + by apply JSMapFacts.live_get_wf.
    + apply JSMapFacts.get_Some_live.
  - intros key r Hget. apply lookup_lt_is_Some. by eapply Href.
  - exact Hapart.
  - intros Hidle. subst s. apply set_eq. intros key. rewrite Hiff.
    unfold in_flight. rewrite Hidle. simpl.
    split; [by intros ?%elem_of_nil|by intros ?%not_elem_of_empty].
Qed.

Lemma X4_reachable_states_are_consistent_witness :
  (* after watchers were registered for cliTool and its start completed *)
  let s := manager Scenario.cliTool_running in
  let key := getFolderKey Scenario.cliTool in
  (key, 8) ∈ JSMap.live (clients s)
  /\ (key, [30; 31]) ∈ JSMap.live (watchers s)
  /\ JSMap.get (diagnosticCaches s) key = Some 0
  /\ is_Some (caches s !! 0)
  /\ tasks Scenario.cliTool_running = []
  /\ pendingStarts s = ∅.
Proof.
  intros s key.
  destruct (X4_reachable_states_are_consistent Scenario.healthy
              Scenario.cliTool_running cliTool_running_reachable)
    as (Hclients & Hwatchers & Hcaches & _ & Hidle).
  split; [apply Hclients; reflexivity|].
  split; [apply Hwatchers; reflexivity|].
  split; [reflexivity|].
  split; [apply (Hcaches key); reflexivity|].
  split; [reflexivity|]. apply Hidle. reflexivity.
Defined.

(** ** getDiagnostics, getClient, getFirstClient *)

Lemma cache_set_fields cache uri diagnostics s :
  clients (cache_set cache uri diagnostics s) = clients s
  /\ diagnosticCaches (cache_set cache uri diagnostics s) = diagnosticCaches s
  /\ watchers (cache_set cache uri diagnostics s) = watchers s
  /\ pendingStarts (cache_set cache uri diagnostics s) = pendingStarts s.
Proof. unfold cache_set. by destruct (caches s !! cache). Qed.

Lemma cache_set_lookup cache uri diagnostics s r :
  caches (cache_set cache uri diagnostics s) !! r
  = if decide (r = cache)
    then <[uri := diagnostics]> <$> caches s !! r
    else caches s !! r.
Proof.
  unfold cache_set. destruct (decide (r = cache)) as [->|Hne].
  - destruct (caches s !! cache) as [c|] eqn:Hc; simpl; [|done].
    apply list_lookup_insert_eq. by eapply lookup_lt_Some.
  - destruct (caches s !! cache) as [c|] eqn:Hc; simpl; [|done].
    by rewrite list_lookup_insert_ne.
Qed.

(** X5. Diagnostics written through the cache object registered for a
    document's folder are what [getDiagnostics] returns for the document
    afterwards, and the answer for every document with another URI is as
    before.  A document in no workspace folder, or whose folder has no
    cache registered, has no diagnostics. *)
Theorem X5_getDiagnostics_reads_what_was_written ws s document :
  (forall folder cache diagnostics,
     getWorkspaceFolder ws (doc_uri document) = Some folder ->
     JSMap.get (diagnosticCaches s) (getFolderKey folder) = Some cache ->
     is_Some (caches s !! cache) ->
     let s' := cache_set cache (doc_uri document) diagnostics s in
     getDiagnostics ws s' document = Some diagnostics
     /\ forall other, doc_uri other ≠ doc_uri document ->
          getDiagnostics ws s' other = getDiagnostics ws s other)
  /\ (getWorkspaceFolder ws (doc_uri document) = None ->
      getDiagnostics ws s document = None)
  /\ (forall folder,
        getWorkspaceFolder ws (doc_uri document) = Some folder ->
        JSMap.get (diagnosticCaches s) (getFolderKey folder) = None ->
        getDiagnostics ws s document = None).
Proof.
  split; [|split].
  - intros folder cache diagnostics Hfolder Hget [c Hc] s'. subst s'.
    unfold getDiagnostics.
    destruct (cache_set_fields cache (doc_uri document) diagnostics s)
      as (_ & -> & _).
    split.
    + rewrite Hfolder, Hget, cache_set_lookup, decide_True, Hc by done.
      simpl. apply lookup_insert_eq.
    + intros other Hne.
      destruct (getWorkspaceFolder ws (doc_uri other)) as [folder'|]; [|done].
      destruct (JSMap.get (diagnosticCaches s) (getFolderKey folder')) as [r|];
        [|done].
      rewrite cache_set_lookup. destruct (decide (r = cache)) as [->|Hr]; [|done].
      rewrite Hc. simpl. unfold Cache in *. by rewrite lookup_insert_ne.
  - unfold getDiagnostics. by intros ->.
  - unfold getDiagnostics. by intros folder -> ->.
Qed.

Lemma X5_getDiagnostics_reads_what_was_written_witness :
  let s' := cache_set 0 (doc_uri Scenario.user_rb) [7; 8] Scenario.both_running in
  getDiagnostics Scenario.host s' Scenario.user_rb = Some [7; 8]
  /\ getDiagnostics Scenario.host s' Scenario.post_rb = None
  /\ getDiagnostics Scenario.host s' Scenario.scratch_rb = None.
Proof.
  pose proof (X5_getDiagnostics_reads_what_was_written Scenario.host
                Scenario.both_running Scenario.user_rb) as (Hwrite & _ & _).
  destruct (Hwrite Scenario.railsApp 0 [7; 8]) as [Hread Hother];
    [reflexivity|reflexivity|by eexists|].
  split; [exact Hread|]. split.
  - rewrite (Hother Scenario.post_rb); [reflexivity|discriminate].
  - rewrite (Hother Scenario.scratch_rb); [reflexivity|discriminate].
Defined.



(** X7. [getClient] follows the registration of the document's folder:
    after a start that registers a connection it returns the client the
    factory produced, for every document of the folder, and after a stop
    whose handshake resolves it returns nothing again; the answer for
    documents of folders with another key is not changed by the start, and
    a document in no workspace folder never has a client. *)
Theorem X7_getClient_follows_registration opts ws folder s document :
  (getWorkspaceFolder ws (doc_uri document) = None ->
     getClient ws s document = None)
  /\ (JSMap.has (clients s) (getFolderKey folder) = false ->
      let x := await_startForFolder opts ws folder s in
      JSMap.has (clients (st x)) (getFolderKey folder) = true ->
      exists client,
        createClient opts folder = Resolved (Some client)
        /\ (getWorkspaceFolder ws (doc_uri document) = Some folder ->
            getClient ws (st x) document = Some client
            /\ (stop opts client = Resolved tt ->
                getClient ws (st (await_stopForFolder opts ws folder (st x)))
                  document = None))
        /\ (forall other,
              getWorkspaceFolder ws (doc_uri document) = Some other ->
              getFolderKey other ≠ getFolderKey folder ->
              getClient ws (st x) document = getClient ws s document)).
Proof.
  split.
  - unfold getClient. by intros ->.
  - intros Hfree x Hreg.
    destruct (await_startForFolder_registered opts ws folder s Hfree Hreg)
      as (client & Hcreate & Hx).
    exists client. split; [done|]. subst x. rewrite Hx. cbn [st returned].
    destruct (started_state_fields folder client s) as (Hc & _).
    split.
    + intros Hfolder. unfold getClient. rewrite Hfolder. split; [done|].
      intros Hstop. unfold await_stopForFolder, stopForFolder. rewrite Hc.
      change (suspended (started_state folder client s)
                [Log (msg_stopping folder); ClientStop client]
                (StopHandshake folder client))
        with (with_out [] (suspended (started_state folder client s)
                             [Log (msg_stopping folder); ClientStop client]
                             (StopHandshake folder client))).
      rewrite run_suspended. cbn [resume settle]. rewrite Hstop.
      rewrite cleanupWatchers_spec, run_returned. simpl.
      apply JSMapFacts.get_delete_eq.
    + intros other Hother Hne. unfold getClient. rewrite Hother.
      unfold started_state. simpl. by rewrite JSMapFacts.get_set_ne.
Qed.

Lemma X7_getClient_follows_registration_witness :
  let x := await_startForFolder Scenario.healthy Scenario.host Scenario.railsApp
             new_ClientManager in
  getClient Scenario.host new_ClientManager Scenario.user_rb = None
  /\ exists client,
       getClient Scenario.host (st x) Scenario.user_rb = Some client
       /\ getClient Scenario.host
            (st (await_stopForFolder Scenario.healthy Scenario.host
                   Scenario.railsApp (st x))) Scenario.user_rb = None.
Proof.
  split; [reflexivity|].
  pose proof (X7_getClient_follows_registration Scenario.healthy Scenario.host
                Scenario.railsApp new_ClientManager Scenario.user_rb) as [_ H].
  destruct H as (client & _ & Hdoc & _); [reflexivity|reflexivity|].
  exists client. destruct Hdoc as [Hget Hstop]; [reflexivity|].
  split; [exact Hget|]. apply Hstop. reflexivity.
Defined.

Lemma first_live_head {V} (l : JSMap.t V) i :
  snd <$> JSMap.first_live l i = head (JSMap.live l).
Proof.
  revert i. induction l as [|[e|] l IH]; intros i; simpl; [done|done|].
  rewrite IH. done.
Qed.

(** X8. [getFirstClient] returns the client of the oldest registration
    that is still in the table and null exactly when the table is empty,
    that is when [size] is 0; what it returns is registered under some
    key. *)
Theorem X8_getFirstClient_is_the_oldest_registration s :
  getFirstClient s = snd <$> head (JSMap.live (clients s))
  /\ (getFirstClient s = None <-> size s = 0)
  /\ (forall client, getFirstClient s = Some client ->
        wf_map (clients s) ->
        exists key, JSMap.get (clients s) key = Some client).
Proof.
  assert (getFirstClient s = snd <$> head (JSMap.live (clients s))) as Hfirst.
  { unfold getFirstClient, JSMap.next. rewrite drop_0.
    rewrite <- (first_live_head (clients s) 0).
    by destruct (JSMap.first_live _ _) as [[pos [key client]]|]. }
  split; [done|]. split.
  - rewrite Hfirst. unfold size, JSMap.size.
    destruct (JSMap.live (clients s)) as [|[key client] l]; simpl; [done|].
    split; [done|lia].
  - rewrite Hfirst. intros client Hhead Hwf.
    destruct (JSMap.live (clients s)) as [|[key c] l] eqn:Hlive; [done|].
    simpl in Hhead. injection Hhead as ->. exists key.
    apply JSMapFacts.live_get_wf; [done|]. rewrite Hlive. apply list_elem_of_here.
Qed.

Lemma X8_getFirstClient_is_the_oldest_registration_witness :
  getFirstClient Scenario.both_running = Some 9
  /\ getFirstClient
       (st (await_stopForFolder Scenario.healthy Scenario.host Scenario.railsApp
              Scenario.both_running)) = Some 8
  /\ exists key, JSMap.get (clients Scenario.both_running) key = Some 9.
Proof.
  pose proof (X8_getFirstClient_is_the_oldest_registration Scenario.both_running)
    as (_ & _ & Hkey).
  split; [reflexivity|]. split; [reflexivity|].
  apply Hkey; [reflexivity|].
  vm_compute. repeat constructor; intros Hin; absent_from_trace Hin.
Defined.

(** ** startAll *)

Lemma and_then_resolved x k u :
  task x = Done (Resolved u) -> and_then x k = with_out (out x) (k (st x)).
Proof. unfold and_then. by intros ->. Qed.

Lemma and_then_rejected x k error :
  task x = Done (Rejected error) -> and_then x k = x.
Proof. unfold and_then. by intros ->. Qed.

Lemma has_get {V} (m m' : JSMap.t V) key :
  JSMap.get m' key = JSMap.get m key -> JSMap.has m' key = JSMap.has m key.
Proof. unfold JSMap.has. by intros ->. Qed.

(** [startAll] settles, and resolves when the error callback resolves for
    every folder; it leaves the guard set as it was, touches only the keys
    of the folders it is given and only adds cache objects. *)
Lemma startAll_loop_frame opts ws folders : forall s,
  let x := startAll_loop opts ws folders s in
  ((exists r, task x = Done r)
   /\ ((forall folder, folder ∈ folders ->
          onError opts (msg_failed folder) folder = Resolved tt) ->
       task x = Done (Resolved tt)))
  /\ pendingStarts (st x) = pendingStarts s
  /\ (forall key, key ∉ getFolderKey <$> folders ->
        JSMap.get (clients (st x)) key = JSMap.get (clients s) key
        /\ JSMap.get (diagnosticCaches (st x)) key = JSMap.get (diagnosticCaches s) key
        /\ JSMap.get (watchers (st x)) key = JSMap.get (watchers s) key)
  /\ (exists new, caches (st x) = caches s ++ new).
Proof.
  induction folders as [|folder rest IH]; intros s; simpl.
  - split; [split; [by eexists|done]|]. repeat split.
    exists []. by rewrite app_nil_r.
  - pose proof (await_startForFolder_frame opts ws folder s)
      as (Ht & Hp & Hother & [new Hcaches] & _).
    destruct (IH (st (await_startForFolder opts ws folder s)))
      as ([[r' Ht'] Hres'] & Hp' & Hother' & [new' Hcaches']).
    assert (task (await_startForFolder opts ws folder s) = Done (Resolved tt)
            \/ exists error,
                 onError opts (msg_failed folder) folder = Rejected error
                 /\ task (await_startForFolder opts ws folder s)
                    = Done (Rejected error)) as [Hok|(error & Hcallback & Hrej)].
    { destruct Ht as [Ht|Ht]; [by left|].
      destruct (onError opts (msg_failed folder) folder) as [[]|error];
        [by left|right; by exists error]. }
    + rewrite (and_then_resolved _ _ _ Hok). cbn [with_out st task].
      split; [split; [by eexists|]|].
      { intros Hcallbacks. apply Hres'. intros f Hin. apply Hcallbacks.
        by apply list_elem_of_further. }
      split; [congruence|]. split.
      * intros key Hkey. apply not_elem_of_cons in Hkey as [Hne Hrest].
        destruct (Hother key Hne) as (Hc & Hd & Hw).
        destruct (Hother' key Hrest) as (Hc' & Hd' & Hw').
        split; [congruence|]. split; congruence.
      * exists (new ++ new'). by rewrite Hcaches', Hcaches, app_assoc.
    + rewrite (and_then_rejected _ _ _ Hrej).
      split; [split; [by eexists|]|].
      { intros Hcallbacks. rewrite Hcallbacks in Hcallback; [done|].
        apply list_elem_of_here. }
      split; [done|]. split.
      * intros key Hkey. apply not_elem_of_cons in Hkey as [Hne Hrest].
        by apply Hother.
      * by exists new.
Qed.

(** A start that fails before any notification, from a state in which the
    folder is neither registered nor guarded, settles as the error
    callback does. *)
Lemma await_startForFolder_fails opts ws folder s error :
  JSMap.has (clients s) (getFolderKey folder) = false ->
  getFolderKey folder ∉ pendingStarts s ->
  start_fails opts folder error ->
  task (await_startForFolder opts ws folder s)
  = Done (onError opts (msg_failed folder) folder).
Proof.
  intros Hfree Hguard Hfail. rewrite await_startForFolder_direct.
  unfold startForFolder_direct. rewrite Hfree, bool_decide_eq_false_2 by done.
  unfold startForFolder_try.
  destruct Hfail as [->|[[-> ->]|(client & -> & -> & ->)]];
    by rewrite reported_task.
Qed.

(** X9. [startAll] always settles and leaves the guard set as it found
    it; with no folder open it does nothing.  When the error callback
    resolves for every folder, [startAll] resolves whatever the other
    collaborators answer, and when the folders have distinct keys, none of
    them registered or guarded, every folder is attempted, in the order of
    the list: the failure of one does not keep the later ones from being
    tried.  When the start of the first folder fails and the error callback
    rejects, [startAll] rejects with the callback's error and the later
    folders are not attempted. *)
Theorem X9_startAll_attempts_every_folder opts ws folders s :
  let x := await_startAll opts ws (Some folders) s in
  (exists r, task x = Done r)
  /\ pendingStarts (st x) = pendingStarts s
  /\ await_startAll opts ws None s = returned s []
  /\ ((forall folder, folder ∈ folders ->
         onError opts (msg_failed folder) folder = Resolved tt) ->
      task x = Done (Resolved tt)
      /\ (NoDup (getFolderKey <$> folders) ->
          (forall folder, folder ∈ folders ->
             JSMap.has (clients s) (getFolderKey folder) = false
             /\ (getFolderKey folder ∉ pendingStarts s)) ->
          filter (fun e => is_ShouldEnableForFolder e = true) (out x)
          = ShouldEnableForFolder <$> folders))
  /\ (forall folder rest error error',
        folders = folder :: rest ->
        JSMap.has (clients s) (getFolderKey folder) = false ->
        (getFolderKey folder ∉ pendingStarts s) ->
        start_fails opts folder error ->
        onError opts (msg_failed folder) folder = Rejected error' ->
        task x = Done (Rejected error')
        /\ filter (fun e => is_ShouldEnableForFolder e = true) (out x)
           = [ShouldEnableForFolder folder]).
Proof.
  intros x. subst x. unfold await_startAll. simpl default.
  destruct (startAll_loop_frame opts ws folders s) as ([Hsettles Hres] & Hp & _).
  split; [done|]. split; [done|]. split; [done|]. split.
  - intros Hcallbacks. split; [by apply Hres|].
    clear Hsettles Hres Hp. revert s.
    induction folders as [|folder rest IH]; intros s Hnd Hfresh; [done|].
    simpl. rewrite fmap_cons in Hnd. apply NoDup_cons in Hnd as [Hhead Hnd].
    pose proof (await_startForFolder_frame opts ws folder s)
      as (Ht & Hp & Hother & _ & Hasked).
    assert (task (await_startForFolder opts ws folder s) = Done (Resolved tt))
      as Hok.
    { destruct Ht as [Ht|Ht]; [done|]. rewrite Ht, Hcallbacks; [done|].
      apply list_elem_of_here. }
    rewrite (and_then_resolved _ _ _ Hok). cbn [with_out out].
    rewrite filter_app, Hasked.
    destruct (Hfresh folder) as [Hfree Hguard]; [apply list_elem_of_here|].
    rewrite Hfree, bool_decide_eq_false_2 by done. simpl.
    f_equal. apply IH.
    + intros f Hin. apply Hcallbacks. by apply list_elem_of_further.
    + done.
    + intros folder' Hin.
      destruct (Hfresh folder') as [Hfree' Hguard'];
        [by apply list_elem_of_further|].
      assert (getFolderKey folder' ≠ getFolderKey folder) as Hne.
      { intros Heq. apply Hhead. rewrite <- Heq. by apply list_elem_of_fmap_2. }
      destruct (Hother _ Hne) as (Hc & _).
      split; [by rewrite (has_get _ _ _ Hc)|by rewrite Hp].
  - intros folder rest error error' -> Hfree Hguard Hfail Hcallback. simpl.
    pose proof (await_startForFolder_fails opts ws folder s error
                  Hfree Hguard Hfail) as Ht.
    rewrite Hcallback in Ht.
    rewrite (and_then_rejected _ _ _ Ht). split; [done|].
    pose proof (await_startForFolder_frame opts ws folder s)
      as (_ & _ & _ & _ & Hasked).
    rewrite Hasked, Hfree, bool_decide_eq_false_2 by done. done.
Qed.

Lemma X9_startAll_attempts_every_folder_witness :
  let x := await_startAll Scenario.factory_throws Scenario.host
             (Some [Scenario.railsApp; Scenario.cliTool]) new_ClientManager in
  let y := await_startAll Scenario.callback_rejects Scenario.host
             (Some [Scenario.railsApp; Scenario.cliTool]) new_ClientManager in
  task x = Done (Resolved tt)
  /\ filter (fun e => is_ShouldEnableForFolder e = true) (out x)
     = [ShouldEnableForFolder Scenario.railsApp;
        ShouldEnableForFolder Scenario.cliTool]
  /\ task y = Done (Rejected "Error: Canceled")
  /\ filter (fun e => is_ShouldEnableForFolder e = true) (out y)
     = [ShouldEnableForFolder Scenario.railsApp].
Proof.
  pose proof (X9_startAll_attempts_every_folder Scenario.factory_throws
                Scenario.host [Scenario.railsApp; Scenario.cliTool]
                new_ClientManager) as (_ & _ & _ & Hall & _).
  pose proof (X9_startAll_attempts_every_folder Scenario.callback_rejects
                Scenario.host [Scenario.railsApp; Scenario.cliTool]
                new_ClientManager) as (_ & _ & _ & _ & Hstops).
  destruct Hall as [Ht Hasked]; [by intros folder _|].
  destruct (Hstops Scenario.railsApp [Scenario.cliTool]
              "Error: Connection failed" "Error: Canceled") as [Ht' Hasked'].
  - reflexivity.
  - reflexivity.
  - apply not_elem_of_empty.
  - right. left. split; reflexivity.
  - reflexivity.
  - split; [exact Ht|]. split; [|split; [exact Ht'|exact Hasked']].
    apply Hasked.
    + vm_compute. repeat constructor; intros Hin; absent_from_trace Hin.
    + intros folder _. split; [reflexivity|apply not_elem_of_empty].
Defined.

(** What [startAll] leaves and emits when every folder starts well. *)
Lemma startAll_loop_well opts ws (client_for : WorkspaceFolder -> LanguageClient)
    folders : forall s,
  NoDup (getFolderKey <$> folders) ->
  (forall folder, folder ∈ folders ->
     JSMap.has (clients s) (getFolderKey folder) = false
     /\ (getFolderKey folder ∉ pendingStarts s)
     /\ starts_well opts ws folder (client_for folder)) ->
  let x := startAll_loop opts ws folders s in
  out x = concat ((fun f => started_trace opts ws f (client_for f)) <$> folders)
  /\ JSMap.live (clients (st x))
     = JSMap.live (clients s)
       ++ ((fun f => (getFolderKey f, client_for f)) <$> folders)
  /\ (forall folder, folder ∈ folders ->
        JSMap.get (clients (st x)) (getFolderKey folder) = Some (client_for folder)
        /\ cache_of (st x) (getFolderKey folder) = Some ∅)
  /\ watchers (st x) = watchers s.
Proof.
  induction folders as [|folder rest IH]; intros s Hnd Hwell; simpl.
  - split; [done|]. split; [by rewrite app_nil_r|].
    split; [by intros f ?%elem_of_nil|done].
  - rewrite fmap_cons in Hnd. apply NoDup_cons in Hnd as [Hhead Hnd].
    destruct (Hwell folder) as (Hfree & Hguard & Hstart);
      [apply list_elem_of_here|].
    rewrite (await_startForFolder_well _ _ _ _ _ Hfree Hguard Hstart).
    rewrite (and_then_resolved _ _ tt) by done. cbn [returned st out with_out].
    set (s1 := started_state folder (client_for folder) s).
    assert (forall f, f ∈ rest -> getFolderKey f ≠ getFolderKey folder) as Hne.
    { intros f Hin Heq. apply Hhead. rewrite <- Heq. by apply list_elem_of_fmap_2. }
    destruct (IH s1 Hnd) as (Hout & Hlive & Hget & Hwatchers).
    { intros f Hin. destruct (Hwell f) as (Hf & Hg & Hs);
        [by apply list_elem_of_further|].
      split; [|done]. apply JSMapFacts.has_false. subst s1. simpl.
      rewrite JSMapFacts.get_set_ne by (by intros ?; eapply Hne).
      by apply JSMapFacts.has_false. }
    split; [by rewrite Hout|]. split; [|split; [|by rewrite Hwatchers]].
    + rewrite Hlive. subst s1. simpl.
      rewrite JSMapFacts.live_set_absent by (by apply JSMapFacts.has_false).
      by rewrite <- app_assoc.
    + intros f Hin. apply elem_of_cons in Hin as [->|Hin]; [|by apply Hget].
      destruct (startAll_loop_frame opts ws rest s1)
        as (_ & _ & Hother & [new Hcaches]).
      destruct (Hother (getFolderKey folder) Hhead) as (Hc & Hd & _).
      destruct (started_state_fields folder (client_for folder) s)
        as (Hsc & Hsd & Hempty).
      fold s1 in Hsc, Hsd, Hempty. split; [by rewrite Hc|].
      unfold cache_of. rewrite Hd, Hsd, Hcaches.
      rewrite lookup_app_l; [done|]. by eapply lookup_lt_Some.
Qed.

Lemma startAll_loop_well_task opts ws
    (client_for : WorkspaceFolder -> LanguageClient) folders : forall s,
  NoDup (getFolderKey <$> folders) ->
  (forall folder, folder ∈ folders ->
     JSMap.has (clients s) (getFolderKey folder) = false
     /\ (getFolderKey folder ∉ pendingStarts s)
     /\ starts_well opts ws folder (client_for folder)) ->
  task (startAll_loop opts ws folders s) = Done (Resolved tt).
Proof.
  induction folders as [|folder rest IH]; intros s Hnd Hwell; simpl; [done|].
  rewrite fmap_cons in Hnd. apply NoDup_cons in Hnd as [Hhead Hnd].
  destruct (Hwell folder) as (Hfree & Hguard & Hstart);
    [apply list_elem_of_here|].
  rewrite (await_startForFolder_well _ _ _ _ _ Hfree Hguard Hstart).
  rewrite (and_then_resolved _ _ tt) by done. cbn [returned st out with_out task].
  apply IH; [done|]. intros f Hin.
  destruct (Hwell f) as (Hf & Hg & Hs); [by apply list_elem_of_further|].
  split; [|done]. apply JSMapFacts.has_false. simpl.
  rewrite JSMapFacts.get_set_ne.
  - by apply JSMapFacts.has_false.
  - intros Heq. apply Hhead. rewrite Heq. by apply list_elem_of_fmap_2.
Qed.

(** X10. When the folders have distinct keys, none registered or
    guarded, and the collaborators answer every start well, [startAll]
    registers for each folder the client the factory produced, in the order
    of the list, with an empty cache registered for it; the table grows by
    the number of folders and the error callback is never invoked. *)
Theorem X10_startAll_registers_every_folder opts ws
    (client_for : WorkspaceFolder -> LanguageClient) folders s :
  NoDup (getFolderKey <$> folders) ->
  (forall folder, folder ∈ folders ->
     JSMap.has (clients s) (getFolderKey folder) = false
     /\ (getFolderKey folder ∉ pendingStarts s)
     /\ starts_well opts ws folder (client_for folder)) ->
  let x := await_startAll opts ws (Some folders) s in
  task x = Done (Resolved tt)
  /\ JSMap.live (clients (st x))
     = JSMap.live (clients s)
       ++ ((fun f => (getFolderKey f, client_for f)) <$> folders)
  /\ size (st x) = size s + length folders
  /\ (forall folder, folder ∈ folders ->
        JSMap.get (clients (st x)) (getFolderKey folder) = Some (client_for folder)
        /\ cache_of (st x) (getFolderKey folder) = Some ∅)
  /\ count is_OnError (out x) = 0
  /\ count is_CreateClient (out x) = length folders.
Proof.
  intros Hnd Hwell x. subst x. unfold await_startAll. simpl default.
  pose proof (startAll_loop_well_task opts ws client_for folders s Hnd Hwell)
    as Ht.
  destruct (startAll_loop_well opts ws client_for folders s Hnd Hwell)
    as (Hout & Hlive & Hget & _).
  split; [done|]. split; [done|]. split; [|split; [done|]].
  - unfold size, JSMap.size. by rewrite Hlive, length_app, length_fmap.
  - rewrite Hout. clear. induction folders as [|folder rest [IH1 IH2]]; [done|].
    rewrite fmap_cons. cbn [concat]. rewrite !count_app, IH1, IH2.
    unfold started_trace. rewrite !count_app.
    rewrite !(count_none _ (SendDidOpen _ <$> _)) by (by apply Forall_fmap_event).
    done.
Qed.

Lemma X10_startAll_registers_every_folder_witness :
  let x := await_startAll Scenario.healthy Scenario.host
             (Some [Scenario.railsApp; Scenario.cliTool]) new_ClientManager in
  JSMap.live (clients (st x))
  = [(getFolderKey Scenario.railsApp, 9); (getFolderKey Scenario.cliTool, 8)]
  /\ size (st x) = 2.
Proof.
  pose proof (X10_startAll_registers_every_folder Scenario.healthy Scenario.host
                Scenario.client_of [Scenario.railsApp; Scenario.cliTool]
                new_ClientManager) as H.
  destruct H as (_ & Hlive & Hsize & _).
  - vm_compute. repeat constructor; intros Hin; absent_from_trace Hin.
  - intros folder _. split; [reflexivity|]. split; [apply not_elem_of_empty|].
    repeat split.
  - split; [exact Hlive|exact Hsize].
Defined.
(** A run of [startForFolder] that passes the guards reports at most one
    failure; a reported folder is not registered, and the run then settles
    as the error callback does; without a report it returns. *)
Lemma await_startForFolder_reports opts ws folder s :
  JSMap.has (clients s) (getFolderKey folder) = false ->
  getFolderKey folder ∉ pendingStarts s ->
  let x := await_startForFolder opts ws folder s in
  (filter (fun e => is_OnError e = true) (out x) = []
   /\ task x = Done (Resolved tt))
  \/ (filter (fun e => is_OnError e = true) (out x)
      = [OnError (msg_failed folder) folder]
      /\ JSMap.get (clients (st x)) (getFolderKey folder) = None
      /\ task x = Done (onError opts (msg_failed folder) folder)).
Proof.
  intros Hfree Hguard x. subst x. rewrite await_startForFolder_direct.
  unfold startForFolder_direct. rewrite Hfree, bool_decide_eq_false_2 by done.
  set (s0 := with_pendingStarts s _).
  pose proof (startForFolder_try_frame opts ws folder s0)
    as (_ & _ & _ & _ & rest & Hevs & Hquiet).
  assert (filter (fun e => is_OnError e = true)
            (ShouldEnableForFolder folder :: rest) = []) as Hnone.
  { rewrite filter_cons_False by done. apply filter_none.
    eapply Forall_impl; [exact Hquiet|]. by intros []. }
  destruct (startForFolder_try opts ws folder s0) as [[s1 evs] [error|]];
    simpl in Hevs; subst evs.
  - right. rewrite reported_st, reported_out, reported_task.
    destruct (rolled_back_fields folder s1) as (-> & _).
    rewrite rollback_events_spec, !filter_app, Hnone.
    rewrite (filter_none is_OnError (Dispose <$> _)) by (by apply Forall_fmap_event).
    split; [done|]. split; [apply JSMapFacts.get_delete_eq|done].
  - by left.
Qed.

(** X11. In a [startAll] over folders with distinct keys, none
    registered or guarded, the error callback is invoked once for each
    folder of some sublist of the folders, in order, and for nothing else;
    each folder so reported is left without a registered connection. *)
Theorem X11_startAll_reports_each_failure_once opts ws folders s :
  NoDup (getFolderKey <$> folders) ->
  (forall folder, folder ∈ folders ->
     JSMap.has (clients s) (getFolderKey folder) = false
     /\ (getFolderKey folder ∉ pendingStarts s)) ->
  let x := await_startAll opts ws (Some folders) s in
  exists failed,
    failed `sublist_of` folders
    /\ filter (fun e => is_OnError e = true) (out x)
       = (fun f => OnError (msg_failed f) f) <$> failed
    /\ forall folder, folder ∈ failed ->
         JSMap.get (clients (st x)) (getFolderKey folder) = None.
Proof.
  intros Hnd Hfresh x. subst x. unfold await_startAll. simpl default.
  revert s Hnd Hfresh.
  induction folders as [|folder rest IH]; intros s Hnd Hfresh.
  - exists []. split; [done|]. split; [done|]. by intros f ?%elem_of_nil.
  - simpl. rewrite fmap_cons in Hnd. apply NoDup_cons in Hnd as [Hhead Hnd].
    destruct (Hfresh folder) as [Hfree Hguard]; [apply list_elem_of_here|].
    pose proof (await_startForFolder_frame opts ws folder s)
      as (_ & Hp & Hother & _).
    pose proof (await_startForFolder_reports opts ws folder s Hfree Hguard)
      as Hreport.
    set (x1 := await_startForFolder opts ws folder s) in *.
    set (s1 := st x1) in *.
    destruct (IH s1 Hnd) as (failed & Hsub & Hout & Hnone).
    { intros f Hin.
      destruct (Hfresh f) as [Hf Hg]; [by apply list_elem_of_further|].
      assert (getFolderKey f ≠ getFolderKey folder) as Hne.
      { intros Heq. apply Hhead. rewrite <- Heq. by apply list_elem_of_fmap_2. }
      destruct (Hother _ Hne) as (Hc & _).
      split; [by rewrite (has_get _ _ _ Hc)|by rewrite Hp]. }
    destruct (startAll_loop_frame opts ws rest s1) as (_ & _ & Hkeep & _).
    destruct Hreport as [[Hquiet Ht]|(Hone & Hgone & Ht)].
    + rewrite (and_then_resolved _ _ _ Ht). cbn [with_out st out]. fold s1.
      rewrite filter_app, Hout, Hquiet.
      exists failed. split; [by apply sublist_cons|]. split; [done|]. done.
    + destruct (onError opts (msg_failed folder) folder) as [[]|error'].
      * rewrite (and_then_resolved _ _ _ Ht). cbn [with_out st out]. fold s1.
        rewrite filter_app, Hout, Hone.
        exists (folder :: failed). split; [by apply sublist_skip|].
        split; [done|].
        intros f [->|Hin]%elem_of_cons; [|by apply Hnone].
        destruct (Hkeep (getFolderKey folder) Hhead) as (-> & _). done.
      * rewrite (and_then_rejected _ _ _ Ht).
        exists [folder]. split; [apply sublist_skip, sublist_nil_l|].
        split; [done|].
        intros f [->|Hin]%elem_of_cons; [done|by apply elem_of_nil in Hin].
Qed.

Lemma X11_startAll_reports_each_failure_once_witness :
  let x := await_startAll Scenario.factory_throws Scenario.host
             (Some [Scenario.railsApp; Scenario.cliTool]) new_ClientManager in
  exists failed,
    failed `sublist_of` [Scenario.railsApp; Scenario.cliTool]
    /\ filter (fun e => is_OnError e = true) (out x)
       = (fun f => OnError (msg_failed f) f) <$> failed.
Proof.
  pose proof (X11_startAll_reports_each_failure_once Scenario.factory_throws
                Scenario.host [Scenario.railsApp; Scenario.cliTool]
                new_ClientManager) as H.
  destruct H as (failed & Hsub & Hout & _).
  - vm_compute. repeat constructor; intros Hin; absent_from_trace Hin.
  - intros folder _. split; [reflexivity|apply not_elem_of_empty].
  - exists failed. split; [exact Hsub|exact Hout].
Defined.

(** ** stopAll once more, and restartAll *)

Lemma count_cons p e evs :
  count p (e :: evs) = (if p e then 1 else 0) + count p evs.
Proof.
  unfold count. destruct (p e) eqn:He.
  - by rewrite filter_cons_True.
  - rewrite filter_cons_False; [done|]. by rewrite He.
Qed.

Lemma clear_clear {V} (m : JSMap.t V) : JSMap.clear (JSMap.clear m) = JSMap.clear m.
Proof. unfold JSMap.clear. rewrite <- list_fmap_compose. done. Qed.

(** X12. [stopAll] is idempotent when the stop handshakes resolve: a
    second [stopAll] right after the first logs its message and does
    nothing else; no client is stopped twice and no watcher is disposed
    twice. *)
Theorem X12_stopAll_twice_stops_once opts ws s :
  wf_map (clients s) ->
  wf_map (watchers s) ->
  (forall key client, (key, client) ∈ JSMap.live (clients s) ->
     stop opts client = Resolved tt) ->
  let x := await_stopAll opts ws s in
  await_stopAll opts ws (st x) = returned (st x) [Log msg_stopping_all].
Proof.
  intros Hwfc Hwfw Hstop x. subst x.
  rewrite (await_stopAll_resolved opts ws s Hwfc Hwfw Hstop). cbn [st returned].
  rewrite await_stopAll_resolved; simpl.
  - rewrite !JSMapFacts.live_clear. simpl.
    unfold returned, with_watchers, with_diagnosticCaches, with_clients. simpl.
    by rewrite !clear_clear.
  - apply JSMapFacts.wf_clear.
  - apply JSMapFacts.wf_clear.
  - intros key client. rewrite JSMapFacts.live_clear. by intros ?%elem_of_nil.
Qed.

Lemma X12_stopAll_twice_stops_once_witness :
  let x := await_stopAll Scenario.healthy Scenario.host Scenario.both_running in
  await_stopAll Scenario.healthy Scenario.host (st x)
  = returned (st x) [Log msg_stopping_all].
Proof.
  apply (X12_stopAll_twice_stops_once Scenario.healthy Scenario.host
           Scenario.both_running).
  - vm_compute. repeat constructor; intros Hin; absent_from_trace Hin.
  - vm_compute. repeat constructor; intros Hin; absent_from_trace Hin.
  - reflexivity.
Defined.

(** X13. [restartAll] starts nothing when a stop handshake is rejected:
    it rejects with the error of the stop, has invoked neither the
    enablement predicate nor the factory, and leaves the failing record and
    the records after it registered. *)
Theorem X13_restartAll_starts_nothing_after_a_rejected_stop opts ws
    workspaceFolders s before key client after error :
  wf_map (clients s) ->
  JSMap.live (clients s) = before ++ (key, client) :: after ->
  (forall k' c', (k', c') ∈ before -> stop opts c' = Resolved tt) ->
  stop opts client = Rejected error ->
  let x := await_restartAll opts ws workspaceFolders s in
  task x = Done (Rejected error)
  /\ out x = Log msg_restarting_all :: Log msg_stopping_all
             :: (ClientStop <$> before.*2) ++ [ClientStop client]
  /\ count is_ShouldEnableForFolder (out x) = 0
  /\ count is_CreateClient (out x) = 0
  /\ JSMap.live (clients (st x)) = (key, client) :: after.
Proof.
  intros Hwf Hlive Hok Hrej x. subst x. unfold await_restartAll.
  destruct (await_stopAll_rejected opts ws s before key client after error
              Hwf Hlive Hok Hrej) as (m' & -> & Hm').
  rewrite (and_then_rejected _ _ error) by done.
  unfold with_out, threw. cbn [st out task clients with_clients].
  split; [done|]. split; [done|].
  rewrite !count_app, !count_cons, !count_app.
  rewrite !(count_none _ (ClientStop <$> _)) by (by apply Forall_fmap_event).
  done.
Qed.

Lemma X13_restartAll_starts_nothing_after_a_rejected_stop_witness :
  let x := await_restartAll Scenario.stop_rejects Scenario.host
             (Some [Scenario.railsApp; Scenario.cliTool]) Scenario.both_running in
  task x = Done (Rejected "Error: stop timed out")
  /\ count is_CreateClient (out x) = 0
  /\ JSMap.live (clients (st x)) = [(getFolderKey Scenario.cliTool, 8)].
Proof.
  pose proof (X13_restartAll_starts_nothing_after_a_rejected_stop
                Scenario.stop_rejects Scenario.host
                (Some [Scenario.railsApp; Scenario.cliTool]) Scenario.both_running
                [(getFolderKey Scenario.railsApp, 9)]
                (getFolderKey Scenario.cliTool) 8 [] "Error: stop timed out") as H.
  destruct H as (Ht & _ & _ & Hnone & Hlive); try reflexivity.
  - vm_compute. repeat constructor; intros Hin; absent_from_trace Hin.
  - intros k' c' Hin. apply list_elem_of_singleton in Hin as [= -> ->].
    reflexivity.
  - repeat split; assumption.
Defined.



(** ** The workspace-folder listener *)

Lemma await_stopForFolder_resolved opts ws folder s :
  (forall client, JSMap.get (clients s) (getFolderKey folder) = Some client ->
     stop opts client = Resolved tt) ->
  let x := await_stopForFolder opts ws folder s in
  task x = Done (Resolved tt)
  /\ clients (st x) = JSMap.delete (clients s) (getFolderKey folder)
  /\ pendingStarts (st x) = pendingStarts s
  /\ Forall (fun e => is_start_call e = false) (out x).
Proof.
  intros Hstop x. subst x. unfold await_stopForFolder, stopForFolder.
  destruct (JSMap.get (clients s) (getFolderKey folder)) as [client|] eqn:Hget.
  - change (suspended s [Log (msg_stopping folder); ClientStop client]
              (StopHandshake folder client))
      with (with_out [] (suspended s [Log (msg_stopping folder); ClientStop client]
                           (StopHandshake folder client))).
    rewrite run_suspended. cbn [resume settle]. rewrite (Hstop client) by done.
    rewrite cleanupWatchers_spec, run_returned. cbn [returned st out task].
    repeat split. simpl. repeat constructor. by apply Forall_fmap_event.
  - rewrite (run_done _ _ _ _ (Resolved tt)) by done. cbn [returned st out task].
    split; [done|]. split; [by rewrite JSMapFacts.delete_absent|]. by split.
Qed.

(** The removal phase when every stop handshake resolves. *)
Lemma stop_removed_resolved opts ws removed : forall s,
  (forall key client, (key, client) ∈ JSMap.live (clients s) ->
     stop opts client = Resolved tt) ->
  let x := stop_removed opts ws removed s in
  task x = Done (Resolved tt)
  /\ pendingStarts (st x) = pendingStarts s
  /\ (forall key, key ∈ getFolderKey <$> removed ->
        JSMap.get (clients (st x)) key = None)
  /\ (forall key, key ∉ getFolderKey <$> removed ->
        JSMap.get (clients (st x)) key = JSMap.get (clients s) key)
  /\ Forall (fun e => is_start_call e = false) (out x).
Proof.
  induction removed as [|folder rest IH]; intros s Hstop; simpl.
  - split; [done|]. split; [done|]. split; [by intros key ?%elem_of_nil|].
    by split.
  - destruct (await_stopForFolder_resolved opts ws folder s)
      as (Ht & Hc & Hp & Hquiet).
    { intros client Hget. apply (Hstop (getFolderKey folder)).
      by apply JSMapFacts.get_Some_live. }
    rewrite (and_then_resolved _ _ _ Ht). cbn [with_out st out task].
    set (s1 := st (await_stopForFolder opts ws folder s)) in *.
    destruct (IH s1) as (Ht' & Hp' & Hgone & Hkeep & Hquiet').
    { intros key client. rewrite Hc, JSMapFacts.live_delete.
      intros [_ Hin]%list_elem_of_filter. by eapply Hstop. }
    split; [done|]. split; [congruence|]. split; [|split].
    + intros key Hin. destruct (decide (key ∈ getFolderKey <$> rest)) as [?|Hout].
      * by apply Hgone.
      * rewrite (Hkeep key Hout), Hc. apply elem_of_cons in Hin as [->|?]; [|done].
        apply JSMapFacts.get_delete_eq.
    + intros key Hout. apply not_elem_of_cons in Hout as [Hne Hout].
      rewrite (Hkeep key Hout), Hc. by apply JSMapFacts.get_delete_ne.
    + by apply Forall_app_2.
Qed.

(** X15. The folder-change handler stops before it starts.  When the
    stop handshakes resolve and the collaborators answer well for the added
    folders (distinct keys, not guarded, and either not registered or among
    the removed ones), the trace is the removals followed by the starts,
    every added folder ends up registered with the client produced for it,
    also one that was removed in the same event, and every removed folder
    that is not added again ends up without a connection.  When the stop
    handshake of the first removed folder is rejected, the handler rejects
    and starts nothing. *)
Theorem X15_folder_change_stops_before_it_starts opts ws
    (client_for : WorkspaceFolder -> LanguageClient) removed added s :
  let x := onDidChangeWorkspaceFolders opts ws removed added s in
  ((forall key client, (key, client) ∈ JSMap.live (clients s) ->
      stop opts client = Resolved tt) ->
   NoDup (getFolderKey <$> added) ->
   (forall folder, folder ∈ added ->
      (getFolderKey folder ∉ pendingStarts s)
      /\ starts_well opts ws folder (client_for folder)
      /\ (JSMap.has (clients s) (getFolderKey folder) = false
          \/ getFolderKey folder ∈ getFolderKey <$> removed)) ->
   task x = Done (Resolved tt)
   /\ out x = out (stop_removed opts ws removed s)
              ++ concat ((fun f => started_trace opts ws f (client_for f)) <$> added)
   /\ Forall (fun e => is_start_call e = false) (out (stop_removed opts ws removed s))
   /\ (forall folder, folder ∈ added ->
         JSMap.get (clients (st x)) (getFolderKey folder) = Some (client_for folder))
   /\ (forall folder, folder ∈ removed ->
         getFolderKey folder ∉ getFolderKey <$> added ->
         JSMap.get (clients (st x)) (getFolderKey folder) = None))
  /\ (forall folder rest client error,
        removed = folder :: rest ->
        JSMap.get (clients s) (getFolderKey folder) = Some client ->
        stop opts client = Rejected error ->
        x = threw s [Log (msg_stopping folder); ClientStop client] error).
Proof.
  intros x. subst x. unfold onDidChangeWorkspaceFolders. split.
  - intros Hstop Hnd Hwell.
    destruct (stop_removed_resolved opts ws removed s Hstop)
      as (Ht & Hp & Hgone & Hkeep & Hquiet).
    rewrite (and_then_resolved _ _ _ Ht).
    set (s1 := st (stop_removed opts ws removed s)) in *.
    destruct (startAll_loop_frame opts ws added s1) as (_ & _ & Hother & _).
    assert (forall folder, folder ∈ added ->
              JSMap.has (clients s1) (getFolderKey folder) = false
              /\ (getFolderKey folder ∉ pendingStarts s1)
              /\ starts_well opts ws folder (client_for folder)) as Hwell1.
    { intros folder Hin. destruct (Hwell folder Hin) as (Hguard & Hstart & Hfree).
      split; [|by rewrite Hp]. apply JSMapFacts.has_false.
      destruct (decide (getFolderKey folder ∈ getFolderKey <$> removed))
        as [Hrem|Hrem]; [by apply Hgone|].
      rewrite (Hkeep _ Hrem). destruct Hfree as [Hfree|?]; [|done].
      by apply JSMapFacts.has_false. }
    pose proof (startAll_loop_well_task opts ws client_for added s1 Hnd Hwell1)
      as Ht'.
    destruct (startAll_loop_well opts ws client_for added s1 Hnd Hwell1)
      as (Hout & _ & Hget & _).
    cbn [with_out st out task]. split; [done|]. split; [by rewrite Hout|].
    split; [done|]. split.
    + intros folder Hin. by apply Hget.
    + intros folder Hin Hout'. destruct (Hother _ Hout') as (-> & _).
      apply Hgone. by apply list_elem_of_fmap_2.
  - intros folder rest client error -> Hget Hrej. simpl.
    unfold await_stopForFolder, stopForFolder. rewrite Hget.
    change (suspended s [Log (msg_stopping folder); ClientStop client]
              (StopHandshake folder client))
      with (with_out [] (suspended s [Log (msg_stopping folder); ClientStop client]
                           (StopHandshake folder client))).
    rewrite run_suspended. cbn [resume settle]. rewrite Hrej.
    rewrite run_threw, app_nil_r. simpl.
    by rewrite !(and_then_rejected _ _ error).
Qed.

Lemma X15_folder_change_stops_before_it_starts_witness :
  (* railsApp is removed and added again, cliTool is removed *)
  let x := onDidChangeWorkspaceFolders Scenario.healthy Scenario.host
             [Scenario.railsApp; Scenario.cliTool] [Scenario.railsApp]
             Scenario.both_running in
  task x = Done (Resolved tt)
  /\ JSMap.get (clients (st x)) (getFolderKey Scenario.railsApp) = Some 9
  /\ JSMap.get (clients (st x)) (getFolderKey Scenario.cliTool) = None
  /\ onDidChangeWorkspaceFolders Scenario.stop_rejects Scenario.host
       [Scenario.cliTool] [Scenario.railsApp] Scenario.both_running
     = threw Scenario.both_running
         [Log (msg_stopping Scenario.cliTool); ClientStop 8] "Error: stop timed out".
Proof.
  split; [|split; [|split]].
  - pose proof (X15_folder_change_stops_before_it_starts Scenario.healthy
                  Scenario.host Scenario.client_of
                  [Scenario.railsApp; Scenario.cliTool] [Scenario.railsApp]
                  Scenario.both_running) as [H _].
    apply H.
    + reflexivity.
    + vm_compute. repeat constructor; intros Hin; absent_from_trace Hin.
    + intros folder Hin. apply list_elem_of_singleton in Hin as ->.
      split; [apply not_elem_of_empty|]. split; [repeat split|].
      right. apply list_elem_of_here.
  - reflexivity.
  - reflexivity.
  - pose proof (X15_folder_change_stops_before_it_starts Scenario.stop_rejects
                  Scenario.host Scenario.client_of
                  [Scenario.cliTool] [Scenario.railsApp]
                  Scenario.both_running) as [_ H].
    apply (H Scenario.cliTool [] 8); reflexivity.
Defined.

(** ** Folders do not disturb each other *)

Lemma holds_for_ext s s' key :
  JSMap.get (clients s') key = JSMap.get (clients s) key ->
  JSMap.get (diagnosticCaches s') key = JSMap.get (diagnosticCaches s) key ->
  (forall r, JSMap.get (diagnosticCaches s) key = Some r ->
     caches s' !! r = caches s !! r) ->
  JSMap.get (watchers s') key = JSMap.get (watchers s) key ->
  (key ∈ pendingStarts s' <-> key ∈ pendingStarts s) ->
  holds_for s' key = holds_for s key.
Proof.
  intros Hc Hd Hh Hw Hp. unfold holds_for, cache_of. rewrite Hc, Hd, Hw.
  rewrite (bool_decide_ext _ _ Hp).
  destruct (JSMap.get (diagnosticCaches s) key) as [r|] eqn:Hr; [|done].
  by rewrite (Hh r).
Qed.

Lemma holds_for_finally folder s key :
  getFolderKey folder <> key ->
  holds_for (startForFolder_finally folder s) key = holds_for s key.
Proof.
  intros Hne. apply holds_for_ext; simpl; try done. set_solver.
Qed.

Lemma holds_for_catch folder error s key :
  getFolderKey folder <> key ->
  holds_for (st (startForFolder_catch folder error s)) key = holds_for s key.
Proof.
  intros Hne. unfold startForFolder_catch. rewrite cleanupWatchers_spec.
  apply holds_for_ext; simpl; try done.
  - by apply JSMapFacts.get_delete_ne.
  - by apply JSMapFacts.get_delete_ne.
Qed.

Lemma holds_for_fresh folder s key :
  wf s -> getFolderKey folder <> key ->
  holds_for
    (with_diagnosticCaches (new_cache s).2
       (JSMap.set (diagnosticCaches (new_cache s).2) (getFolderKey folder)
          (new_cache s).1)) key
  = holds_for s key.
Proof.
  intros (_ & _ & _ & Hlt) Hne. apply holds_for_ext; simpl; try done.
  - by apply JSMapFacts.get_set_ne.
  - intros r Hr. apply lookup_app_l. by eapply Hlt.
Qed.

Lemma holds_for_getDiagnosticCacheForFolder folder s key :
  wf s -> getFolderKey folder <> key ->
  holds_for (getDiagnosticCacheForFolder folder s).2 key = holds_for s key.
Proof.
  intros Hwf Hne. unfold getDiagnosticCacheForFolder.
  destruct (JSMap.get _ _); [done|]. by apply holds_for_fresh.
Qed.

Lemma holds_for_stopped folder s key :
  getFolderKey folder <> key ->
  holds_for
    (cleanupWatchers (getFolderKey folder)
       (with_diagnosticCaches
          (with_clients s (JSMap.delete (clients s) (getFolderKey folder)))
          (JSMap.delete (diagnosticCaches s) (getFolderKey folder)))).1 key
  = holds_for s key.
Proof.
  intros Hne. rewrite cleanupWatchers_spec.
  apply holds_for_ext; simpl; try done; by apply JSMapFacts.get_delete_ne.
Qed.

(** Resuming an invocation that spares [key] leaves what is held for
    [key] as it is. *)
Lemma holds_for_resume opts ws k (r : result (answer k)) s key :
  wf s -> cont_spares k key ->
  holds_for (st (resume opts ws k r s)) key = holds_for s key.
Proof.
  intros Hwf Hk.
  assert (forall folder, Some (getFolderKey folder) <> Some key ->
            getFolderKey folder <> key) as Hkey by (intros ? ? ?; congruence).
  destruct k; simpl in r, Hk |- *; try apply Hkey in Hk.
  - destruct r as [[|]|error]; simpl; [done| |].
    + by apply holds_for_finally.
    + by apply holds_for_catch.
  - destruct r as [[client|]|error]; simpl.
    + apply holds_for_ext; simpl; try done. by apply JSMapFacts.get_set_ne.
    + by apply holds_for_finally.
    + by apply holds_for_catch.
  - destruct r as [[]|error]; [|by apply holds_for_catch].
    unfold afterStart.
    pose proof (holds_for_fresh folder s key Hwf Hk) as Hfresh.
    unfold new_cache in *. simpl in *.
    by destruct (syncOpenDocuments _ _ _ _ _) as [k' sent].
  - destruct r as [[]|error]; [|done].
    by destruct (syncOpenDocuments _ _ _ _ _) as [k' sent].
  - by destruct settled.
  - destruct settled as [[]|error]; simpl.
    + by apply holds_for_finally.
    + by apply holds_for_catch.
  - destruct r; simpl; by apply holds_for_finally.
  - destruct r as [[]|error]; [|done].
    pose proof (holds_for_stopped folder s key Hk) as Hstopped.
    by destruct (cleanupWatchers _ _).
  - done.
  - by destruct r.
Qed.

(** A call that spares [key] leaves what is held for [key] as it is. *)
Lemma holds_for_invoke opts ws c s key :
  wf s -> call_spares ws c s key ->
  holds_for (st (invoke opts ws c s)) key = holds_for s key.
Proof.
  intros Hwf Hc. destruct c; simpl in Hc |- *.
  - unfold startForFolder. destruct (JSMap.has _ _); [done|].
    destruct (bool_decide _); [done|]. simpl.
    apply holds_for_ext; simpl; try done. set_solver.
  - unfold stopForFolder. by destruct (JSMap.get _ _).
  - done.
  - unfold notifyDocumentOpenIfNeeded.
    destruct (supportedLanguage _ _); [|done]. simpl.
    destruct (getWorkspaceFolder _ _) as [folder|]; [|done].
    destruct (JSMap.get (clients s) _); [|done].
    pose proof (holds_for_getDiagnosticCacheForFolder folder s key Hwf Hc).
    destruct (getDiagnosticCacheForFolder folder s) as [cache s1].
    by destruct (cache_has _ _ _).
  - by apply holds_for_getDiagnosticCacheForFolder.
  - apply holds_for_ext; simpl; try done. by apply JSMapFacts.get_set_ne.
  - destruct (cache_set_fields cache uri diagnostics s) as (Hcl & Hdc & Hw & Hp).
    apply holds_for_ext; rewrite ?Hcl, ?Hdc, ?Hw, ?Hp; try done.
    intros r Hr. rewrite cache_set_lookup.
    destruct (decide (r = cache)) as [->|]; [done|done].
Qed.

(** X16. Multi-root isolation.  From a reachable state, any interleaving
    of calls and resumptions that spare a key (starts, stops, cache
    look-ups, watcher registrations and open notifications for other
    folders, diagnostics written to other cache objects; no [stopAll])
    leaves that key's connection, cache registration, cache contents,
    watchers and start guard exactly as they were, and every step of it
    is a step of the manager. *)
Theorem X16_other_folders_are_left_alone opts key sys sys' :
  reachable opts sys ->
  rtc (step_sparing opts key) sys sys' ->
  reachable opts sys'
  /\ holds_for (manager sys') key = holds_for (manager sys) key.
Proof.
  intros Hreach Hsteps. induction Hsteps as [sys|sys sys1 sys' Hstep _ IH].
  - done.
  - assert (sys_step opts sys sys1 /\
            holds_for (manager sys1) key = holds_for (manager sys) key)
      as [Hsys Hsame].
    { pose proof (reachable_wf opts sys Hreach) as Hwf.
      destruct Hstep as [ws c sys Hc|ws before k after r sys Htasks Hk].
      - split; [apply sys_call|]. by apply holds_for_invoke.
      - split; [by apply sys_resume|]. by apply holds_for_resume. }
    destruct IH as [Hreach' Hsame'].
    { eapply rtc_r; [exact Hreach|exact Hsys]. }
    split; [done|]. by rewrite Hsame'.
Qed.

Lemma X16_other_folders_are_left_alone_witness :
  (* cliTool is running with watchers and a cache; meanwhile watchers are
     registered for railsApp, its start is called, and its enablement
     check is rejected, so that the start is rolled back *)
  let key := getFolderKey Scenario.cliTool in
  let sys := Scenario.cliTool_running in
  let sys1 := advance sys [] (tasks sys)
                (invoke Scenario.healthy Scenario.host
                   (CallRegisterWatchers Scenario.railsApp [20]) (manager sys)) in
  let sys2 := advance sys1 [] (tasks sys1)
                (invoke Scenario.healthy Scenario.host
                   (CallStartForFolder Scenario.railsApp) (manager sys1)) in
  let sys3 := advance sys2 [] []
                (resume Scenario.healthy Scenario.host
                   (StartEnable Scenario.railsApp) (Rejected "Error: no bundle")
                   (manager sys2)) in
  JSMap.get (clients (manager sys)) key = Some 8
  /\ JSMap.get (watchers (manager sys)) key = Some [30; 31]
  /\ JSMap.get (diagnosticCaches (manager sys)) key = Some 0
  /\ Dispose 20 ∈ trace sys3
  /\ reachable Scenario.healthy sys3
  /\ holds_for (manager sys3) key = holds_for (manager sys) key.
Proof.
  intros key sys sys1 sys2 sys3.
  split; [reflexivity|]. split; [reflexivity|]. split; [reflexivity|].
  split.
  { vm_compute. do 6 apply list_elem_of_further. apply list_elem_of_here. }
  apply (X16_other_folders_are_left_alone Scenario.healthy key sys sys3).
  - apply cliTool_running_reachable.
  - eapply rtc_l; [|eapply rtc_l; [|apply rtc_once]].
    + apply (spare_call Scenario.healthy key Scenario.host
               (CallRegisterWatchers Scenario.railsApp [20]) sys).
      discriminate.
    + apply (spare_call Scenario.healthy key Scenario.host
               (CallStartForFolder Scenario.railsApp) sys1).
      discriminate.
    + apply (spare_resume Scenario.healthy key Scenario.host []
               (StartEnable Scenario.railsApp) []
               (Rejected "Error: no bundle") sys2).
      * reflexivity.
      * discriminate.
Defined.

(** ** A stop that overtakes a start *)

(** X17. Stop is not held back by a start in progress, and the start is
    not told.  From any state in which a folder has no connection and no
    start in progress there is an execution in which the folder is being
    started, is stopped while its start handshake is pending, and a
    further start issued meanwhile is skipped by the guard: the connection
    is started and stopped, the pending start then completes as a success
    (status refresh and the log line of a started server), and yet the
    folder ends with no connection, the guard released, and a cache
    registered for it.  The factory was called once and nothing is left
    running. *)
Theorem X17_stop_overtakes_a_pending_start opts folder client sys :
  JSMap.get (clients (manager sys)) (getFolderKey folder) = None ->
  (getFolderKey folder ∉ pendingStarts (manager sys)) ->
  exists sys',
    rtc (sys_step opts) sys sys'
    /\ tasks sys' = tasks sys
    /\ trace sys'
       = trace sys
         ++ [ShouldEnableForFolder folder; CreateClient folder; ClientStart client;
             Log (msg_stopping folder); ClientStop client]
         ++ (Dispose <$>
               default [] (JSMap.get (watchers (manager sys)) (getFolderKey folder)))
         ++ [OnStatusUpdate; Log (msg_started folder)]
    /\ JSMap.get (clients (manager sys')) (getFolderKey folder) = None
    /\ (getFolderKey folder ∉ pendingStarts (manager sys'))
    /\ JSMap.get (diagnosticCaches (manager sys')) (getFolderKey folder)
       = Some (length (caches (manager sys))).
Proof.
  intros Hget Hguard. destruct sys as [s pending tr]. simpl in Hget, Hguard.
  set (key := getFolderKey folder) in *.
  set (ws := {| textDocuments := []; getWorkspaceFolder := (fun _ => None) |}).
  eexists. split.
  - (* the execution *)
    eapply rtc_l.
    { apply (sys_call opts ws (CallStartForFolder folder)). }
    unfold advance. cbn [invoke manager tasks trace].
    unfold startForFolder. fold key.
    rewrite (proj2 (JSMapFacts.has_false _ _) Hget).
    rewrite bool_decide_eq_false_2 by done.
    cbn [suspended st out task still_suspended app].
    eapply rtc_l.
    { apply (sys_resume opts ws [] (StartEnable folder) pending (Resolved true)).
      reflexivity. }
    unfold advance. cbn [resume manager tasks trace suspended st out task
                           still_suspended app].
    eapply rtc_l.
    { apply (sys_resume opts ws [] (StartCreate folder) pending
               (Resolved (Some client))). reflexivity. }
    unfold advance. cbn [resume manager tasks trace suspended st out task
                           still_suspended app]. fold key.
    eapply rtc_l.
    { apply (sys_call opts ws (CallStopForFolder folder)). }
    unfold advance. cbn [invoke manager tasks trace].
    unfold stopForFolder. fold key.
    cbn [clients diagnosticCaches watchers pendingStarts caches with_clients
           with_diagnosticCaches with_watchers with_pendingStarts with_caches].
    rewrite JSMapFacts.get_set_eq.
    cbn [suspended st out task still_suspended app].
    eapply rtc_l.
    { apply (sys_resume opts ws [] (StopHandshake folder client)
               (StartHandshake client folder :: pending) (Resolved tt)).
      reflexivity. }
    unfold advance. cbn [resume manager tasks trace]. fold key.
    rewrite cleanupWatchers_spec.
    cbn [returned st out task still_suspended app watchers clients
           diagnosticCaches pendingStarts caches
           with_diagnosticCaches with_clients with_pendingStarts with_watchers].
    eapply rtc_l.
    { apply (sys_call opts ws (CallStartForFolder folder)). }
    unfold advance. cbn [invoke manager tasks trace].
    unfold startForFolder. fold key.
    cbn [clients diagnosticCaches watchers pendingStarts caches with_clients
           with_diagnosticCaches with_watchers with_pendingStarts with_caches].
    rewrite (proj2 (JSMapFacts.has_false _ _) (JSMapFacts.get_delete_eq _ _)).
    rewrite bool_decide_eq_true_2 by set_solver.
    cbn [returned st out task still_suspended app].
    eapply rtc_l.
    { apply (sys_resume opts ws [] (StartHandshake client folder) pending
               (Resolved tt)). reflexivity. }
    unfold advance. cbn [resume manager tasks trace].
    unfold afterStart, new_cache. cbn [syncOpenDocuments textDocuments ws].
    fold key. cbn [suspended st out task still_suspended app].
    eapply rtc_l.
    { apply (sys_resume opts ws [] (StartSyncJoin client folder (Resolved tt))
               pending (Resolved tt)). reflexivity. }
    unfold advance. cbn [resume manager tasks trace suspended st out task
                           still_suspended app].
    eapply rtc_l.
    { apply (sys_resume opts ws [] (StartAfterJoin folder (Resolved tt))
               pending (Resolved tt)). reflexivity. }
    unfold advance. cbn [resume manager tasks trace returned st out task
                           still_suspended app].
    apply rtc_refl.
  - cbn [manager tasks trace]. split; [done|]. split; [|split; [|split]].
    + rewrite !app_nil_r, <- !app_assoc. done.
    + simpl. apply JSMapFacts.get_delete_eq.
    + simpl. set_solver.
    + simpl. apply JSMapFacts.get_set_eq.
Qed.

Lemma X17_stop_overtakes_a_pending_start_witness :
  exists sys',
    rtc (sys_step Scenario.healthy) initial sys'
    /\ tasks sys' = []
    /\ trace sys'
       = [ShouldEnableForFolder Scenario.railsApp; CreateClient Scenario.railsApp;
          ClientStart 9; Log (msg_stopping Scenario.railsApp); ClientStop 9;
          OnStatusUpdate; Log (msg_started Scenario.railsApp)]
    /\ JSMap.get (clients (manager sys')) (getFolderKey Scenario.railsApp) = None.
Proof.
  destruct (X17_stop_overtakes_a_pending_start Scenario.healthy
              Scenario.railsApp 9 initial)
    as (sys' & Hrun & Htasks & Htrace & Hclient & _).
  - reflexivity.
  - apply not_elem_of_empty.
  - exists sys'. split; [exact Hrun|]. split; [exact Htasks|].
    split; [exact Htrace|exact Hclient].
Defined.

(** ** The extension module: the command line of the server *)

Lemma string_app_cons x (a b : string) : String x a +:+ b = String x (a +:+ b).
Proof. done. Qed.

Lemma string_app_nil_l (a : string) : EmptyString +:+ a = a.
Proof. done. Qed.

Lemma string_app_assoc (a b c : string) : (a +:+ b) +:+ c = a +:+ (b +:+ c).
Proof.
  induction a as [|x a IH]; rewrite ?string_app_cons, ?string_app_nil_l; [done|].
  by f_equal.
Qed.

Lemma string_app_nil_r (a : string) : a +:+ EmptyString = a.
Proof.
  induction a as [|x a IH]; rewrite ?string_app_cons, ?string_app_nil_l; [done|].
  by f_equal.
Qed.

Lemma free_of_cons c x s :
  Extension.free_of c (String x s) <-> x <> c /\ Extension.free_of c s.
Proof.
  unfold Extension.free_of. simpl. rewrite not_elem_of_cons.
  split; intros [? ?]; split; congruence.
Qed.

Lemma free_of_app c a b :
  Extension.free_of c (a +:+ b) <-> Extension.free_of c a /\ Extension.free_of c b.
Proof.
  unfold Extension.free_of. rewrite chars_app, not_elem_of_app. done.
Qed.

Lemma until_brace_name name rest :
  Extension.free_of Extension.close_brace name ->
  Extension.until_brace (name +:+ String Extension.close_brace rest)
  = Some (name, rest).
Proof.
  induction name as [|c name IH]; intros Hfree;
    rewrite ?string_app_cons, ?string_app_nil_l; simpl.
  - by rewrite ?decide_True.
  - apply free_of_cons in Hfree as [Hc Hfree].
    rewrite decide_False by done. by rewrite IH.
Qed.

Lemma match0_app name rest :
  Extension.match0 name +:+ rest
  = String Extension.dollar
      (String Extension.open_brace
         (name +:+ String Extension.close_brace rest)).
Proof.
  unfold Extension.match0. rewrite !string_app_cons. do 2 f_equal.
  by rewrite string_app_assoc, string_app_cons, string_app_nil_l.
Qed.

Lemma variablePattern_exec_eq s :
  Extension.variablePattern_exec s
  = match Extension.variable_here s with
    | Some (name, after) => Some (EmptyString, name, after)
    | None =>
        match s with
        | EmptyString => None
        | String c rest =>
            match Extension.variablePattern_exec rest with
            | Some (before, name, after) => Some (String c before, name, after)
            | None => None
            end
        end
    end.
Proof. by destruct s. Qed.

Lemma variable_here_other c s :
  c <> Extension.dollar -> Extension.variable_here (String c s) = None.
Proof. intros Hc. destruct s; simpl; [done|]. by rewrite decide_False. Qed.

(** A text without a dollar sign is skipped by the search. *)
Lemma variablePattern_exec_skip text s :
  Extension.free_of Extension.dollar text ->
  Extension.variablePattern_exec (text +:+ s)
  = match Extension.variablePattern_exec s with
    | Some (before, name, after) => Some (text +:+ before, name, after)
    | None => None
    end.
Proof.
  induction text as [|c text IH]; intros Hfree.
  - rewrite string_app_nil_l.
    by destruct (Extension.variablePattern_exec s) as [[[? ?] ?]|].
  - apply free_of_cons in Hfree as [Hc Hfree].
    rewrite string_app_cons.
    rewrite variablePattern_exec_eq, variable_here_other by done.
    rewrite IH by done.
    by destruct (Extension.variablePattern_exec s) as [[[? ?] ?]|].
Qed.

(** The search finds the first reference of a template. *)
Lemma variablePattern_exec_template text name rest :
  Extension.free_of Extension.dollar text ->
  Extension.free_of Extension.close_brace name ->
  Extension.variablePattern_exec (text +:+ Extension.match0 name +:+ rest)
  = Some (text, name, rest).
Proof.
  intros Htext Hname. rewrite variablePattern_exec_skip by done.
  rewrite variablePattern_exec_eq, match0_app.
  cbn [Extension.variable_here]. rewrite !decide_True by done.
  rewrite until_brace_name by done. by rewrite string_app_nil_r.
Qed.

Lemma strip_prefix_app p rest : Extension.strip_prefix p (p +:+ rest) = Some rest.
Proof.
  induction p as [|c p IH]; [done|].
  rewrite string_app_cons. simpl. by rewrite decide_True.
Qed.

Lemma split_first_eq pattern s :
  Extension.split_first pattern s
  = match Extension.strip_prefix pattern s with
    | Some after => Some (EmptyString, after)
    | None =>
        match s with
        | EmptyString => None
        | String c rest =>
            match Extension.split_first pattern rest with
            | Some (before, after) => Some (String c before, after)
            | None => None
            end
        end
    end.
Proof. by destruct s. Qed.

(** The first occurrence of [match[0]] is where the search matched. *)
Lemma split_first_template text name rest :
  Extension.free_of Extension.dollar text ->
  Extension.split_first (Extension.match0 name)
    (text +:+ Extension.match0 name +:+ rest)
  = Some (text, rest).
Proof.
  induction text as [|c text IH]; intros Hfree.
  - rewrite string_app_nil_l. by rewrite split_first_eq, strip_prefix_app.
  - apply free_of_cons in Hfree as [Hc Hfree].
    rewrite string_app_cons, split_first_eq.
    unfold Extension.match0 at 1. cbn [Extension.strip_prefix].
    rewrite decide_False by done. by rewrite IH.
Qed.

Lemma GetSubstitution_plain matched before after replacement :
  Extension.free_of Extension.dollar replacement ->
  Extension.GetSubstitution matched before after replacement = replacement.
Proof.
  induction replacement as [|c replacement IH]; intros Hfree; simpl; [done|].
  apply free_of_cons in Hfree as [Hc Hfree].
  rewrite decide_False by done. by rewrite IH.
Qed.

Lemma replace_template text name rest value :
  Extension.free_of Extension.dollar text ->
  Extension.free_of Extension.dollar value ->
  Extension.replace (text +:+ Extension.match0 name +:+ rest)
    (Extension.match0 name) value
  = text +:+ value +:+ rest.
Proof.
  intros Htext Hvalue. unfold Extension.replace.
  rewrite split_first_template by done.
  by rewrite GetSubstitution_plain.
Qed.

Lemma resolve_variable_known env text name rest value :
  Extension.value_of env name = Some value ->
  Extension.free_of Extension.dollar text ->
  Extension.free_of Extension.dollar value ->
  Extension.resolve_variable env (text +:+ Extension.match0 name +:+ rest) name
  = text +:+ value +:+ rest.
Proof.
  unfold Extension.value_of, Extension.resolve_variable.
  intros Hvalue Htext Hfree.
  repeat case_decide; simplify_eq; by apply replace_template.
Qed.

Lemma resolve_variable_unknown env customCommandPath name :
  Extension.value_of env name = None ->
  Extension.resolve_variable env customCommandPath name = customCommandPath.
Proof.
  unfold Extension.value_of, Extension.resolve_variable.
  intros Hvalue. by repeat case_decide.
Qed.

Lemma resolve_loop_template env parts last : forall fuel pre,
  Forall (fun part =>
            Extension.free_of Extension.dollar part.1
            /\ Extension.free_of Extension.close_brace part.2
            /\ exists value, Extension.value_of env part.2 = Some value
                 /\ Extension.free_of Extension.dollar value) parts ->
  Extension.free_of Extension.dollar pre ->
  length parts <= fuel ->
  Extension.resolve_loop env fuel (pre +:+ Extension.template parts last)
  = match Extension.variablePattern_exec last with
    | None => Some (pre +:+ Extension.expansion env parts last)
    | Some _ =>
        Extension.resolve_loop env (fuel - length parts)
          (pre +:+ Extension.expansion env parts last)
    end.
Proof.
  induction parts as [|[text name] parts IH]; intros fuel pre Hparts Hpre Hfuel.
  - simpl. rewrite Nat.sub_0_r.
    destruct (Extension.variablePattern_exec last) as [m|] eqn:Hlast; [done|].
    destruct fuel; simpl; by rewrite variablePattern_exec_skip, Hlast.
  - apply Forall_cons in Hparts
      as [(Htext & Hname & value & Hvalue & Hfree) Hparts].
    simpl in Htext, Hname, Hvalue, Hfuel.
    destruct fuel as [|fuel]; [lia|].
    cbn [Extension.template Extension.expansion].
    rewrite <- (string_app_assoc pre text).
    cbn [Extension.resolve_loop].
    rewrite variablePattern_exec_template by (by try apply free_of_app).
    rewrite (resolve_variable_known env _ _ _ value)
      by (by try apply free_of_app).
    rewrite Hvalue. cbn [default].
    rewrite <- (string_app_assoc _ value).
    rewrite IH; [|done|by rewrite !free_of_app|lia].
    rewrite !string_app_assoc. done.
Qed.

Lemma value_of_known env name value :
  Extension.value_of env name = Some value ->
  Extension.free_of Extension.close_brace name
  /\ (value = Extension.fsPath env \/ value = Extension.sep env
      \/ value = Extension.homedir env).
Proof.
  unfold Extension.value_of, Extension.free_of. intros Hvalue.
  repeat case_decide; simplify_eq; (split; [|by eauto]);
    intros Hin; vm_compute in Hin;
    repeat (apply elem_of_cons in Hin as [Hin|Hin]; [discriminate Hin|]);
    by apply elem_of_nil in Hin.
Qed.

(** The hypotheses of the statements below, in the form the induction
    uses. *)
Lemma known_parts env parts :
  Extension.free_of Extension.dollar (Extension.fsPath env) ->
  Extension.free_of Extension.dollar (Extension.sep env) ->
  Extension.free_of Extension.dollar (Extension.homedir env) ->
  Forall (fun part =>
            Extension.free_of Extension.dollar part.1
            /\ is_Some (Extension.value_of env part.2)) parts ->
  Forall (fun part =>
            Extension.free_of Extension.dollar part.1
            /\ Extension.free_of Extension.close_brace part.2
            /\ exists value, Extension.value_of env part.2 = Some value
                 /\ Extension.free_of Extension.dollar value) parts.
Proof.
  intros Hcwd Hsep Hhome Hparts. eapply Forall_impl; [exact Hparts|].
  intros [text name] [Htext [value Hvalue]]. simpl in *.
  destruct (value_of_known env name value Hvalue) as [Hname Hcases].
  split; [done|]. split; [done|]. exists value. split; [done|].
  by destruct Hcases as [->|[->| ->]].
Qed.

Lemma expansion_last env parts last :
  Extension.expansion env parts last
  = Extension.expansion env parts EmptyString +:+ last.
Proof.
  induction parts as [|[text name] parts IH]; simpl; [done|].
  by rewrite IH, !string_app_assoc.
Qed.

Lemma expansion_free env parts :
  Forall (fun part =>
            Extension.free_of Extension.dollar part.1
            /\ Extension.free_of Extension.close_brace part.2
            /\ exists value, Extension.value_of env part.2 = Some value
                 /\ Extension.free_of Extension.dollar value) parts ->
  Extension.free_of Extension.dollar (Extension.expansion env parts EmptyString).
Proof.
  induction 1 as [|[text name] parts (Htext & _ & value & Hvalue & Hfree) _ IH];
    simpl.
  - by intros ?%elem_of_nil.
  - simpl in Htext, Hvalue. rewrite Hvalue. simpl. by rewrite !free_of_app.
Qed.

(** The loop does not leave a reference it cannot replace. *)
Lemma resolve_loop_stuck env customCommandPath before name after :
  Extension.variablePattern_exec customCommandPath = Some (before, name, after) ->
  Extension.value_of env name = None ->
  forall fuel, Extension.resolve_loop env fuel customCommandPath = None.
Proof.
  intros Hexec Hvalue fuel. induction fuel as [|fuel IH]; simpl; rewrite Hexec.
  - done.
  - by rewrite resolve_variable_unknown.
Qed.

Lemma resolve_loop_more env r : forall fuel fuel' customCommandPath,
  Extension.resolve_loop env fuel customCommandPath = Some r ->
  fuel <= fuel' ->
  Extension.resolve_loop env fuel' customCommandPath = Some r.
Proof.
  induction fuel as [|fuel IH]; intros fuel' p; simpl.
  - destruct (Extension.variablePattern_exec p) as [[[? name] ?]|] eqn:Hexec;
      [done|].
    intros <- _. destruct fuel'; simpl; by rewrite Hexec.
  - destruct (Extension.variablePattern_exec p) as [[[? name] ?]|] eqn:Hexec.
    + intros Hr Hle. destruct fuel' as [|fuel']; [lia|]. simpl. rewrite Hexec.
      apply IH; [done|lia].
    + intros <- _. destruct fuel'; simpl; by rewrite Hexec.
Qed.

(** X18. [resolveCommandPath] on a command path whose references are all
    among [cwd], [pathSeparator] and [userHome]: when neither the texts
    between the references nor the three values contain a dollar sign,
    the loop ends after one iteration per reference and returns the path
    with every reference replaced by its value, in place; the result has
    no reference left.  An unset command path resolves to the empty
    string. *)
Theorem X18_resolveCommandPath_expands_known_variables env parts last fuel :
  (Extension.commandPath env = Some (Extension.template parts last) ->
   Extension.free_of Extension.dollar (Extension.fsPath env) ->
   Extension.free_of Extension.dollar (Extension.sep env) ->
   Extension.free_of Extension.dollar (Extension.homedir env) ->
   Forall (fun part =>
             Extension.free_of Extension.dollar part.1
             /\ is_Some (Extension.value_of env part.2)) parts ->
   Extension.variablePattern_exec last = None ->
   length parts <= fuel ->
   Extension.resolveCommandPath env fuel
   = Some (Extension.expansion env parts last)
   /\ Extension.variablePattern_exec (Extension.expansion env parts last) = None)
  /\ (Extension.commandPath env = None ->
      Extension.resolveCommandPath env fuel = Some EmptyString).
Proof.
  split.
  - intros Hpath Hcwd Hsep Hhome Hparts Hlast Hfuel.
    pose proof (known_parts env parts Hcwd Hsep Hhome Hparts) as Hknown.
    split.
    + unfold Extension.resolveCommandPath. rewrite Hpath. simpl.
      pose proof (resolve_loop_template env parts last fuel EmptyString Hknown)
        as Hloop.
      rewrite !string_app_nil_l, Hlast in Hloop. apply Hloop; [|done].
      by intros ?%elem_of_nil.
    + rewrite expansion_last, variablePattern_exec_skip, Hlast; [done|].
      by apply expansion_free.
  - intros Hpath. unfold Extension.resolveCommandPath. rewrite Hpath.
    by destruct fuel.
Qed.

Lemma X18_resolveCommandPath_expands_known_variables_witness :
  Extension.resolveCommandPath
    {| Extension.commandPath := Some "${userHome}/.rbenv/shims/standardrb";
       Extension.fsPath := "/work/rails-app";
       Extension.sep := "/";
       Extension.homedir := "/home/dev" |} 1
  = Some "/home/dev/.rbenv/shims/standardrb".
Proof.
  pose proof (X18_resolveCommandPath_expands_known_variables
                {| Extension.commandPath := Some "${userHome}/.rbenv/shims/standardrb";
                   Extension.fsPath := "/work/rails-app";
                   Extension.sep := "/";
                   Extension.homedir := "/home/dev" |}
                [(EmptyString, "userHome")] "/.rbenv/shims/standardrb" 1)
    as [H _].
  apply H.
  - reflexivity.
  - intros Hin. vm_compute in Hin.
    repeat (apply elem_of_cons in Hin as [Hin|Hin]; [discriminate Hin|]).
    by apply elem_of_nil in Hin.
  - intros Hin. vm_compute in Hin.
    repeat (apply elem_of_cons in Hin as [Hin|Hin]; [discriminate Hin|]).
    by apply elem_of_nil in Hin.
  - intros Hin. vm_compute in Hin.
    repeat (apply elem_of_cons in Hin as [Hin|Hin]; [discriminate Hin|]).
    by apply elem_of_nil in Hin.
  - repeat constructor; [by intros ?%elem_of_nil|by eexists].
  - reflexivity.
  - simpl. lia.
Defined.

(** X19. [resolveCommandPath] never returns when the command path has a
    reference to a name other than [cwd], [pathSeparator] and [userHome]
    (for instance [workspaceFolder]): the [switch] has no default case, so
    once that reference is the first one left the path no longer changes
    and the pattern matches again, whatever the number of iterations. *)
Theorem X19_resolveCommandPath_unknown_variable_never_returns
    env parts text name rest :
  Extension.commandPath env
  = Some (Extension.template parts (text +:+ Extension.match0 name +:+ rest)) ->
  Extension.free_of Extension.dollar (Extension.fsPath env) ->
  Extension.free_of Extension.dollar (Extension.sep env) ->
  Extension.free_of Extension.dollar (Extension.homedir env) ->
  Forall (fun part =>
            Extension.free_of Extension.dollar part.1
            /\ is_Some (Extension.value_of env part.2)) parts ->
  Extension.free_of Extension.dollar text ->
  Extension.free_of Extension.close_brace name ->
  Extension.value_of env name = None ->
  forall fuel, Extension.resolveCommandPath env fuel = None.
Proof.
  intros Hpath Hcwd Hsep Hhome Hparts Htext Hname Hvalue fuel.
  pose proof (known_parts env parts Hcwd Hsep Hhome Hparts) as Hknown.
  unfold Extension.resolveCommandPath. rewrite Hpath. simpl.
  set (last := text +:+ Extension.match0 name +:+ rest).
  destruct (Extension.resolve_loop env fuel (Extension.template parts last))
    as [r|] eqn:Hr; [exfalso|done].
  apply (resolve_loop_more env r fuel (fuel + length parts)) in Hr; [|lia].
  pose proof (resolve_loop_template env parts last (fuel + length parts)
                EmptyString Hknown) as Hloop.
  rewrite !string_app_nil_l in Hloop. rewrite Hloop in Hr; [| |lia].
  - unfold last in Hr at 1.
    rewrite variablePattern_exec_template in Hr by done.
    rewrite (resolve_loop_stuck env _
               (Extension.expansion env parts EmptyString +:+ text) name rest)
      in Hr; [done| |done].
    rewrite expansion_last. unfold last. rewrite <- string_app_assoc.
    apply variablePattern_exec_template; [|done].
    apply free_of_app. split; [by apply expansion_free|done].
  - by intros ?%elem_of_nil.
Qed.

Lemma X19_resolveCommandPath_unknown_variable_never_returns_witness :
  Extension.resolveCommandPath
    {| Extension.commandPath := Some "${workspaceFolder}/bin/standardrb";
       Extension.fsPath := "/work/rails-app";
       Extension.sep := "/";
       Extension.homedir := "/home/dev" |} 1000
  = None.
Proof.
  apply (X19_resolveCommandPath_unknown_variable_never_returns
           {| Extension.commandPath := Some "${workspaceFolder}/bin/standardrb";
              Extension.fsPath := "/work/rails-app";
              Extension.sep := "/";
              Extension.homedir := "/home/dev" |}
           [] EmptyString "workspaceFolder" "/bin/standardrb").
  - reflexivity.
  - intros Hin. vm_compute in Hin.
    repeat (apply elem_of_cons in Hin as [Hin|Hin]; [discriminate Hin|]).
    by apply elem_of_nil in Hin.
  - intros Hin. vm_compute in Hin.
    repeat (apply elem_of_cons in Hin as [Hin|Hin]; [discriminate Hin|]).
    by apply elem_of_nil in Hin.
  - intros Hin. vm_compute in Hin.
    repeat (apply elem_of_cons in Hin as [Hin|Hin]; [discriminate Hin|]).
    by apply elem_of_nil in Hin.
  - constructor.
  - by intros ?%elem_of_nil.
  - intros Hin. vm_compute in Hin.
    repeat (apply elem_of_cons in Hin as [Hin|Hin]; [discriminate Hin|]).
    by apply elem_of_nil in Hin.
  - reflexivity.
Defined.

Lemma split_spaces_spec command :
  let '(exe, args) := Extension.split_spaces command in
  Extension.join_spaces exe args = command
  /\ Extension.free_of Extension.space exe
  /\ Forall (Extension.free_of Extension.space) args.
Proof.
  induction command as [|c command IH]; simpl.
  - split; [done|]. split; [by intros ?%elem_of_nil|constructor].
  - destruct (Extension.split_spaces command) as [piece pieces].
    destruct IH as (Hjoin & Hpiece & Hpieces).
    destruct (decide (c = Extension.space)) as [->|Hc]; simpl.
    + rewrite string_app_nil_l, Hjoin. split; [done|].
      split; [by intros ?%elem_of_nil|by constructor].
    + split; [|split; [by apply free_of_cons|done]].
      destruct pieces as [|piece' pieces]; simpl in *; [by rewrite Hjoin|].
      by rewrite string_app_cons, Hjoin.
Qed.

Lemma split_spaces_first exe rest :
  Extension.free_of Extension.space exe ->
  (Extension.split_spaces (exe +:+ String Extension.space rest)).1 = exe.
Proof.
  induction exe as [|c exe IH]; intros Hfree.
  - rewrite string_app_nil_l. simpl.
    by destruct (Extension.split_spaces rest).
  - apply free_of_cons in Hfree as [Hc Hfree]. rewrite string_app_cons. simpl.
    specialize (IH Hfree).
    destruct (Extension.split_spaces _) as [piece pieces]. simpl in IH.
    rewrite decide_False by done. simpl. by rewrite IH.
Qed.

(** X20. The command line built from a command string: the executable
    and the arguments before the final [--lsp] are the pieces of the
    command between its spaces, so joining them with spaces gives the
    command back and none of them contains a space; [--lsp] is always the
    last argument.  A command without a space is the executable itself;
    of a command with a space, for instance a resolved path under a
    directory whose name has one, only the text before the first space is
    the executable. *)
Theorem X20_executable_is_cut_at_spaces command cwd :
  let run := Extension.executable_of command cwd in
  (exists args,
     Extension.exe_args run = args ++ ["--lsp"]
     /\ Extension.join_spaces (Extension.exe_command run) args = command
     /\ Extension.free_of Extension.space (Extension.exe_command run)
     /\ Forall (Extension.free_of Extension.space) args)
  /\ Extension.exe_cwd run = cwd
  /\ (Extension.free_of Extension.space command ->
      Extension.exe_command run = command
      /\ Extension.exe_args run = ["--lsp"])
  /\ (forall exe rest,
        command = exe +:+ String Extension.space rest ->
        Extension.free_of Extension.space exe ->
        Extension.exe_command run = exe).
Proof.
  intros run. subst run. unfold Extension.executable_of.
  pose proof (split_spaces_spec command) as Hspec.
  pose proof (split_spaces_first) as Hfirst.
  destruct (Extension.split_spaces command) as [exe args] eqn:Hsplit.
  destruct Hspec as (Hjoin & Hexe & Hargs). simpl.
  split; [by exists args|]. split; [done|]. split.
  - intros Hfree. destruct args as [|arg args]; simpl in Hjoin; [done|].
    exfalso. apply Hfree. rewrite <- Hjoin.
    unfold Extension.free_of in *. rewrite chars_app. simpl.
    apply elem_of_app. right. apply elem_of_cons. by left.
  - intros exe' rest -> Hfree. specialize (Hfirst exe' rest Hfree).
    by rewrite Hsplit in Hfirst.
Qed.

Lemma X20_executable_is_cut_at_spaces_witness :
  Extension.exe_command
    (Extension.executable_of "/Users/John Smith/app/bin/standardrb" "/work")
  = "/Users/John"
  /\ Extension.exe_args (Extension.executable_of "standardrb" "/work") = ["--lsp"].
Proof.
  split.
  - destruct (X20_executable_is_cut_at_spaces
                "/Users/John Smith/app/bin/standardrb" "/work")
      as (_ & _ & _ & Hcut).
    apply (Hcut "/Users/John" "Smith/app/bin/standardrb"); [reflexivity|].
    intros Hin. vm_compute in Hin.
    repeat (apply elem_of_cons in Hin as [Hin|Hin]; [discriminate Hin|]).
    by apply elem_of_nil in Hin.
  - destruct (X20_executable_is_cut_at_spaces "standardrb" "/work")
      as (_ & _ & Hwhole & _).
    apply Hwhole. intros Hin. vm_compute in Hin.
    repeat (apply elem_of_cons in Hin as [Hin|Hin]; [discriminate Hin|]).
    by apply elem_of_nil in Hin.
Defined.

(** ** The extension module: enablement and the command *)

Lemma effects_filter_none (p : Extension.Effect -> bool) effects :
  (forall e, e ∈ effects -> p e = false) ->
  filter (fun e => p e = true) effects = [].
Proof.
  induction effects as [|e effects IH]; intros Hp; [done|].
  rewrite filter_cons_False.
  - apply IH. intros e' He'. apply Hp. by apply elem_of_cons; right.
  - rewrite (Hp e); [done|]. by apply elem_of_cons; left.
Qed.

Lemma ExecError_log_quiet host command cwd code stdout stderr e :
  e ∈ Extension.ExecError_log host command cwd code stdout stderr ->
  Extension.is_Exec e = false /\ Extension.is_ErrorMessage e = false.
Proof.
  unfold Extension.ExecError_log. intros He.
  repeat (apply elem_of_app in He as [He|He]);
    repeat case_bool_decide;
    repeat (apply elem_of_cons in He as [->|He]; [done|]);
    by apply elem_of_nil in He.
Qed.

(** What [displayBundlerError] does: it runs no command, and it opens at
    most one dialog, which offers [Show Output] only and is not opened in
    mode [enableUnconditionally]. *)
Lemma displayBundlerError_effects host command cwd code stdout stderr folder :
  let effects :=
    Extension.displayBundlerError host command cwd code stdout stderr folder in
  filter (fun e => Extension.is_Exec e = true) effects = []
  /\ length (filter (fun e => Extension.is_ErrorMessage e = true) effects) <= 1
  /\ (Extension.mode host = Some "enableUnconditionally" ->
      filter (fun e => Extension.is_ErrorMessage e = true) effects = [])
  /\ (forall message actions,
        Extension.ErrorMessage message actions ∈ effects ->
        actions = ["Show Output"]).
Proof.
  intros effects. subst effects. unfold Extension.displayBundlerError.
  set (logs := Extension.ExecError_log host command cwd code stdout stderr).
  set (line := [Extension.LogLine _]).
  set (dialog := if decide (Extension.mode host = Some "enableUnconditionally")
                 then [] else Extension.displayError host _ _).
  assert (forall e, e ∈ logs ->
            Extension.is_Exec e = false /\ Extension.is_ErrorMessage e = false)
    as Hlogs by (intros e He; by eapply ExecError_log_quiet).
  assert (filter (fun e => Extension.is_Exec e = true) dialog = []
          /\ length (filter (fun e => Extension.is_ErrorMessage e = true) dialog) <= 1
          /\ (Extension.mode host = Some "enableUnconditionally" -> dialog = [])
          /\ (forall message actions,
                Extension.ErrorMessage message actions ∈ dialog ->
                actions = ["Show Output"]))
    as (Hexecs & Hcount & Hquiet & Hactions).
  { subst dialog.
    destruct (decide (Extension.mode host = Some "enableUnconditionally"))
      as [Hmode|Hmode].
    - split; [done|]. split; [simpl; lia|]. split; [done|].
      by intros ? ? ?%elem_of_nil.
    - unfold Extension.displayError.
      destruct (Extension.showErrorMessage host _ _) as [action|];
        repeat case_decide; (split; [done|]); (split; [simpl; lia|]);
        (split; [done|]); intros message actions He;
        repeat (apply elem_of_cons in He as [He|He]; [by simplify_eq|]);
        by apply elem_of_nil in He. }
  rewrite !filter_app.
  rewrite (effects_filter_none Extension.is_Exec logs)
    by (intros e He; by apply Hlogs).
  rewrite (effects_filter_none Extension.is_ErrorMessage logs)
    by (intros e He; by apply Hlogs).
  rewrite Hexecs. split; [done|]. split; [done|]. split.
  - intros Hmode. by rewrite (Hquiet Hmode).
  - intros message actions He.
    apply elem_of_app in He as [He|He]; [by apply Hlogs in He as [_ ?]|].
    apply elem_of_app in He as [He|He]; [|by eapply Hactions].
    apply elem_of_cons in He as [?|He]; [done|]. by apply elem_of_nil in He.
Qed.

Lemma isInBundle_spec host env folder :
  let x := Extension.isInBundle host env folder in
  (x.2 = Extension.included <-> Extension.succeeds host env Extension.bundle_show)
  /\ filter (fun e => Extension.is_Exec e = true) x.1
     = [Extension.Exec Extension.bundle_show (Extension.fsPath env)]
  /\ length (filter (fun e => Extension.is_ErrorMessage e = true) x.1) <= 1
  /\ (Extension.mode host = Some "enableUnconditionally" ->
      filter (fun e => Extension.is_ErrorMessage e = true) x.1 = [])
  /\ (forall message actions,
        Extension.ErrorMessage message actions ∈ x.1 -> actions = ["Show Output"]).
Proof.
  intros x. subst x. unfold Extension.isInBundle, Extension.succeeds.
  destruct (Extension.promiseExec host _ _) as [out err|code out err|] eqn:Hexec.
  - simpl. split; [split; [by eauto|done]|]. split; [done|]. split; [lia|].
    split; [done|]. intros ? ? He.
    apply elem_of_cons in He as [?|He]; [done|]. by apply elem_of_nil in He.
  - destruct (_ || _); simpl.
    + split; [split; [done|by intros (? & ? & ?)]|]. split; [done|].
      split; [lia|]. split; [done|]. intros ? ? He.
      apply elem_of_cons in He as [?|He]; [done|]. by apply elem_of_nil in He.
    + destruct (displayBundlerError_effects host Extension.bundle_show
                  (Extension.fsPath env) code out err folder)
        as (Hexecs & Hcount & Hquiet & Hactions).
      split; [split; [done|by intros (? & ? & ?)]|].
      rewrite !filter_cons. simpl. rewrite Hexecs.
      split; [done|]. split; [done|]. split; [done|].
      intros message actions He.
      apply elem_of_cons in He as [?|He]; [done|]. by eapply Hactions.
  - simpl. split; [split; [done|by intros (? & ? & ?)]|]. split; [done|].
    split; [lia|]. split; [done|]. intros ? ? He.
    apply elem_of_cons in He as [?|He]; [done|]. by apply elem_of_nil in He.
Qed.

Lemma shouldEnableIfBundleIncludesStandard_spec host env folder :
  let x := Extension.shouldEnableIfBundleIncludesStandard host env folder in
  (x.2 = true <-> Extension.succeeds host env Extension.bundle_show)
  /\ filter (fun e => Extension.is_Exec e = true) x.1
     = [Extension.Exec Extension.bundle_show (Extension.fsPath env)]
  /\ length (filter (fun e => Extension.is_ErrorMessage e = true) x.1) <= 1
  /\ (forall message actions,
        Extension.ErrorMessage message actions ∈ x.1 -> actions = ["Show Output"]).
Proof.
  intros x. subst x. unfold Extension.shouldEnableIfBundleIncludesStandard.
  destruct (isInBundle_spec host env folder)
    as (Hincluded & Hexecs & Hcount & _ & Hactions).
  destruct (Extension.isInBundle host env folder) as [effects status].
  simpl in Hincluded, Hexecs, Hcount, Hactions.
  destruct status; simpl.
  - split; [by rewrite <- Hincluded|]. done.
  - split; [rewrite <- Hincluded; by split|].
    rewrite !filter_app, Hexecs. simpl. rewrite app_nil_r.
    split; [done|]. split; [done|].
    intros message actions He. apply elem_of_app in He as [He|He].
    + by eapply Hactions.
    + apply elem_of_cons in He as [?|He]; [done|]. by apply elem_of_nil in He.
  - split; [rewrite <- Hincluded; by split|]. done.
Qed.

Lemma isValidBundlerProject_spec host env folder :
  let x := Extension.isValidBundlerProject host env folder in
  (x.2 = Extension.valid <-> Extension.succeeds host env Extension.bundle_list)
  /\ (x.2 = Extension.missing <-> Extension.no_Gemfile host env Extension.bundle_list)
  /\ filter (fun e => Extension.is_Exec e = true) x.1
     = [Extension.Exec Extension.bundle_list (Extension.fsPath env)]
  /\ length (filter (fun e => Extension.is_ErrorMessage e = true) x.1) <= 1
  /\ (x.2 = Extension.valid ->
      filter (fun e => Extension.is_ErrorMessage e = true) x.1 = [])
  /\ (forall message actions,
        Extension.ErrorMessage message actions ∈ x.1 -> actions = ["Show Output"]).
Proof.
  intros x. subst x.
  unfold Extension.isValidBundlerProject, Extension.succeeds, Extension.no_Gemfile.
  destruct (Extension.promiseExec host _ _) as [out err|code out err|] eqn:Hexec.
  - simpl. split; [split; [by eauto|done]|].
    split; [split; [done|by intros (? & ? & ? & ? & ?)]|].
    split; [done|]. split; [lia|]. split; [done|]. intros ? ? He.
    apply elem_of_cons in He as [?|He]; [done|]. by apply elem_of_nil in He.
  - destruct (Extension.startsWith err _) eqn:Hstarts; simpl.
    + split; [split; [done|by intros (? & ? & ?)]|].
      split; [split; [intros _; by eauto 6|done]|].
      split; [done|]. split; [lia|]. split; [done|]. intros ? ? He.
      repeat (apply elem_of_cons in He as [?|He]; [done|]).
      by apply elem_of_nil in He.
    + destruct (displayBundlerError_effects host Extension.bundle_list
                  (Extension.fsPath env) code out err folder)
        as (Hexecs & Hcount & Hquiet & Hactions).
      split; [split; [done|by intros (? & ? & ?)]|].
      split; [split; [done|]|].
      { intros (? & ? & ? & Heq & Hs). simplify_eq. congruence. }
      rewrite !filter_cons. simpl. rewrite Hexecs.
      split; [done|]. split; [done|]. split; [done|].
      intros message actions He.
      apply elem_of_cons in He as [?|He]; [done|]. by eapply Hactions.
  - simpl. split; [split; [done|by intros (? & ? & ?)]|].
    split; [split; [done|by intros (? & ? & ? & ? & ?)]|].
    split; [done|]. split; [lia|]. split; [done|]. intros ? ? He.
    apply elem_of_cons in He as [?|He]; [done|]. by apply elem_of_nil in He.
Qed.

(** [shouldEnableForFolder] in the five modes. *)
Lemma shouldEnableForFolder_by_mode host env folder :
  let x := Extension.shouldEnableForFolder host env folder in
  let cwd := Extension.fsPath env in
  (x.2 = true <->
     Extension.mode host = Some "enableUnconditionally"
     \/ Extension.mode host = Some "onlyRunGlobally"
     \/ (Extension.mode host = Some "enableViaGemfile"
         /\ Extension.succeeds host env Extension.bundle_show)
     \/ (Extension.mode host = Some "enableViaGemfileOrMissingGemfile"
         /\ ((Extension.succeeds host env Extension.bundle_list
              /\ Extension.succeeds host env Extension.bundle_show)
             \/ Extension.no_Gemfile host env Extension.bundle_list)))
  /\ (Extension.mode host = Some "enableUnconditionally"
      \/ Extension.mode host = Some "onlyRunGlobally"
      \/ Extension.mode host = Some "disable" -> x.1 = [])
  /\ (Extension.mode host = Some "enableViaGemfile" ->
      filter (fun e => Extension.is_Exec e = true) x.1
      = [Extension.Exec Extension.bundle_show cwd])
  /\ (Extension.mode host = Some "enableViaGemfileOrMissingGemfile" ->
      (Extension.succeeds host env Extension.bundle_list ->
       filter (fun e => Extension.is_Exec e = true) x.1
       = [Extension.Exec Extension.bundle_list cwd;
          Extension.Exec Extension.bundle_show cwd])
      /\ (~ Extension.succeeds host env Extension.bundle_list ->
          filter (fun e => Extension.is_Exec e = true) x.1
          = [Extension.Exec Extension.bundle_list cwd]))
  /\ length (filter (fun e => Extension.is_ErrorMessage e = true) x.1) <= 1
  /\ (forall message actions,
        Extension.ErrorMessage message actions ∈ x.1 -> actions = ["Show Output"]).
Proof.
  intros x cwd. subst x cwd. unfold Extension.shouldEnableForFolder.
  destruct (decide (Extension.mode host = Some "enableUnconditionally")) as [Hm|Hm1].
  { rewrite Hm. simpl. split; [split; [by auto|done]|].
    split; [done|]. split; [done|]. split; [done|]. split; [lia|].
    by intros ? ? ?%elem_of_nil. }
  destruct (decide (Extension.mode host = Some "enableViaGemfileOrMissingGemfile"))
    as [Hm|Hm2].
  { destruct (isValidBundlerProject_spec host env folder)
      as (Hvalid & Hmissing & Hexecs & Hcount & Hquiet & Hactions).
    destruct (shouldEnableIfBundleIncludesStandard_spec host env folder)
      as (Hstd & Hexecs' & Hcount' & Hactions').
    destruct (Extension.isValidBundlerProject host env folder)
      as [effects status].
    destruct (Extension.shouldEnableIfBundleIncludesStandard host env folder)
      as [effects' enabled].
    simpl in Hvalid, Hmissing, Hexecs, Hcount, Hquiet, Hactions,
             Hstd, Hexecs', Hcount', Hactions'.
    rewrite Hm.
    destruct status; simpl.
    - pose proof (proj1 Hvalid eq_refl) as Hok.
      split.
      { rewrite Hstd. split.
        - intros Hshow. right; right; right. split; [done|]. by left.
        - intros [?|[?|[[? _]|[_ [[_ ?]|Hno]]]]]; try done.
          destruct Hok as (? & ? & Hok), Hno as (? & ? & ? & Hno & _).
          congruence. }
      split; [by intros [?|[?|?]]|]. split; [done|].
      rewrite !filter_app, Hexecs, Hexecs', (Hquiet eq_refl). simpl.
      split; [by split|]. split; [done|].
      intros message actions He. apply elem_of_app in He as [He|He];
        [by eapply Hactions|by eapply Hactions'].
    - pose proof (proj1 Hmissing eq_refl) as Hno.
      split.
      { split; [|done]. intros _. right; right; right. split; [done|]. by right. }
      split; [by intros [?|[?|?]]|]. split; [done|].
      split; [|by split].
      intros _. split; [|done]. intros Hok. apply Hvalid in Hok. done.
    - split.
      { split; [done|].
        intros [?|[?|[[? _]|[_ [[Hok _]|Hno]]]]]; try done.
        - by apply Hvalid in Hok.
        - by apply Hmissing in Hno. }
      split; [by intros [?|[?|?]]|]. split; [done|].
      split; [|by split].
      intros _. split; [|done]. intros Hok. apply Hvalid in Hok. done. }
  destruct (decide (Extension.mode host = Some "enableViaGemfile")) as [Hm|Hm3].
  { destruct (shouldEnableIfBundleIncludesStandard_spec host env folder)
      as (Hstd & Hexecs' & Hcount' & Hactions').
    destruct (Extension.shouldEnableIfBundleIncludesStandard host env folder)
      as [effects' enabled].
    simpl in Hstd, Hexecs', Hcount', Hactions'. rewrite Hm. simpl.
    split.
    { rewrite Hstd. split; [by auto|].
      by intros [?|[?|[[_ ?]|[? _]]]]. }
    split; [by intros [?|[?|?]]|]. split; [done|]. split; [done|]. done. }
  destruct (decide (Extension.mode host = Some "onlyRunGlobally")) as [Hm|Hm4].
  { rewrite Hm. simpl. split; [split; [by auto|done]|].
    split; [done|]. split; [done|]. split; [done|]. split; [lia|].
    by intros ? ? ?%elem_of_nil. }
  destruct (decide (Extension.mode host = Some "disable")) as [Hm|Hm5].
  { rewrite Hm. simpl.
    split; [split; [done|by intros [?|[?|[[? _]|[? _]]]]]|].
    split; [done|]. split; [done|]. split; [done|]. split; [lia|].
    by intros ? ? ?%elem_of_nil. }
  simpl. split; [split; [done|by intros [?|[?|[[? _]|[? _]]]]]|].
  split; [by intros [?|[?|?]]|]. split; [done|]. split; [done|]. split; [lia|].
  intros ? ? He. apply elem_of_cons in He as [?|He]; [done|].
  by apply elem_of_nil in He.
Qed.

(** A missing mode, or a value that is none of the five. *)
Lemma shouldEnableForFolder_other_mode host env folder :
  Extension.mode host <> Some "enableUnconditionally" ->
  Extension.mode host <> Some "enableViaGemfileOrMissingGemfile" ->
  Extension.mode host <> Some "enableViaGemfile" ->
  Extension.mode host <> Some "onlyRunGlobally" ->
  Extension.mode host <> Some "disable" ->
  Extension.shouldEnableForFolder host env folder
  = ([Extension.LogLine "Invalid value for standardRuby.mode"], false).
Proof.
  intros H1 H2 H3 H4 H5. unfold Extension.shouldEnableForFolder.
  by rewrite !decide_False by done.
Qed.

(** X21. What the setting [standardRuby.mode] means for a folder.
    [shouldEnableForFolder] answers yes exactly when the mode is
    [enableUnconditionally] or [onlyRunGlobally], or the mode is
    [enableViaGemfile] and [bundle show standard] succeeds, or the mode is
    [enableViaGemfileOrMissingGemfile] and either [bundle list] and
    [bundle show standard] both succeed or [bundle list] fails for want of
    a Gemfile.  In the modes [enableUnconditionally], [onlyRunGlobally] and
    [disable] it does nothing at all.  In mode [enableViaGemfile] the one
    command it runs is [bundle show standard].  In mode
    [enableViaGemfileOrMissingGemfile] it runs [bundle list] and then, only
    when that succeeded, [bundle show standard].  With the mode missing or
    of any other value it runs no command, logs that the value is invalid
    and answers no.  In every mode it opens at most one error dialog, and
    the dialog offers only [Show Output]. *)
Theorem X21_shouldEnableForFolder_follows_the_mode host env folder :
  let x := Extension.shouldEnableForFolder host env folder in
  let cwd := Extension.fsPath env in
  (x.2 = true <->
     Extension.mode host = Some "enableUnconditionally"
     \/ Extension.mode host = Some "onlyRunGlobally"
     \/ (Extension.mode host = Some "enableViaGemfile"
         /\ Extension.succeeds host env Extension.bundle_show)
     \/ (Extension.mode host = Some "enableViaGemfileOrMissingGemfile"
         /\ ((Extension.succeeds host env Extension.bundle_list
              /\ Extension.succeeds host env Extension.bundle_show)
             \/ Extension.no_Gemfile host env Extension.bundle_list)))
  /\ (Extension.mode host = Some "enableUnconditionally"
      \/ Extension.mode host = Some "onlyRunGlobally"
      \/ Extension.mode host = Some "disable" -> x.1 = [])
  /\ (Extension.mode host = Some "enableViaGemfile" ->
      filter (fun e => Extension.is_Exec e = true) x.1
      = [Extension.Exec Extension.bundle_show cwd])
  /\ (Extension.mode host = Some "enableViaGemfileOrMissingGemfile" ->
      (Extension.succeeds host env Extension.bundle_list ->
       filter (fun e => Extension.is_Exec e = true) x.1
       = [Extension.Exec Extension.bundle_list cwd;
          Extension.Exec Extension.bundle_show cwd])
      /\ (~ Extension.succeeds host env Extension.bundle_list ->
          filter (fun e => Extension.is_Exec e = true) x.1
          = [Extension.Exec Extension.bundle_list cwd]))
  /\ (Extension.mode host <> Some "enableUnconditionally" ->
      Extension.mode host <> Some "enableViaGemfileOrMissingGemfile" ->
      Extension.mode host <> Some "enableViaGemfile" ->
      Extension.mode host <> Some "onlyRunGlobally" ->
      Extension.mode host <> Some "disable" ->
      x = ([Extension.LogLine "Invalid value for standardRuby.mode"], false))
  /\ length (filter (fun e => Extension.is_ErrorMessage e = true) x.1) <= 1
  /\ (forall message actions,
        Extension.ErrorMessage message actions ∈ x.1 -> actions = ["Show Output"]).
Proof.
  intros x cwd. subst x cwd.
  destruct (shouldEnableForFolder_by_mode host env folder)
    as (Henabled & Hquiet & Hshow & Hlist & Hcount & Hactions).
  split; [exact Henabled|]. split; [exact Hquiet|]. split; [exact Hshow|].
  split; [exact Hlist|]. split; [|split; [exact Hcount|exact Hactions]].
  apply shouldEnableForFolder_other_mode.
Qed.

Lemma X21_shouldEnableForFolder_follows_the_mode_witness :
  (* no Gemfile in the folder *)
  let x := Extension.shouldEnableForFolder
     {| Extension.mode := Some "enableViaGemfileOrMissingGemfile";
        Extension.promiseExec := fun _ _ =>
          Extension.ExecRejected (Some "10") EmptyString
            "Could not locate Gemfile or .bundle/ directory";
        Extension.showErrorMessage := fun _ _ => None;
        Extension.stringify_options := fun cwd => cwd |}
     {| Extension.commandPath := None; Extension.fsPath := "/work/cli-tool";
        Extension.sep := "/"; Extension.homedir := "/home/dev" |}
     Scenario.cliTool in
  let y := Extension.shouldEnableForFolder
     {| Extension.mode := None;
        Extension.promiseExec := fun _ _ => Extension.ExecResolved EmptyString EmptyString;
        Extension.showErrorMessage := fun _ _ => None;
        Extension.stringify_options := fun cwd => cwd |}
     {| Extension.commandPath := None; Extension.fsPath := "/work/cli-tool";
        Extension.sep := "/"; Extension.homedir := "/home/dev" |}
     Scenario.cliTool in
  x.2 = true
  /\ filter (fun e => Extension.is_Exec e = true) x.1
     = [Extension.Exec Extension.bundle_list "/work/cli-tool"]
  /\ y = ([Extension.LogLine "Invalid value for standardRuby.mode"], false).
Proof.
  set (host := {| Extension.mode := Some "enableViaGemfileOrMissingGemfile";
                  Extension.promiseExec := fun _ _ =>
                    Extension.ExecRejected (Some "10") EmptyString
                      "Could not locate Gemfile or .bundle/ directory";
                  Extension.showErrorMessage := fun _ _ => None;
                  Extension.stringify_options := fun cwd => cwd |}).
  set (host' := {| Extension.mode := None;
                   Extension.promiseExec := fun _ _ =>
                     Extension.ExecResolved EmptyString EmptyString;
                   Extension.showErrorMessage := fun _ _ => None;
                   Extension.stringify_options := fun cwd => cwd |}).
  set (env := {| Extension.commandPath := None; Extension.fsPath := "/work/cli-tool";
                 Extension.sep := "/"; Extension.homedir := "/home/dev" |}).
  intros x y. subst x y.
  destruct (X21_shouldEnableForFolder_follows_the_mode host env Scenario.cliTool)
    as (Henabled & _ & _ & Hlist & _).
  destruct (X21_shouldEnableForFolder_follows_the_mode host' env Scenario.cliTool)
    as (_ & _ & _ & _ & Hother & _).
  split; [|split].
  - apply Henabled. right; right; right. split; [reflexivity|]. right.
    exists (Some "10"), EmptyString,
      "Could not locate Gemfile or .bundle/ directory".
    split; reflexivity.
  - destruct Hlist as [_ Hfailed]; [reflexivity|].
    apply Hfailed. intros (out & err & Hok). discriminate Hok.
  - apply Hother; discriminate.
Defined.

(** X22. Where the command of the server comes from.  A customized
    command path wins: no Bundler command is run and the command is what
    [resolveCommandPath] gives.  Otherwise the command is
    [bundle exec standardrb] exactly when the mode is not
    [onlyRunGlobally] and [bundle show standard] succeeds, and
    [standardrb] in every other case, a failing Bundler included; in mode
    [onlyRunGlobally] Bundler is not consulted, in the other modes
    [bundle show standard] is run once, and in mode
    [enableUnconditionally] no error dialog is opened whatever Bundler
    does.  The executable built from the command is [bundle] with the
    arguments [exec standardrb --lsp], or [standardrb] with [--lsp]. *)
Theorem X22_getCommand_prefers_the_bundle host env fuel folder :
  let x := Extension.getCommand host env fuel folder in
  let cwd := Extension.fsPath env in
  (Extension.hasCustomizedCommandPath env = true ->
   x = ([], Extension.resolveCommandPath env fuel))
  /\ (Extension.hasCustomizedCommandPath env = false ->
      (x.2 = Some "bundle exec standardrb" <->
         Extension.mode host <> Some "onlyRunGlobally"
         /\ Extension.succeeds host env Extension.bundle_show)
      /\ (x.2 <> Some "bundle exec standardrb" -> x.2 = Some "standardrb")
      /\ (Extension.mode host = Some "onlyRunGlobally" -> x.1 = [])
      /\ (Extension.mode host <> Some "onlyRunGlobally" ->
          filter (fun e => Extension.is_Exec e = true) x.1
          = [Extension.Exec Extension.bundle_show cwd])
      /\ (Extension.mode host = Some "enableUnconditionally" ->
          filter (fun e => Extension.is_ErrorMessage e = true) x.1 = [])
      /\ (forall command, x.2 = Some command ->
            Extension.executable_of command cwd
            = {| Extension.exe_command := "bundle";
                 Extension.exe_args := ["exec"; "standardrb"; "--lsp"];
                 Extension.exe_cwd := cwd |}
            \/ Extension.executable_of command cwd
               = {| Extension.exe_command := "standardrb";
                    Extension.exe_args := ["--lsp"];
                    Extension.exe_cwd := cwd |})).
Proof.
  intros x cwd. subst x cwd. unfold Extension.getCommand.
  destruct (Extension.hasCustomizedCommandPath env); split; try done.
  intros _.
  destruct (decide (Extension.mode host = Some "onlyRunGlobally")) as [Hm|Hm].
  { simpl. split; [split; [done|by intros [? _]]|].
    split; [done|]. split; [done|]. split; [done|].
    split; [by rewrite Hm|]. intros command [= <-]. by right. }
  destruct (isInBundle_spec host env folder)
    as (Hincluded & Hexecs & Hcount & Hquiet & Hactions).
  destruct (Extension.isInBundle host env folder) as [effects status].
  simpl in Hincluded, Hexecs, Hcount, Hquiet, Hactions.
  destruct status; simpl.
  - split; [split; [intros _; split; [done|by apply Hincluded]|done]|].
    split; [done|]. split; [done|]. split; [done|]. split; [done|].
    intros command [= <-]. by left.
  - split; [split; [done|intros [_ Hok]; by apply Hincluded in Hok]|].
    split; [done|]. split; [done|]. split; [done|]. split; [done|].
    intros command [= <-]. by right.
  - split; [split; [done|intros [_ Hok]; by apply Hincluded in Hok]|].
    split; [done|]. split; [done|]. split; [done|]. split; [done|].
    intros command [= <-]. by right.
Qed.

Lemma X22_getCommand_prefers_the_bundle_witness :
  (* Bundler fails for a reason of its own, in mode enableUnconditionally *)
  let x := Extension.getCommand
             {| Extension.mode := Some "enableUnconditionally";
                Extension.promiseExec := fun _ _ =>
                  Extension.ExecRejected (Some "127") EmptyString
                    "bundle: command not found";
                Extension.showErrorMessage := fun _ _ => Some "Show Output";
                Extension.stringify_options := fun cwd => cwd |}
             {| Extension.commandPath := Some EmptyString;
                Extension.fsPath := "/work/rails-app";
                Extension.sep := "/"; Extension.homedir := "/home/dev" |}
             0 Scenario.railsApp in
  x.2 = Some "standardrb"
  /\ filter (fun e => Extension.is_ErrorMessage e = true) x.1 = [].
Proof.
  set (host := {| Extension.mode := Some "enableUnconditionally";
                  Extension.promiseExec := fun _ _ =>
                    Extension.ExecRejected (Some "127") EmptyString
                      "bundle: command not found";
                  Extension.showErrorMessage := fun _ _ => Some "Show Output";
                  Extension.stringify_options := fun cwd => cwd |}).
  set (env := {| Extension.commandPath := Some EmptyString;
                 Extension.fsPath := "/work/rails-app";
                 Extension.sep := "/"; Extension.homedir := "/home/dev" |}).
  intros x. subst x.
  destruct (X22_getCommand_prefers_the_bundle host env 0 Scenario.railsApp)
    as (_ & H).
  destruct H as (Hbundle & Hglobal & _ & _ & Hquiet & _); [reflexivity|].
  split.
  - apply Hglobal. intros Hx. apply Hbundle in Hx as [_ (? & ? & Hok)].
    discriminate Hok.
  - apply Hquiet. reflexivity.
Defined.
